(** * CtrlChecks worker: the asynchronous job pipeline

    A shallow embedding of the job pipeline of the worker service:
    - [app/utils/retries.py]                ([retry_configured])
    - [app/services/workflow_generation.py] ([_extract_prompt],
      [_generate_workflow_payload], [generate_workflow_async],
      [workflow_status], [process_job])
    - [app/background/task_queue.py]        ([TaskQueue._worker_loop])
    - [app/settings.py]                     ([Settings])

    Python code that raises is embedded in a state-and-exception monad over a
    [World]: the persisted job table plus the observable effects (requests
    sent to the store, log records, back-off sleeps).  Everything the code
    obtains from outside the process (store failures, the clock, the random
    generator, the token resolver, the language-model endpoint, the data
    files) is read from an [Env] of oracles, so that every theorem holds for
    every behaviour of those collaborators. *)

From Stdlib Require Import ZArith QArith Qminmax Ascii.
From stdpp Require Import gmap strings list fin_maps pretty.

Local Open Scope Z_scope.

(** ** JSON-like Python values *)

#[warnings="-register-all"]
Inductive value :=
  | VNone
  | VBool (b : bool)
  | VInt (z : Z)
  | VStr (s : string)
  | VList (l : list value)
  | VDict (d : gmap string value).

(** Python truthiness ([bool(v)]). *)
Definition truthy (v : value) : bool :=
  match v with
  | VNone => false
  | VBool b => b
  | VInt z => negb (z =? 0)
  | VStr s => negb (bool_decide (s = ""))
  | VList l => negb (bool_decide (length l = 0%nat))
  | VDict d => negb (bool_decide (size d = 0%nat))
  end.

(** [a or b]. *)
Definition py_or (a b : value) : value := if truthy a then a else b.

(** [d.get(k)] on a dict: [None] when the key is missing. *)
Definition dict_get (d : gmap string value) (k : string) : value :=
  default VNone (d !! k).

(** [v == "s"] for a string literal [s]. *)
Definition eq_str (v : value) (s : string) : bool :=
  match v with
  | VStr s' => bool_decide (s' = s)
  | _ => false
  end.

(** ** Exceptions

    Instances of (subclasses of) Python's [Exception]: the class name and
    [str(exc)]. *)

Record Exn := mkExn { exc_type : string; exc_msg : string }.

Definition str_exc (e : Exn) : string := exc_msg e.

Definition ValueError (msg : string) : Exn := mkExn "ValueError" msg.
Definition AttributeError (msg : string) : Exn := mkExn "AttributeError" msg.
Definition KeyError (msg : string) : Exn := mkExn "KeyError" msg.

Inductive Result (A : Type) :=
  | Ok (a : A)
  | Raise (e : Exn).
Arguments Ok {A} a.
Arguments Raise {A} e.

(** ** The world *)

(** A request sent to the job store, with whether it was served. *)
Inductive StoreOp :=
  | Select (id : string)
  | Insert (row : gmap string value)
  | Update (id : string) (fields : gmap string value).

Record StoreRequest := mkReq { req_op : StoreOp; req_served : bool }.

Record LogRecord := mkLog {
  log_level : string;
  log_msg : string;
  log_extra : list (string * string)
}.

Record World := mkWorld {
  jobs : gmap string (gmap string value); (* table workflow_generation_jobs *)
  store_log : list StoreRequest;          (* requests sent, oldest first *)
  clock_reads : nat;                      (* datetime.now() calls so far *)
  rand_calls : nat;                       (* random.randint calls so far *)
  ollama_calls : nat;                     (* language-model calls so far *)
  sleeps : list Q;                        (* back-off delays, oldest first *)
  logs : list LogRecord;                  (* log records, oldest first *)
  stop_event : bool;                      (* TaskQueue._stop_event *)
  tasks_done : nat                        (* queue.task_done() calls *)
}.

Definition set_jobs (f : gmap string (gmap string value) → gmap string (gmap string value))
    (w : World) : World :=
  mkWorld (f (jobs w)) (store_log w) (clock_reads w) (rand_calls w)
          (ollama_calls w) (sleeps w) (logs w) (stop_event w) (tasks_done w).
Definition add_request (r : StoreRequest) (w : World) : World :=
  mkWorld (jobs w) (store_log w ++ [r]) (clock_reads w) (rand_calls w)
          (ollama_calls w) (sleeps w) (logs w) (stop_event w) (tasks_done w).
Definition tick_clock (w : World) : World :=
  mkWorld (jobs w) (store_log w) (S (clock_reads w)) (rand_calls w)
          (ollama_calls w) (sleeps w) (logs w) (stop_event w) (tasks_done w).
Definition tick_rand (w : World) : World :=
  mkWorld (jobs w) (store_log w) (clock_reads w) (S (rand_calls w))
          (ollama_calls w) (sleeps w) (logs w) (stop_event w) (tasks_done w).
Definition tick_ollama (w : World) : World :=
  mkWorld (jobs w) (store_log w) (clock_reads w) (rand_calls w)
          (S (ollama_calls w)) (sleeps w) (logs w) (stop_event w) (tasks_done w).
Definition add_sleep (d : Q) (w : World) : World :=
  mkWorld (jobs w) (store_log w) (clock_reads w) (rand_calls w)
          (ollama_calls w) (sleeps w ++ [d]) (logs w) (stop_event w) (tasks_done w).
Definition add_log (r : LogRecord) (w : World) : World :=
  mkWorld (jobs w) (store_log w) (clock_reads w) (rand_calls w)
          (ollama_calls w) (sleeps w) (logs w ++ [r]) (stop_event w) (tasks_done w).
Definition tick_done (w : World) : World :=
  mkWorld (jobs w) (store_log w) (clock_reads w) (rand_calls w)
          (ollama_calls w) (sleeps w) (logs w) (stop_event w) (S (tasks_done w)).

(** ** The state-and-exception monad *)

Definition M (A : Type) : Type := World → Result A * World.

Definition ret {A} (a : A) : M A := λ w, (Ok a, w).
Definition raise {A} (e : Exn) : M A := λ w, (Raise e, w).
Definition bind {A B} (m : M A) (k : A → M B) : M B :=
  λ w, match m w with
       | (Ok a, w') => k a w'
       | (Raise e, w') => (Raise e, w')
       end.
(** [try: body except Exception as exc: handler(exc)]. *)
Definition try_except {A} (body : M A) (handler : Exn → M A) : M A :=
  λ w, match body w with
       | (Ok a, w') => (Ok a, w')
       | (Raise e, w') => handler e w'
       end.
(** [try: body finally: fin]. *)
Definition try_finally {A} (body : M A) (fin : M unit) : M A :=
  λ w, match body w with
       | (r, w') =>
           match fin w' with
           | (Ok _, w'') => (r, w'')
           | (Raise e, w'') => (Raise e, w'')
           end
       end.
Definition lift_result {A} (r : Result A) : M A := λ w, (r, w).
Definition modify (f : World → World) : M unit := λ w, (Ok tt, f w).

Declare Scope pym_scope.
Delimit Scope pym_scope with pym.
Notation "'let!' x ':=' m 'in' k" := (bind m (λ x, k))
  (at level 10, x name, m at level 100, k at level 200) : pym_scope.
Notation "'run!' m 'in' k" := (bind m (λ _, k))
  (at level 10, m at level 100, k at level 200) : pym_scope.
Local Open Scope pym_scope.

(** ** Settings ([app/settings.py]) *)

(** The fields of [Settings] the pipeline reads.  The two delays are Python
    floats; they are only ever compared, never operated on, so exact
    rationals model them. *)
Record Settings := mkSettings {
  max_retries : Z;
  retry_base_seconds : Q;
  retry_max_seconds : Q
}.

(** The defaults declared by the class. *)
Definition default_settings : Settings :=
  {| max_retries := 3; retry_base_seconds := 1; retry_max_seconds := 20 |}.

(** ** The environment *)

(** What the process obtains from its collaborators.  Counters in the
    [World] select the answer of the n-th call. *)
Record Env := mkEnv {
  settings : Settings;
  (* whether the n-th request to the store raises *)
  store_fault : nat → option Exn;
  (* supabase.auth.get_user(token): the user's id, when there is a user; the
     provider is asked at every request, and a provider whose answer to a
     token changes from one request to the next is two environments *)
  auth_get_user : string → Result (option string);
  (* datetime.now(timezone.utc) at the n-th reading, in milliseconds *)
  now_ms : nat → Z;
  (* datetime.isoformat() *)
  isoformat : Z → string;
  (* the n-th draw of the random generator *)
  rand : nat → Z;
  (* the n-th chat call: message content for (prompt, system prompt) *)
  ollama_chat : nat → string → string → Result string;
  (* json.loads; None stands for JSONDecodeError *)
  json_loads : string → option value;
  (* DataRepository, which reads the data directory *)
  get_node_reference : Result string;
  get_prompt_template : string → list (string * string) → Result string
}.

(** ** Retrying ([app/utils/retries.py])

    [retry_configured] builds a tenacity [retry] decorator.  The three
    tenacity policies it names, as the library defines them: *)

(** [retry_if_exception_type(Exception)]: every [Exception] is retried. *)
Definition retry_if_exception_type_Exception (e : Exn) : bool := true.

(** [stop_after_attempt(n)]: stop once [attempt_number >= n]. *)
Definition stop_after_attempt (max_attempt_number attempt_number : Z) : bool :=
  max_attempt_number <=? attempt_number.

(** [wait_exponential(multiplier=1, min, max, exp_base=2)]:
    [max(max(0, min), min(multiplier * exp_base ** (attempt_number - 1), max))]. *)
Definition wait_exponential (min_ max_ : Q) (attempt_number : Z) : Q :=
  Qmax (Qmax 0 min_) (Qmin (inject_Z (1 * 2 ^ (attempt_number - 1))) max_).

Definition sleep (d : Q) : M unit := modify (add_sleep d).

(** The retry loop of tenacity with [reraise=True]: run [fn]; on an
    exception either re-raise it (when [stop] says so) or sleep [wait] and
    start the next attempt.  The loop is bounded by [fuel];
    [retry_loop_fuel] shows that the bound [retry_configured] passes is
    never the reason the loop ends.  The attempt number at exit (tenacity's
    [statistics["attempt_number"]]) is returned with the outcome. *)
Fixpoint retry_loop {A} (retry_on : Exn → bool) (stop : Z → bool) (wait : Z → Q)
    (fuel : nat) (attempt_number : Z) (fn : M A) (w : World)
    : Result A * Z * World :=
  match fn w with
  | (Ok a, w1) => (Ok a, attempt_number, w1)
  | (Raise e, w1) =>
      if negb (retry_on e) then (Raise e, attempt_number, w1)
      else if stop attempt_number then (Raise e, attempt_number, w1)
      else match fuel with
           | O => (Raise e, attempt_number, w1)
           | S fuel' =>
               retry_loop retry_on stop wait fuel' (attempt_number + 1) fn
                          (add_sleep (wait attempt_number) w1)
           end
  end.

Section Pipeline.
Context (env : Env).

(** The [wait] policy [retry_configured] builds from the settings. *)
Definition retry_wait : Z → Q :=
  wait_exponential (retry_base_seconds (settings env))
                   (retry_max_seconds (settings env)).

Definition retrying {A} (fn : M A) (w : World) : Result A * Z * World :=
  retry_loop retry_if_exception_type_Exception
    (stop_after_attempt (max_retries (settings env)))
    retry_wait
    (Z.to_nat (max_retries (settings env))) 1 fn w.

(** [retry_configured()(fn)]: the wrapped callable. *)
Definition retry_configured {A} (fn : M A) : M A :=
  λ w, let '(r, _, w') := retrying fn w in (r, w').


(** ** Strings

    A Python [str] is a sequence of code points.  It is represented by the
    [string] of the bytes of its UTF-8 encoding, which is also what a string
    literal of this file denotes (a lone surrogate, which a [str] may hold,
    is encoded like any other code point).  Equality, concatenation, [in],
    [replace] and [split] act on the encodings as Python's act on the code
    points; [strip] needs the code points themselves. *)

(** [chr(cp).isspace()], the test [str.strip()] applies to a code point. *)
Definition py_isspace (cp : N) : bool :=
  ((0x09 <=? cp) && (cp <=? 0x0D))%N
  || ((0x1C <=? cp) && (cp <=? 0x20))%N
  || (cp =? 0x85)%N || (cp =? 0xA0)%N || (cp =? 0x1680)%N
  || ((0x2000 <=? cp) && (cp <=? 0x200A))%N
  || (cp =? 0x2028)%N || (cp =? 0x2029)%N || (cp =? 0x202F)%N
  || (cp =? 0x205F)%N || (cp =? 0x3000)%N.

(** The payload of a continuation byte [10xxxxxx]. *)
Definition continuation (b : ascii) : option N :=
  let n := N_of_ascii b in
  if ((0x80 <=? n) && (n <? 0xC0))%N then Some (n - 0x80)%N else None.

(** A code point of at least [least] with the number of bytes it takes: the
    shorter encodings of a smaller code point are not UTF-8. *)
Definition encoded (least : N) (width : nat) (cp : option N) : option (N * nat) :=
  match cp with
  | Some cp => if (least <=? cp)%N then Some (cp, width) else None
  | None => None
  end.

Definition shift6 (high : option N) (b : ascii) : option N :=
  match high, continuation b with
  | Some h, Some x => Some (h * 64 + x)%N
  | _, _ => None
  end.

(** The first code point of a string and the number of bytes it takes. *)
Definition utf8_head (s : string) : option (N * nat) :=
  match s with
  | EmptyString => None
  | String b0 s1 =>
      let n0 := N_of_ascii b0 in
      if (n0 <? 0x80)%N then Some (n0, 1%nat)
      else if (n0 <? 0xC0)%N then None
      else if (n0 <? 0xE0)%N then
        match s1 with
        | String b1 _ => encoded 0x80 2 (shift6 (Some (n0 - 0xC0)%N) b1)
        | _ => None
        end
      else if (n0 <? 0xF0)%N then
        match s1 with
        | String b1 (String b2 _) =>
            encoded 0x800 3 (shift6 (shift6 (Some (n0 - 0xE0)%N) b1) b2)
        | _ => None
        end
      else if (n0 <? 0xF8)%N then
        match s1 with
        | String b1 (String b2 (String b3 _)) =>
            encoded 0x10000 4
              (shift6 (shift6 (shift6 (Some (n0 - 0xF0)%N) b1) b2) b3)
        | _ => None
        end
      else None
  end.

(** The number of bytes of the white-space character [s] starts with, and 0
    when it starts with none. *)
Definition space_width (s : string) : nat :=
  match utf8_head s with
  | Some (cp, width) => if py_isspace cp then width else 0%nat
  | None => 0%nat
  end.

(** The same at the end of a string, which is given reversed: the last
    character is the shortest end that is one encoded code point. *)
Definition space_width_rev (r : string) : nat :=
  let ending (k : nat) := utf8_head (String.rev (String.substring 0 k r)) in
  let whole (k : nat) :=
    match ending k with
    | Some (cp, width) => if bool_decide (width = k) then Some cp else None
    | None => None
    end in
  match whole 1%nat, whole 2%nat, whole 3%nat, whole 4%nat with
  | Some cp, _, _, _ => if py_isspace cp then 1%nat else 0%nat
  | None, Some cp, _, _ => if py_isspace cp then 2%nat else 0%nat
  | None, None, Some cp, _ => if py_isspace cp then 3%nat else 0%nat
  | None, None, None, Some cp => if py_isspace cp then 4%nat else 0%nat
  | None, None, None, None => 0%nat
  end.

(** Drop the white-space characters [s] starts with; [skip] counts the bytes
    of a character still to be dropped. *)
Fixpoint strip_go (width : string → nat) (skip : nat) (s : string) : string :=
  match s with
  | EmptyString => EmptyString
  | String _ s' =>
      match skip with
      | S k => strip_go width k s'
      | O =>
          match width s with
          | S k => strip_go width k s'
          | O => s
          end
      end
  end.

(** [s.lstrip()], [s.rstrip()] and [s.strip()]. *)
Definition lstrip (s : string) : string := strip_go space_width 0 s.
Definition rstrip (s : string) : string :=
  String.rev (strip_go space_width_rev 0 (String.rev s)).
Definition strip (s : string) : string := rstrip (lstrip s).

(** [s.replace(old, new)] for a non-empty [old]; [skip] counts the characters
    of a match still to be dropped. *)
Fixpoint replace_go (old new : string) (skip : nat) (s : string) : string :=
  match s with
  | EmptyString => EmptyString
  | String c s' =>
      match skip with
      | S k => replace_go old new k s'
      | O =>
          if String.prefix old s
          then new +:+ replace_go old new (String.length old - 1) s'
          else String c (replace_go old new 0 s')
      end
  end.
Definition replace (old new s : string) : string := replace_go old new 0 s.

(** [path.split("/")[-1]]: what follows the last slash. *)
Fixpoint last_segment_go (cur s : string) : string :=
  match s with
  | EmptyString => cur
  | String c s' =>
      if Ascii.eqb c "/" then last_segment_go EmptyString s'
      else last_segment_go (cur +:+ String c EmptyString) s'
  end.
Definition last_segment (path : string) : string := last_segment_go EmptyString path.

(** ** The job store

    Modelled from the spec: the JobStore reached through
    [get_supabase_client()] (the module [app/supabase_client.py] is not in
    the source tree).  The spec gives it three operations, [create(job)],
    [getById(id) -> Job|absent] and [update(id, partialFields)], over records
    keyed by an [id] that is never reused.  Each operation is one request,
    which the store either serves or fails with an exception, leaving the
    table as it was. *)

Definition store_request {A} (op : StoreOp) (serve : M A) : M A :=
  λ w, match store_fault env (length (store_log w)) with
       | Some e => (Raise e, add_request (mkReq op false) w)
       | None =>
           match serve w with
           | (Ok a, w') => (Ok a, add_request (mkReq op true) w')
           | (Raise e, w') => (Raise e, add_request (mkReq op false) w')
           end
       end.

(** [table.select("*").eq("id", job_id).single().execute().data] *)
Definition store_get (job_id : string) : M (option (gmap string value)) :=
  store_request (Select job_id) (λ w, (Ok (jobs w !! job_id), w)).

(** [table.update(fields).eq("id", job_id).execute()] *)
Definition store_update (job_id : string) (fields : gmap string value) : M unit :=
  store_request (Update job_id fields)
    (modify (set_jobs (alter (λ row, fields ∪ row) job_id))).

(** [table.insert(row).execute()] *)
Definition store_insert (row : gmap string value) : M unit :=
  store_request (Insert row)
    (λ w, match dict_get row "id" with
          | VStr id =>
              match jobs w !! id with
              | None => (Ok tt, set_jobs (insert id row) w)
              | Some _ => (Raise (mkExn "APIError" "duplicate key value"), w)
              end
          | _ => (Raise (mkExn "APIError" "invalid id"), w)
          end).

(** [if not job]: the row of a lookup when it is truthy. *)
Definition truthy_row (data : option (gmap string value)) : option (gmap string value) :=
  match data with
  | Some row => if bool_decide (size row = 0%nat) then None else Some row
  | None => None
  end.

(** ** Clock, random numbers, logging *)

Definition utc_now : M Z :=
  λ w, (Ok (now_ms env (clock_reads w)), tick_clock w).

(** [datetime.now(timezone.utc).isoformat()] *)
Definition utc_now_iso : M string :=
  let! t := utc_now in ret (isoformat env t).

(** [random.randint(a, b)] *)
Definition randint (a b : Z) : M Z :=
  λ w, (Ok (a + rand env (rand_calls w) `mod` (b - a + 1)), tick_rand w).

Definition logger_info (msg : string) (extra : list (string * string)) : M unit :=
  modify (add_log (mkLog "INFO" msg extra)).
Definition logger_warning (msg : string) (extra : list (string * string)) : M unit :=
  modify (add_log (mkLog "WARNING" msg extra)).
(** [logger.exception]: an ERROR record. *)
Definition logger_exception (msg : string) (extra : list (string * string)) : M unit :=
  modify (add_log (mkLog "ERROR" msg extra)).


(** ** HTTP requests and responses *)

Record Request := mkRequest {
  method : string;
  url_path : string;
  (* request.headers.get("Authorization"); header names are case-insensitive *)
  authorization : option string;
  (* await request.json() *)
  json_body : Result value
}.

(** A response: its status code and, for a JSON response, the payload handed
    to [json.dumps].  Every response carries [CORS_HEADERS]. *)
Record Response := mkResponse {
  status_code : Z;
  content : option (gmap string value)
}.

Definition _json_response (payload : gmap string value) (status : Z) : Response :=
  mkResponse status (Some payload).

(** [Response(headers=CORS_HEADERS)] *)
Definition cors_preflight : Response := mkResponse 200 None.

(** ** [app/services/workflow_generation.py] *)

(** [v.get(k)]: only dicts have [get]. *)
Definition py_get (v : value) (k : string) : Result value :=
  match v with
  | VDict d => Ok (dict_get d k)
  | _ => Raise (AttributeError "object has no attribute 'get'")
  end.

Definition _extract_prompt (payload : value) : Result string :=
  match payload with
  | VDict d =>
      match py_or (py_or (dict_get d "prompt") (dict_get d "description")) (VStr "") with
      | VStr prompt => Ok (strip prompt)
      | _ => Raise (AttributeError "object has no attribute 'strip'")
      end
  | _ => Raise (AttributeError "object has no attribute 'get'")
  end.

Definition _call_ollama (prompt system_prompt : string) : M (gmap string value) :=
  λ w, match ollama_chat env (ollama_calls w) prompt system_prompt with
       | Ok content => (Ok {[ "raw" := VStr content ]}, tick_ollama w)
       | Raise e => (Raise e, tick_ollama w)
       end.

Definition _fallback_workflow (prompt : string) : value :=
  VDict (list_to_map [
    ("nodes", VList [
       VDict (list_to_map [
         ("id", VStr "trigger"); ("type", VStr "trigger");
         ("position", VDict (list_to_map [("x", VInt 200); ("y", VInt 100)]));
         ("data", VDict (list_to_map [
            ("label", VStr "Trigger"); ("type", VStr "trigger");
            ("category", VStr "trigger"); ("config", VDict ∅)]))]);
       VDict (list_to_map [
         ("id", VStr "action"); ("type", VStr "action");
         ("position", VDict (list_to_map [("x", VInt 500); ("y", VInt 100)]));
         ("data", VDict (list_to_map [
            ("label", VStr "Action"); ("type", VStr "action");
            ("category", VStr "action");
            ("config", VDict {[ "prompt" := VStr prompt ]})]))])]);
    ("edges", VList [
       VDict (list_to_map [
         ("id", VStr "edge-1"); ("source", VStr "trigger");
         ("target", VStr "action")])]);
    ("explanation", VStr "Generated a minimal workflow from the prompt.");
    ("status", VStr "completed")]).

Definition prompt_required : string :=
  "Prompt is required and must be a non-empty string".

Definition _generate_workflow_payload (payload : value) : M value :=
  let! prompt := lift_result (_extract_prompt payload) in
  if bool_decide (prompt = "") then raise (ValueError prompt_required) else
  let! reference_guide := lift_result (get_node_reference env) in
  let! system_prompt :=
    lift_result (get_prompt_template env "workflow_generation"
                   [("reference_guide", reference_guide); ("user_prompt", prompt)]) in
  let system_prompt :=
    if bool_decide (system_prompt = "")
    then "Return JSON with keys: nodes, edges, explanation."
    else system_prompt in
  try_except
    (let! llm := _call_ollama prompt system_prompt in
     match default (VStr "") (llm !! "raw") with
     | VStr raw =>
         let raw := strip raw in
         if bool_decide (raw = "") then ret (_fallback_workflow prompt)
         else match json_loads env raw with
              | Some result => ret result
              | None => ret (_fallback_workflow prompt)
              end
     | _ => raise (AttributeError "object has no attribute 'strip'")
     end)
    (λ exc,
     run! logger_warning "Workflow generation fallback" [("error", str_exc exc)] in
     ret (_fallback_workflow prompt)).

(** The identity of the requester, as both handlers resolve it: the user id
    behind the bearer token, when there is a header and a user. *)
Definition requester_id (request : Request) : M (option string) :=
  match authorization request with
  | Some auth_header =>
      if bool_decide (auth_header = "") then ret None
      else
        let token := replace "bearer " "" (replace "Bearer " "" auth_header) in
        lift_result (auth_get_user env token)
  | None => ret None
  end.

Definition generate_workflow_async (request : Request) : M Response :=
  if bool_decide (method request = "OPTIONS") then ret cors_preflight else
  match json_body request with
  | Raise exc =>
      ret (_json_response
             {[ "error" := VStr "Invalid JSON in request body";
                "details" := VStr (str_exc exc) ]} 400)
  | Ok payload =>
      let! prompt := lift_result (_extract_prompt payload) in
      if bool_decide (prompt = "")
      then ret (_json_response {[ "error" := VStr prompt_required ]} 400)
      else
        let! user_id := requester_id request in
        let! t := utc_now in
        let! r := randint 100000 999999 in
        let job_id := "job_" +:+ pretty t +:+ "_" +:+ pretty r in
        let! mode := lift_result (py_get payload "mode") in
        let! current_workflow := lift_result (py_get payload "currentWorkflow") in
        let! execution_history := lift_result (py_get payload "executionHistory") in
        let! config := lift_result (py_get payload "config") in
        run! store_insert (list_to_map [
               ("id", VStr job_id);
               ("user_id", from_option VStr VNone user_id);
               ("prompt", VStr prompt);
               ("mode", py_or mode (VStr "create"));
               ("current_workflow", current_workflow);
               ("execution_history", py_or execution_history (VList []));
               ("config", py_or config (VDict ∅));
               ("status", VStr "queued");
               ("progress_percentage", VInt 0)]) in
        ret (_json_response (list_to_map [
               ("job_id", VStr job_id);
               ("status", VStr "queued");
               ("message", VStr "Workflow generation job created. Poll /workflow-status/{job_id} for results.");
               ("estimated_completion_time", VStr "30-120 seconds")]) 202)
  end.


Definition workflow_status (request : Request) (job_id : option string) : M Response :=
  if bool_decide (method request = "OPTIONS") then ret cors_preflight else
  let job_id :=
    match job_id with
    | Some j => if bool_decide (j = "") then last_segment (url_path request) else j
    | None => last_segment (url_path request)
    end in
  if bool_decide (job_id = "") || bool_decide (job_id = "workflow-status")
     || bool_decide (job_id = "status")
  then ret (_json_response
              {[ "error" := VStr "Job ID is required";
                 "message" := VStr "Provide job_id in URL path: /workflow-status/{job_id}" ]}
              400)
  else
    let! user_id := requester_id request in
    let! data := store_get job_id in
    match truthy_row data with
    | None =>
        ret (_json_response
               {[ "error" := VStr "Job not found";
                  "message" := VStr ("Job with ID " +:+ job_id +:+ " not found") ]}
               404)
    | Some job =>
        if match user_id with
           | Some uid =>
               negb (bool_decide (uid = "")) && truthy (dict_get job "user_id")
               && negb (eq_str (dict_get job "user_id") uid)
           | None => false
           end
        then ret (_json_response
                    {[ "error" := VStr "Forbidden";
                       "message" := VStr "You do not have access to this job" ]}
                    403)
        else
          match job !! "id" with
          | None => raise (KeyError "'id'")
          | Some id =>
              let response : gmap string value := list_to_map [
                ("job_id", id);
                ("status", dict_get job "status");
                ("progress_percentage", py_or (dict_get job "progress_percentage") (VInt 0));
                ("current_phase", dict_get job "current_phase");
                ("created_at", dict_get job "created_at");
                ("started_at", dict_get job "started_at");
                ("finished_at", dict_get job "finished_at");
                ("duration_ms", dict_get job "duration_ms")] in
              let response :=
                if eq_str (dict_get job "status") "completed"
                   && truthy (dict_get job "workflow_result")
                then <["workflow" := dict_get job "workflow_result"]> response
                else response in
              let response :=
                if eq_str (dict_get job "status") "failed"
                   && truthy (dict_get job "error_message")
                then <["error_details" := dict_get job "error_details"]>
                       (<["error" := dict_get job "error_message"]> response)
                else response in
              let response :=
                if truthy (dict_get job "progress_logs")
                then <["progress_logs" := dict_get job "progress_logs"]> response
                else response in
              let response :=
                if truthy (dict_get job "observability")
                then <["observability" := dict_get job "observability"]> response
                else response in
              ret (_json_response response 200)
          end
    end.

(** The body of [process_job], one attempt. *)
Definition process_job_attempt (job_id : string) : M unit :=
  let! data := store_get job_id in
  match truthy_row data with
  | None => raise (ValueError ("Job not found: " +:+ job_id))
  | Some job =>
      let! started_at := utc_now_iso in
      run! store_update job_id (list_to_map [
             ("status", VStr "running");
             ("progress_percentage", VInt 5);
             ("started_at", VStr started_at)]) in
      let payload := VDict (list_to_map [
             ("prompt", dict_get job "prompt");
             ("mode", py_or (dict_get job "mode") (VStr "create"));
             ("currentWorkflow", dict_get job "current_workflow");
             ("executionHistory", py_or (dict_get job "execution_history") (VList []));
             ("config", py_or (dict_get job "config") (VDict ∅))]) in
      try_except
        (let! result := _generate_workflow_payload payload in
         let! finished_at := utc_now_iso in
         run! store_update job_id (list_to_map [
                ("status", VStr "completed");
                ("progress_percentage", VInt 100);
                ("workflow_result", result);
                ("finished_at", VStr finished_at)]) in
         logger_info "Workflow generation job completed" [("job_id", job_id)])
        (λ exc,
         let! finished_at := utc_now_iso in
         run! store_update job_id (list_to_map [
                ("status", VStr "failed");
                ("error_message", VStr (str_exc exc));
                ("finished_at", VStr finished_at)]) in
         logger_exception "Workflow generation job failed"
           [("job_id", job_id); ("error", str_exc exc)])
  end.

(** [@retry_configured() async def process_job(job_id)] *)
Definition process_job (job_id : string) : M unit :=
  retry_configured (process_job_attempt job_id).

(** ** [app/background/task_queue.py] *)

Definition JobCallable : Type := M unit.

(** How a worker loop stands once it has gone through the tasks it was
    handed: it left the [while] with these tasks still queued, or it is
    blocked in [queue.get()]. *)
Inductive LoopState :=
  | Exited (remaining : list JobCallable)
  | Waiting.

(** [TaskQueue._worker_loop(idx)], run over the tasks this worker dequeues,
    in order. *)
Fixpoint _worker_loop (idx : Z) (queue : list JobCallable) : M LoopState :=
  λ w,
    if stop_event w then (Ok (Exited queue), w)
    else
      match queue with
      | [] => (Ok Waiting, w)
      | job :: queue' =>
          (run! try_finally
                  (try_except job
                     (λ exc, logger_exception "Background task failed"
                               [("worker_idx", pretty idx); ("error", str_exc exc)]))
                  (modify tick_done) in
           _worker_loop idx queue') w
      end.

(** ** [app/routers/jobs.py] *)

(** [process_job_route] submits [lambda: process_job(job_id)] to the pool;
    here the task is what a worker then runs. *)
Definition process_job_task (job_id : string) : JobCallable := process_job job_id.

(** ** Vocabulary of the statements *)

(** The world in which invocation number [n + i] of [fn] starts, when
    invocation number [n] starts in [w] and each earlier one is followed by
    its back-off sleep. *)
Fixpoint attempt_world {A} (wait : Z → Q) (fn : M A) (n : Z) (i : nat) (w : World) : World :=
  match i with
  | O => w
  | S j => attempt_world wait fn (n + 1) j (add_sleep (wait n) (snd (fn w)))
  end.

(** The world in which the [(i+1)]-th invocation of a retried [fn] starts. *)
Definition invocation_world {A} (fn : M A) (i : nat) (w : World) : World :=
  attempt_world retry_wait fn 1 i w.

End Pipeline.

Section Vocabulary.
Context (env : Env).

(** The dicts [process_job] builds. *)
Definition job_payload (job : gmap string value) : value :=
  VDict (list_to_map [
    ("prompt", dict_get job "prompt");
    ("mode", py_or (dict_get job "mode") (VStr "create"));
    ("currentWorkflow", dict_get job "current_workflow");
    ("executionHistory", py_or (dict_get job "execution_history") (VList []));
    ("config", py_or (dict_get job "config") (VDict ∅))]).

Definition running_fields (started_at : string) : gmap string value :=
  list_to_map [
    ("status", VStr "running");
    ("progress_percentage", VInt 5);
    ("started_at", VStr started_at)].

Definition completed_fields (result : value) (finished_at : string) : gmap string value :=
  list_to_map [
    ("status", VStr "completed");
    ("progress_percentage", VInt 100);
    ("workflow_result", result);
    ("finished_at", VStr finished_at)].

Definition failed_fields (exc : Exn) (finished_at : string) : gmap string value :=
  list_to_map [
    ("status", VStr "failed");
    ("error_message", VStr (str_exc exc));
    ("finished_at", VStr finished_at)].

(** The time stamp an attempt would read in [w]. *)
Definition timestamp (w : World) : string := isoformat env (now_ms env (clock_reads w)).

(** The world once an attempt started in [w] has looked the job up and
    recorded it as running, both requests served. *)
Definition running_world (job_id : string) (w : World) : World :=
  add_request (mkReq (Update job_id (running_fields (timestamp w))) true)
    (set_jobs (alter (λ row, running_fields (timestamp w) ∪ row) job_id)
       (tick_clock (add_request (mkReq (Select job_id) true) w))).

(** The [except] branch of [process_job]. *)
Definition record_failure (job_id : string) (exc : Exn) : M unit :=
  let! finished_at := utc_now_iso env in
  run! store_update env job_id (failed_fields exc finished_at) in
  logger_exception "Workflow generation job failed"
    [("job_id", job_id); ("error", str_exc exc)].

(** The [try] branch of [process_job] after the generation call. *)
Definition record_success (job_id : string) (result : value) : M unit :=
  let! finished_at := utc_now_iso env in
  run! store_update env job_id (completed_fields result finished_at) in
  logger_info "Workflow generation job completed" [("job_id", job_id)].
End Vocabulary.

(** The record the worker loop logs for a task that raised. *)
Definition task_failed_record (idx : Z) (e : Exn) : LogRecord :=
  mkLog "ERROR" "Background task failed"
        [("worker_idx", pretty idx); ("error", str_exc e)].

Section StatusVocabulary.
Context (env : Env).

(** [job_id or request.url.path.split("/")[-1]] *)
Definition resolved_job_id (request : Request) (job_id : option string) : string :=
  match job_id with
  | Some j => if bool_decide (j = "") then last_segment (url_path request) else j
  | None => last_segment (url_path request)
  end.

(** The ids [workflow_status] answers with 400 "Job ID is required". *)
Definition reserved_job_id (j : string) : bool :=
  bool_decide (j = "") || bool_decide (j = "workflow-status")
  || bool_decide (j = "status").

(** The requester's identity: a function of the request alone. *)
Definition requester (request : Request) : Result (option string) :=
  match authorization request with
  | Some auth_header =>
      if bool_decide (auth_header = "") then Ok None
      else auth_get_user env
             (replace "bearer " "" (replace "Bearer " "" auth_header))
  | None => Ok None
  end.

(** The owner check of [workflow_status]. *)
Definition owner_mismatch (user_id : option string) (job : gmap string value) : bool :=
  match user_id with
  | Some uid =>
      negb (bool_decide (uid = "")) && truthy (dict_get job "user_id")
      && negb (eq_str (dict_get job "user_id") uid)
  | None => false
  end.

(** The payload of the 200 response for a job row. *)
Definition status_view (job : gmap string value) (id : value) : gmap string value :=
  let response : gmap string value := list_to_map [
    ("job_id", id);
    ("status", dict_get job "status");
    ("progress_percentage", py_or (dict_get job "progress_percentage") (VInt 0));
    ("current_phase", dict_get job "current_phase");
    ("created_at", dict_get job "created_at");
    ("started_at", dict_get job "started_at");
    ("finished_at", dict_get job "finished_at");
    ("duration_ms", dict_get job "duration_ms")] in
  let response :=
    if eq_str (dict_get job "status") "completed"
       && truthy (dict_get job "workflow_result")
    then <["workflow" := dict_get job "workflow_result"]> response
    else response in
  let response :=
    if eq_str (dict_get job "status") "failed"
       && truthy (dict_get job "error_message")
    then <["error_details" := dict_get job "error_details"]>
           (<["error" := dict_get job "error_message"]> response)
    else response in
  let response :=
    if truthy (dict_get job "progress_logs")
    then <["progress_logs" := dict_get job "progress_logs"]> response
    else response in
  if truthy (dict_get job "observability")
  then <["observability" := dict_get job "observability"]> response
  else response.

Definition bad_request_response : Response :=
  _json_response
    {[ "error" := VStr "Job ID is required";
       "message" := VStr "Provide job_id in URL path: /workflow-status/{job_id}" ]}
    400.

Definition not_found_response (job_id : string) : Response :=
  _json_response
    {[ "error" := VStr "Job not found";
       "message" := VStr ("Job with ID " +:+ job_id +:+ " not found") ]}
    404.

Definition forbidden_response : Response :=
  _json_response
    {[ "error" := VStr "Forbidden";
       "message" := VStr "You do not have access to this job" ]}
    403.
End StatusVocabulary.

Section Operations.
Context (env : Env).

(** The operations on jobs: creation, the worker running the task that
    [process_job_route] submitted, and a status read. *)
Inductive Operation :=
  | Create (request : Request)
  | Process (job_id : string)
  | ReadStatus (request : Request) (job_id : option string).

Definition run_operation (op : Operation) (w : World) : World :=
  match op with
  | Create request => snd (generate_workflow_async env request w)
  | Process job_id => snd (_worker_loop 0 [process_job_task env job_id] w)
  | ReadStatus request job_id => snd (workflow_status env request job_id w)
  end.

Definition run_operations (ops : list Operation) (w : World) : World :=
  fold_left (λ w op, run_operation op w) ops w.

End Operations.

(** The status a served request writes, with the id of the job. *)
Definition status_written (r : StoreRequest) : option (string * value) :=
  if req_served r then
    match req_op r with
    | Select _ => None
    | Insert row =>
        match dict_get row "id" with
        | VStr id => (λ v, (id, v)) <$> row !! "status"
        | _ => None
        end
    | Update id fields => (λ v, (id, v)) <$> fields !! "status"
    end
  else None.

Definition statuses_written (log : list StoreRequest) : list (string * value) :=
  omap status_written log.

(** The statuses written to one job, oldest first. *)
Definition status_history (job_id : string) (log : list StoreRequest) : list value :=
  snd <$> filter (λ p, p.1 = job_id) (statuses_written log).

(** The requests sent between [w] and a later world [w']. *)
Definition new_requests (w w' : World) : list StoreRequest :=
  drop (length (store_log w)) (store_log w').

Definition terminal (v : value) : Prop :=
  v = VStr "completed" ∨ v = VStr "failed".

(** The invariant in the words of the specification: a later status is
    never [queued], and nothing follows a terminal status but itself. *)
Definition forward_only (history : list value) : Prop :=
  ∀ (i j : nat) a b,
    (i < j)%nat → history !! i = Some a → history !! j = Some b →
    b ≠ VStr "queued" ∧ (terminal a → b = a).

Definition running_status (j : string) : string * value := (j, VStr "running").

Section CreationVocabulary.
Context (env : Env).

(** The id [generate_workflow_async] gives to a job created in [w]. *)
Definition new_job_id (w : World) : string :=
  "job_" +:+ pretty (now_ms env (clock_reads w)) +:+ "_"
  +:+ pretty (100000 + rand env (rand_calls w) `mod` (999999 - 100000 + 1)).

End CreationVocabulary.

(** The back-off delay in the words of the specification:
    [min(maxDelay, baseDelay * 2^(attempt-1))]. *)
Definition spec_backoff (base_delay max_delay : Q) (attempt : Z) : Q :=
  Qmin max_delay (base_delay * inject_Z (2 ^ (attempt - 1))).

(** ** Concrete environments and worlds *)

(** A well-behaved environment with the default settings. *)
Definition env0 : Env := {|
  settings := default_settings;
  store_fault := λ _, None;
  auth_get_user := λ _, Ok None;
  now_ms := λ n, 1700000000000 + Z.of_nat n;
  isoformat := λ t, pretty t;
  rand := λ _, 42;
  ollama_chat := λ _ _ _, Ok "{}";
  json_loads := λ _, Some (VDict {[ "nodes" := VList []; "edges" := VList [] ]});
  get_node_reference := Ok "reference";
  get_prompt_template := λ _ _, Ok "template"
|}.

Definition with_settings (s : Settings) (env : Env) : Env :=
  mkEnv s (store_fault env) (auth_get_user env) (now_ms env) (isoformat env)
        (rand env) (ollama_chat env) (json_loads env) (get_node_reference env)
        (get_prompt_template env).

Definition with_store_fault (f : nat → option Exn) (env : Env) : Env :=
  mkEnv (settings env) f (auth_get_user env) (now_ms env) (isoformat env)
        (rand env) (ollama_chat env) (json_loads env) (get_node_reference env)
        (get_prompt_template env).

Definition with_node_reference (r : Result string) (env : Env) : Env :=
  mkEnv (settings env) (store_fault env) (auth_get_user env) (now_ms env)
        (isoformat env) (rand env) (ollama_chat env) (json_loads env) r
        (get_prompt_template env).

Definition with_ollama (f : nat → string → string → Result string) (env : Env) : Env :=
  mkEnv (settings env) (store_fault env) (auth_get_user env) (now_ms env)
        (isoformat env) (rand env) f (json_loads env) (get_node_reference env)
        (get_prompt_template env).

Definition with_auth (f : string → Result (option string)) (env : Env) : Env :=
  mkEnv (settings env) (store_fault env) f (now_ms env) (isoformat env)
        (rand env) (ollama_chat env) (json_loads env) (get_node_reference env)
        (get_prompt_template env).

(** The empty world. *)
Definition w0 : World := mkWorld ∅ [] 0 0 0 [] [] false 0.

Definition boom : Exn := mkExn "TimeoutError" "timed out".

(** An action that fails twice and then returns 7: it tells its invocations
    apart by the back-off sleeps already taken. *)
Definition flaky : M Z :=
  λ w, if (length (sleeps w) <? 2)%nat then (Raise boom, w) else (Ok 7, w).

Definition env_no_retries : Env :=
  with_settings {| max_retries := 0; retry_base_seconds := 1; retry_max_seconds := 20 |} env0.

Definition env_base3 : Env :=
  with_settings {| max_retries := 3; retry_base_seconds := 3; retry_max_seconds := 20 |} env0.


Definition create_request : Request :=
  mkRequest "POST" "/generate-workflow-async" None
    (Ok (VDict {[ "prompt" := VStr "build a lead capture form" ]})).

(** The world after one job has been created in the empty world. *)
Definition w_queued : World := snd (generate_workflow_async env0 create_request w0).
Definition job1 : string := "job_1700000000000_100042".

Definition api_error : Exn := mkExn "APIError" "connection reset".

(** The store fails the fourth request it receives. *)
Definition env_write_fails : Env :=
  with_store_fault (λ n, if (n =? 3)%nat then Some api_error else None) env0.

(** The store fails the fourth and the fifth request it receives: the
    completed write of the first processing and the failed write after it. *)
Definition env_writes_fail : Env :=
  with_store_fault (λ n, if (n =? 3)%nat || (n =? 4)%nat then Some api_error else None)
    env0.

(** The data directory is missing: every generation raises. *)
Definition env_no_data : Env :=
  with_node_reference
    (Raise (mkExn "FileNotFoundError" "Data file not found: node_reference.json")) env0.

(** The language-model endpoint always times out. *)
Definition env_llm_down : Env := with_ollama (λ _ _ _, Raise boom) env0.

Definition poll_request : Request :=
  mkRequest "GET" "/workflow-status/job_1700000000000_100042" None (Raise (mkExn "JSONDecodeError" "")).

(** Two users, known by their tokens. *)
Definition env_users : Env :=
  with_auth (λ token,
    if bool_decide (token = "token-a") then Ok (Some "user-a")
    else if bool_decide (token = "token-b") then Ok (Some "user-b")
    else Ok None) env0.

(** The store of the repository's own status test: one completed job. *)
Definition row_completed : gmap string value :=
  list_to_map [("id", VStr "job_1"); ("status", VStr "completed");
               ("progress_percentage", VInt 100)].

Definition w_test : World := mkWorld {[ "job_1" := row_completed ]} [] 0 0 0 [] [] false 0.

(** A queued job that user A owns. *)
Definition row_owned : gmap string value :=
  list_to_map [("id", VStr "job_1"); ("user_id", VStr "user-a");
               ("status", VStr "queued"); ("progress_percentage", VInt 0)].

Definition w_owned : World := mkWorld {[ "job_1" := row_owned ]} [] 0 0 0 [] [] false 0.

Definition poll_as (auth : option string) : Request :=
  mkRequest "GET" "/workflow-status/job_1" auth (Raise (mkExn "JSONDecodeError" "")).

Definition reserved_request : Request :=
  mkRequest "GET" "/workflow-status/status" None (Raise (mkExn "JSONDecodeError" "")).

Definition description_request : Request :=
  mkRequest "POST" "/generate-workflow-async" None
    (Ok (VDict {[ "description" := VStr "build a lead capture form" ]})).

Definition blank_prompt_request : Request :=
  mkRequest "POST" "/generate-workflow-async" None
    (Ok (VDict {[ "prompt" := VStr "   " ]})).

Definition reprocess_ops : list Operation :=
  [Create create_request; Process job1; Process job1].

(** The store fails the seventh request it receives: the completed write of
    the second processing. *)
Definition env_rewrite_fails : Env :=
  with_store_fault (λ n, if (n =? 6)%nat then Some api_error else None) env0.

(** * The code around the job pipeline *)

(** ** [app/database.py] *)

Section Database.
Context (env : Env).

(** [app/database.py]: [execute_with_retry(action)] wraps [action] with
    [retry_configured()] and calls it. *)
Definition execute_with_retry {A} (action : M A) : M A :=
  let wrapped := retry_configured env action in
  wrapped.

End Database.

(** ** Vocabulary for stripped strings *)

(** [s] does not start with white space. *)
Definition starts_clean (s : string) : Prop := space_width s = 0%nat.

(** [s] does not end with white space. *)
Definition ends_clean (s : string) : Prop := space_width_rev (String.rev s) = 0%nat.

(** [s] neither starts nor ends with white space. *)
Definition trimmed (s : string) : Prop := starts_clean s ∧ ends_clean s.

(** Every character of [s] is white space; [skip] counts the bytes of a
    character still to be passed. *)
Fixpoint blank_go (skip : nat) (s : string) : bool :=
  match s with
  | EmptyString => true
  | String _ s' =>
      match skip with
      | S k => blank_go k s'
      | O =>
          match space_width s with
          | S k => blank_go k s'
          | O => false
          end
      end
  end.
Definition blank (s : string) : bool := blank_go 0 s.

(** U+00A0 (no-break space) and U+2003 (em space), which [strip] removes. *)
Definition nbsp : string := String "194" (String "160" "").
Definition emsp : string := String "226" (String "128" (String "131" "")).

(** ** [generate_workflow]: the synchronous endpoint *)

(** [k in s] for strings: [k] occurs in [s]. *)
Fixpoint contains (k s : string) : bool :=
  String.prefix k s
  || match s with
     | String _ s' => contains k s'
     | EmptyString => false
     end.

(** [k in v] for a string [k]. *)
Definition py_in (k : string) (v : value) : Result bool :=
  match v with
  | VDict d => Ok (bool_decide (is_Some (d !! k)))
  | VList l => Ok (existsb (λ x, eq_str x k) l)
  | VStr s => Ok (contains k s)
  | _ => Raise (mkExn "TypeError" "argument is not iterable")
  end.

(** [v.setdefault(k, x)], for the value left in [v]. *)
Definition py_setdefault (v : value) (k : string) (x : value) : Result value :=
  match v with
  | VDict d => Ok (VDict (match d !! k with Some _ => d | None => <[k := x]> d end))
  | _ => Raise (AttributeError "object has no attribute 'setdefault'")
  end.

(** What [generate_workflow] answers: a JSON response, the bare CORS
    response, or a streamed body given by the chunks sent and the exception
    that cut the stream, if any. *)
Inductive SyncResponse :=
  | Json (payload : value) (status : Z)
  | Cors
  | Streaming (chunks : list value) (failure : option Exn).

Definition phase_chunk (phase : string) (pct : Z) : value :=
  VDict (list_to_map [("current_phase", VStr phase); ("progress_percentage", VInt pct)]).

Definition phases : list value :=
  [phase_chunk "planning" 10; phase_chunk "designing" 40; phase_chunk "generating" 70].

Section SyncEndpoint.
Context (env : Env).
(* isinstance(exc, ValueError) *)
Context (isinstance_ValueError : Exn → bool).

(** The generator [stream()] of [generate_workflow], run to its end. *)
Definition stream (payload : value) : M SyncResponse :=
  λ w,
    match _generate_workflow_payload env payload w with
    | (Raise e, w') => (Ok (Streaming phases (Some e)), w')
    | (Ok result, w') =>
        match py_in "nodes" result with
        | Raise e => (Ok (Streaming phases (Some e)), w')
        | Ok has_nodes =>
            match (if has_nodes then py_in "edges" result else Ok false) with
            | Raise e => (Ok (Streaming phases (Some e)), w')
            | Ok false => (Ok (Streaming (phases ++ [result]) None), w')
            | Ok true =>
                match py_setdefault result "status" (VStr "completed") with
                | Raise e => (Ok (Streaming phases (Some e)), w')
                | Ok result' => (Ok (Streaming (phases ++ [result']) None), w')
                end
            end
        end
    end.

(** [generate_workflow(request)]; [x_stream_progress] is
    [request.headers.get("x-stream-progress")]. *)
Definition generate_workflow (request : Request) (x_stream_progress : option string)
    : M SyncResponse :=
  if bool_decide (method request = "OPTIONS") then ret Cors else
  match json_body request with
  | Raise exc =>
      ret (Json (VDict {[ "error" := VStr "Invalid JSON in request body";
                          "details" := VStr (str_exc exc) ]}) 400)
  | Ok payload =>
      if bool_decide (x_stream_progress = Some "true") then stream payload
      else
        λ w, match _generate_workflow_payload env payload w with
             | (Ok result, w') => (Ok (Json result 200), w')
             | (Raise exc, w') =>
                 if isinstance_ValueError exc
                 then (Ok (Json (VDict {[ "error" := VStr (str_exc exc) ]}) 400), w')
                 else (Ok (Json (VDict {[ "error" := VStr (str_exc exc) ]}) 500), w')
             end
  end.

End SyncEndpoint.

(** The system prompt [_generate_workflow_payload] sends for a template. *)
Definition system_prompt_of (template : string) : string :=
  if bool_decide (template = "")
  then "Return JSON with keys: nodes, edges, explanation."
  else template.

Definition fallback_warning (e : Exn) : LogRecord :=
  mkLog "WARNING" "Workflow generation fallback" [("error", str_exc e)].

(** ** Frames

    [keeps R m]: whatever [m] does to the world, and whether it returns or
    raises, the world it leaves is related by [R] to the one it started in. *)
Definition keeps {A} (R : relation World) (m : M A) : Prop :=
  ∀ w, R w (snd (m w)).

(** The columns [process_job] writes. *)
Definition managed_fields : list string :=
  ["status"; "progress_percentage"; "started_at"; "workflow_result";
   "finished_at"; "error_message"].

(** What processing job [j] leaves alone: the set of rows, every other row,
    the other columns of its own row, the queue's control state and the
    random-number stream. *)
Definition job_frame (j : string) (w w' : World) : Prop :=
  dom (jobs w') = dom (jobs w)
  ∧ (∀ j', j' ≠ j → jobs w' !! j' = jobs w !! j')
  ∧ (∀ k, k ∉ managed_fields →
          (jobs w' !! j) ≫= (.!! k) = (jobs w !! j) ≫= (.!! k))
  ∧ stop_event w' = stop_event w ∧ tasks_done w' = tasks_done w
  ∧ rand_calls w' = rand_calls w.

(** ** The queue ([app/background/task_queue.py], [app/background/worker_pool.py]) *)




(** ** Vocabulary of the worker's runs *)



(** A request to the store about job [j]'s row. *)
Definition concerns (j : string) (r : StoreRequest) : Prop :=
  match req_op r with
  | Select id => id = j
  | Update id _ => id = j
  | Insert _ => False
  end.


(** The store log grows by requests about [j]. *)
Definition sends_about (j : string) (w w' : World) : Prop :=
  ∃ reqs, store_log w' = store_log w ++ reqs ∧ Forall (concerns j) reqs.

(** ** Vocabulary of the handlers' effects *)

(** What a handler leaves alone when it neither calls the model, logs,
    sleeps nor touches the queue. *)
Definition quiet (w w' : World) : Prop :=
  ollama_calls w' = ollama_calls w ∧ logs w' = logs w ∧ sleeps w' = sleeps w
  ∧ stop_event w' = stop_event w ∧ tasks_done w' = tasks_done w.

(** The 200 answer for a job that is still queued. *)
Definition queued_view (j : string) (r : Result Response) : Prop :=
  ∃ view, r = Ok (mkResponse 200 (Some view))
          ∧ view !! "job_id" = Some (VStr j)
          ∧ view !! "status" = Some (VStr "queued")
          ∧ view !! "progress_percentage" = Some (VInt 0)
          ∧ view !! "workflow" = None ∧ view !! "error" = None.

Definition create_as (auth : option string) : Request :=
  mkRequest "POST" "/generate-workflow-async" auth
    (Ok (VDict {[ "prompt" := VStr "build a lead capture form" ]})).

(** ** [app/utils/errors.py] *)

(** [fastapi.HTTPException]: its status code and its [detail]. *)
Record HTTPException := mkHTTPException {
  exc_status_code : Z;
  exc_detail : gmap string value
}.

Definition http_error (status_code : Z) (message : string) (details : option value)
    : HTTPException :=
  let payload : gmap string value := {[ "error" := VStr message ]} in
  let payload :=
    match details with
    | Some d => <["details" := d]> payload
    | None => payload
    end in
  mkHTTPException status_code payload.

(** ** [app/utils/permissions.py] *)

Definition is_admin (roles : list value) : bool :=
  existsb (λ role, eq_str role "admin") roles.

Definition is_service_role (roles : list value) : bool :=
  existsb (λ role, eq_str role "service") roles.

(** ** Authentication ([app/utils/jwt.py], [app/auth.py], [app/dependencies.py]) *)

(** The fields of [Settings] that authentication reads. *)
Record AuthSettings := mkAuthSettings {
  supabase_service_role_key : string;
  supabase_jwt_public_key : option string;
  supabase_jwt_secret : option string
}.

Record AuthEnv := mkAuthEnv {
  auth_settings : AuthSettings;
  (* jwt.decode(token, key, algorithms=[alg], options={"verify_aud": False}) *)
  jwt_decode : string → string → string → Result (gmap string value);
  (* table("profiles").select("*").eq("user_id", id).single().execute().data *)
  profiles_single : value → Result (option (gmap string value));
  (* table("user_roles").select("role").eq("user_id", id).execute().data *)
  user_roles_select : value → Result (option (list (gmap string value)));
  (* how a log record shows the value of an extra field *)
  log_field : value → string
}.

Record UserContext := mkUserContext {
  user_id : value;
  email : value;
  roles : list value;
  profile : option (gmap string value)
}.

(** What a dependency or a route gives: a value, or an [HTTPException] that
    FastAPI turns into the error response, or another exception. *)
Inductive Outcome (A : Type) :=
  | Return (a : A)
  | HTTPError (e : HTTPException)
  | Unhandled (e : Exn).
Arguments Return {A} a.
Arguments HTTPError {A} e.
Arguments Unhandled {A} e.

Definition newline : string := String "010" "".

(** [not s] for an optional string. *)
Definition not_str (s : option string) : bool :=
  match s with
  | Some s => bool_decide (s = "")
  | None => true
  end.

Section Authentication.
Context (aenv : AuthEnv).

Definition _normalize_public_key (public_key : option string) : option string :=
  match public_key with
  | None => None
  | Some key =>
      if bool_decide (key = "") then None
      else if contains "BEGIN PUBLIC KEY" key then Some key
      else Some ("-----BEGIN PUBLIC KEY-----" +:+ newline +:+ key +:+ newline
                 +:+ "-----END PUBLIC KEY-----")
  end.

Definition decode_jwt (token : string) : Result (gmap string value) :=
  let public_key := _normalize_public_key (supabase_jwt_public_key (auth_settings aenv)) in
  if negb (not_str public_key)
  then jwt_decode aenv token (default "" public_key) "RS256"
  else if negb (not_str (supabase_jwt_secret (auth_settings aenv)))
  then jwt_decode aenv token (default "" (supabase_jwt_secret (auth_settings aenv))) "HS256"
  else Raise (ValueError "Supabase JWT key not configured. Set either SUPABASE_JWT_PUBLIC_KEY or SUPABASE_JWT_SECRET in .env").

Definition get_user_from_token (token : string) : M UserContext :=
  let! payload := lift_result (decode_jwt token) in
  let user_id := dict_get payload "sub" in
  let email := dict_get payload "email" in
  if negb (truthy user_id) then raise (ValueError "Invalid token payload") else
  let! profile :=
    try_except
      (lift_result (profiles_single aenv user_id))
      (λ exc,
       run! logger_warning "Failed to load profile"
              [("user_id", log_field aenv user_id); ("error", str_exc exc)] in
       ret None) in
  let! roles :=
    try_except
      (let! data := lift_result (user_roles_select aenv user_id) in
       ret (omap (λ row : gmap string value, row !! "role") (default [] data)))
      (λ exc,
       run! logger_warning "Failed to load roles"
              [("user_id", log_field aenv user_id); ("error", str_exc exc)] in
       ret []) in
  ret (mkUserContext user_id email roles profile).

Definition _extract_token (authorization : option string) : Outcome string :=
  if not_str authorization then HTTPError (http_error 401 "Unauthorized" None) else
  let token :=
    strip (replace "bearer " "" (replace "Bearer " "" (default "" authorization))) in
  if bool_decide (token = "") then HTTPError (http_error 401 "Unauthorized" None)
  else Return token.

Definition get_current_user (authorization : option string)
    : World → Outcome UserContext * World :=
  λ w,
    match _extract_token authorization with
    | Return token =>
        match get_user_from_token token w with
        | (Ok user, w') => (Return user, w')
        | (Raise exc, w') =>
            (HTTPError (http_error 401 "Unauthorized" (Some (VStr (str_exc exc)))), w')
        end
    | HTTPError e => (HTTPError e, w)
    | Unhandled e => (Unhandled e, w)
    end.

Definition get_optional_user (authorization : option string)
    : World → Outcome (option UserContext) * World :=
  λ w,
    if not_str authorization then (Return None, w) else
    let token :=
      strip (replace "bearer " "" (replace "Bearer " "" (default "" authorization))) in
    if bool_decide (token = "") then (Return None, w) else
    match get_user_from_token token w with
    | (Ok user, w') => (Return (Some user), w')
    | (Raise exc, w') =>
        (HTTPError (http_error 401 "Unauthorized" (Some (VStr (str_exc exc)))), w')
    end.

(** [require_admin(user)], for the user [get_current_user] gave. *)
Definition require_admin (user : UserContext) : Outcome UserContext :=
  if negb (is_admin (roles user)) then HTTPError (http_error 403 "Admin access required" None)
  else Return user.

Definition require_service_role (x_service_role_key authorization : option string)
    : Outcome unit :=
  let candidate := x_service_role_key in
  let candidate :=
    if not_str candidate && negb (not_str authorization)
    then Some (strip (replace "bearer " "" (replace "Bearer " ""
                                              (default "" authorization))))
    else candidate in
  if not_str candidate
     || negb (bool_decide (candidate = Some (supabase_service_role_key (auth_settings aenv))))
  then HTTPError (http_error 403 "Service role required" None)
  else Return tt.

(** A route: FastAPI resolves the dependency, and calls the handler when the
    dependency did not raise. *)
Definition route {U} (dependency : World → Outcome U * World) (handler : M Response)
    : World → Outcome Response * World :=
  λ w,
    match dependency w with
    | (Return _, w') =>
        match handler w' with
        | (Ok response, w'') => (Return response, w'')
        | (Raise exc, w'') => (Unhandled exc, w'')
        end
    | (HTTPError e, w') => (HTTPError e, w')
    | (Unhandled e, w') => (Unhandled e, w')
    end.

End Authentication.

(** ** [app/routers/workflows.py], [app/routers/jobs.py] *)
Module routers.
Section Routes.
Context (env : Env) (aenv : AuthEnv).

Definition generate_workflow_async_route (request : Request)
    : World → Outcome Response * World :=
  route (get_optional_user aenv (authorization request))
        (generate_workflow_async env request).

Definition workflow_status_route (request : Request) : World → Outcome Response * World :=
  route (get_optional_user aenv (authorization request))
        (workflow_status env request None).

End Routes.
End routers.

(** ** [app/api/v1/workflow.py] *)
Module api_v1.
Section Routes.
Context (env : Env) (aenv : AuthEnv).

Definition generate_workflow_async_route (request : Request)
    : World → Outcome Response * World :=
  route (get_current_user aenv (authorization request))
        (generate_workflow_async env request).

Definition workflow_status_route (request : Request) (job_id : string)
    : World → Outcome Response * World :=
  route (get_current_user aenv (authorization request))
        (workflow_status env request (Some job_id)).

End Routes.
End api_v1.

(** [get_optional_user]'s view of what [get_current_user] gives. *)
Definition as_optional (r : Outcome UserContext) : Outcome (option UserContext) :=
  match r with
  | Return user => Return (Some user)
  | HTTPError e => HTTPError e
  | Unhandled e => Unhandled e
  end.

(** What a handler's own result looks like from outside the route. *)
Definition handled (r : Result Response * World) : Outcome Response * World :=
  match r with
  | (Ok response, w) => (Return response, w)
  | (Raise exc, w) => (Unhandled exc, w)
  end.

(** The token an Authorization header carries. *)
Definition bearer_token (authorization : string) : string :=
  strip (replace "bearer " "" (replace "Bearer " "" authorization)).

(** An identity provider for tests: the token is the user's name, signed
    with the configured secret; nobody has a profile, and only [root] has
    the admin role. *)
Definition aenv0 : AuthEnv := {|
  auth_settings := mkAuthSettings "service-key" None (Some "secret");
  jwt_decode := λ token key alg,
    if bool_decide (token = "forged") then Raise (mkExn "InvalidSignatureError" "Signature verification failed")
    else Ok {[ "sub" := VStr token ]};
  profiles_single := λ _, Raise (mkExn "APIError" "no rows");
  user_roles_select := λ id,
    if eq_str id "root" then Ok (Some [{[ "role" := VStr "admin" ]}]) else Ok None;
  log_field := λ v, match v with VStr s => s | _ => "" end
|}.

(** ** More concrete requests *)

Definition unicode_blank_prompt_request : Request :=
  mkRequest "POST" "/generate-workflow-async" None
    (Ok (VDict {[ "prompt" := VStr (nbsp +:+ emsp) ]})).

Definition blank_sync_request : Request :=
  mkRequest "POST" "/generate-workflow" None (Ok (VDict {[ "prompt" := VStr "" ]})).

Definition is_value_error (e : Exn) : bool := bool_decide (exc_type e = "ValueError").

(** * Properties *)

(** ** The retry policy *)

Section Retry.
Context (env : Env).

Local Abbreviation loop m wait :=
  (retry_loop retry_if_exception_type_Exception (stop_after_attempt m) wait).

(** With at least [max_attempt_number - attempt_number] units, the fuel
    plays no part: the loop ends on a result or on [stop]. *)
Lemma retry_loop_fuel {A} (fn : M A) wait m :
  ∀ fuel1 fuel2 n w,
    (Z.to_nat (m - n) <= fuel1)%nat → (Z.to_nat (m - n) <= fuel2)%nat →
    loop m wait fuel1 n fn w = loop m wait fuel2 n fn w.
Proof.
  induction fuel1 as [|f1 IH]; intros fuel2 n w H1 H2.
  - destruct fuel2 as [|f2]; [done|]. simpl.
    destruct (fn w) as [[a|e] w1]; [done|]. simpl.
    destruct (stop_after_attempt m n) eqn:Hs; [done|].
    apply Z.leb_gt in Hs. lia.
  - destruct fuel2 as [|f2]; simpl.
    + destruct (fn w) as [[a|e] w1]; [done|]. simpl.
      destruct (stop_after_attempt m n) eqn:Hs; [done|].
      apply Z.leb_gt in Hs. lia.
    + destruct (fn w) as [[a|e] w1]; [done|]. simpl.
      destruct (stop_after_attempt m n) eqn:Hs; [done|].
      apply Z.leb_gt in Hs. apply IH; lia.
Qed.

(** [k] failures followed by a success: the loop returns the success at
    attempt [n + k]. *)
Lemma retry_loop_succeeds {A} (fn : M A) wait m :
  ∀ (k fuel : nat) n w v,
    (k <= fuel)%nat → n + Z.of_nat k <= m ∨ k = 0%nat →
    (∀ i, (i < k)%nat → ∃ e, fst (fn (attempt_world wait fn n i w)) = Raise e) →
    fst (fn (attempt_world wait fn n k w)) = Ok v →
    loop m wait fuel n fn w
    = (Ok v, n + Z.of_nat k, snd (fn (attempt_world wait fn n k w))).
Proof.
  induction k as [|k IH]; intros fuel n w v Hfuel Hm Hfail Hok.
  - simpl in *. destruct fuel; simpl; destruct (fn w) as [[a|e] w1]; simpl in *;
      simplify_eq; by rewrite Z.add_0_r.
  - destruct (Hfail 0%nat ltac:(lia)) as [e He]. simpl in He.
    destruct fuel as [|fuel]; [lia|]. simpl.
    destruct (fn w) as [r w1] eqn:Hfn. simpl in He. subst r. simpl.
    destruct (stop_after_attempt m n) eqn:Hs.
    { apply Z.leb_le in Hs. lia. }
    rewrite (IH fuel (n + 1) (add_sleep (wait n) w1) v).
    + replace (n + Z.of_nat (S k)) with (n + 1 + Z.of_nat k) by lia.
      simpl. by rewrite ?Hfn.
    + lia.
    + destruct k; [by right|left; lia].
    + intros i Hi. destruct (Hfail (S i) ltac:(lia)) as [e' He']. simpl in He'.
      rewrite Hfn in He'. eauto.
    + simpl in Hok. by rewrite Hfn in Hok.
Qed.

(** Failures up to the last permitted attempt: the loop re-raises what the
    last invocation raised. *)
Lemma retry_loop_exhausts {A} (fn : M A) wait m :
  ∀ (k fuel : nat) n w,
    k = Z.to_nat (m - n) → (k <= fuel)%nat →
    (∀ i, (i <= k)%nat → ∃ e, fst (fn (attempt_world wait fn n i w)) = Raise e) →
    loop m wait fuel n fn w
    = (fst (fn (attempt_world wait fn n k w)), n + Z.of_nat k,
       snd (fn (attempt_world wait fn n k w))).
Proof.
  induction k as [|k IH]; intros fuel n w Hk Hfuel Hfail.
  - destruct (Hfail 0%nat ltac:(lia)) as [e He]. simpl in *.
    assert (stop_after_attempt m n = true) as Hs by (apply Z.leb_le; lia).
    destruct fuel; simpl; destruct (fn w) as [r w1]; simpl in *; subst r;
      simpl; rewrite Hs, Z.add_0_r; done.
  - destruct (Hfail 0%nat ltac:(lia)) as [e He]. simpl in He.
    destruct fuel as [|fuel]; [lia|]. simpl.
    destruct (fn w) as [r w1] eqn:Hfn. simpl in He. subst r. simpl.
    destruct (stop_after_attempt m n) eqn:Hs.
    { apply Z.leb_le in Hs. lia. }
    rewrite (IH fuel (n + 1) (add_sleep (wait n) w1)).
    + replace (n + Z.of_nat (S k)) with (n + 1 + Z.of_nat k) by lia.
      simpl. by rewrite ?Hfn.
    + lia.
    + lia.
    + intros i Hi. destruct (Hfail (S i) ltac:(lia)) as [e' He']. simpl in He'.
      rewrite Hfn in He'. eauto.
Qed.

Lemma two_pow_ge_1 n : 1 <= n → (1 <= inject_Z (2 ^ (n - 1)))%Q.
Proof.
  intros Hn. change 1%Q with (inject_Z 1). rewrite <- Zle_Qle.
  assert (0 < 2 ^ (n - 1)) by (apply Z.pow_pos_nonneg; lia). lia.
Qed.

Lemma wait_exponential_default n :
  1 <= n → (wait_exponential 1 20 n == spec_backoff 1 20 n)%Q.
Proof.
  intros Hn. unfold wait_exponential, spec_backoff.
  rewrite Z.mul_1_l, Qmult_1_l.
  pose proof (two_pow_ge_1 n Hn) as Hx.
  change (Qmax 0 1) with 1%Q.
  rewrite Q.min_comm. apply Q.max_r.
  apply Q.min_glb; [done|]. by compute.
Qed.

End Retry.

(** ** Retried calls *)

Section RetryClaims.
Context (env : Env).

(** C4 (as amended).  The retry policy around any fallible action [fn]:
    if the first [k] invocations raise and invocation [k+1] returns [v], with
    [k < max_retries], the wrapped call returns [v] at attempt number [k+1];
    if every invocation raises, the wrapped call re-raises, unchanged, the
    exception of invocation number [max 1 max_retries], which is the attempt
    number at exit. *)
Theorem retry_configured_attempts {A} (fn : M A) (w : World) :
  let m := max_retries (settings env) in
  (∀ (k : nat) (v : A),
      Z.of_nat k < m →
      (∀ i, (i < k)%nat → ∃ e, fst (fn (invocation_world env fn i w)) = Raise e) →
      fst (fn (invocation_world env fn k w)) = Ok v →
      retrying env fn w
        = (Ok v, Z.of_nat k + 1, snd (fn (invocation_world env fn k w)))
      ∧ fst (retry_configured env fn w) = Ok v)
  ∧ ((∀ i, ∃ e, fst (fn (invocation_world env fn i w)) = Raise e) →
      let last := Z.to_nat (Z.max 1 m - 1) in
      ∃ e, fst (fn (invocation_world env fn last w)) = Raise e
           ∧ retrying env fn w
               = (Raise e, Z.max 1 m, snd (fn (invocation_world env fn last w)))
           ∧ fst (retry_configured env fn w) = Raise e).
Proof.
  intros m. split.
  - intros k v Hk Hfail Hok.
    assert (retrying env fn w
            = (Ok v, Z.of_nat k + 1, snd (fn (invocation_world env fn k w)))) as Hrun.
    { unfold retrying. fold m.
      rewrite (retry_loop_succeeds fn (retry_wait env) m k _ 1 w v); try done.
      - f_equal. f_equal. lia.
      - lia.
      - left. lia. }
    split; [done|]. unfold retry_configured. by rewrite Hrun.
  - intros Hfail last.
    destruct (Hfail last) as [e He]. exists e. split; [done|].
    assert (retrying env fn w
            = (Raise e, Z.max 1 m, snd (fn (invocation_world env fn last w)))) as Hrun.
    { unfold retrying. fold m.
      rewrite (retry_loop_exhausts fn (retry_wait env) m last _ 1 w).
      - unfold invocation_world in He. rewrite He. f_equal. f_equal. lia.
      - lia.
      - lia.
      - intros i _. apply Hfail. }
    split; [done|]. unfold retry_configured. by rewrite Hrun.
Qed.
End RetryClaims.

Lemma retry_configured_attempts_witness :
  fst (retry_configured env0 flaky w0) = Ok 7
  ∧ ∃ e, fst (retry_configured env0 (raise (A:=Z) boom) w0) = Raise e.
Proof.
  pose proof (retry_configured_attempts env0 flaky w0) as [Hs _].
  pose proof (retry_configured_attempts env0 (raise (A:=Z) boom) w0) as [_ Hf].
  split.
  - apply (Hs 2%nat 7); [reflexivity| |reflexivity].
    intros [|[|i]] Hi; [by exists boom..|lia].
  - destruct Hf as (e & He & _ & Hr).
    + intros i. by exists boom.
    + exists e. exact Hr.
Defined.

(** With [max_retries = 0] an action that always fails is still invoked
    once. *)
Lemma retry_zero_attempts_counterexample :
  max_retries (settings env_no_retries) = 0
  ∧ retrying env_no_retries (raise (A:=unit) boom) w0 = (Raise boom, 1, w0).
Proof. split; reflexivity. Qed.

Section BackoffClaims.
Context (env : Env).

(** C5 (as amended).  When attempt [n >= 1] fails with attempts remaining,
    the loop sleeps [max(max(0, base), min(2^(n-1), maxDelay))] and starts
    attempt [n+1]; with the default bounds 1 and 20 this delay is the
    specification's [min(20, 1 * 2^(n-1))]. *)
Theorem retry_backoff_delay {A} (fn : M A) (w w1 : World) (e : Exn) (n : Z) (fuel : nat) :
  1 <= n → n < max_retries (settings env) → fn w = (Raise e, w1) →
  let base := retry_base_seconds (settings env) in
  let maxd := retry_max_seconds (settings env) in
  let delay := Qmax (Qmax 0 base) (Qmin (inject_Z (2 ^ (n - 1))) maxd) in
  retry_loop retry_if_exception_type_Exception
      (stop_after_attempt (max_retries (settings env))) (retry_wait env)
      (S fuel) n fn w
  = retry_loop retry_if_exception_type_Exception
      (stop_after_attempt (max_retries (settings env))) (retry_wait env)
      fuel (n + 1) fn (add_sleep delay w1)
  ∧ (base = 1%Q → maxd = 20%Q → (delay == spec_backoff 1 20 n)%Q).
Proof.
  intros Hn Hm Hfn base maxd delay. split.
  - simpl. rewrite Hfn. simpl.
    assert (stop_after_attempt (max_retries (settings env)) n = false) as ->
      by (apply Z.leb_gt; lia).
    unfold retry_wait, wait_exponential. by rewrite Z.mul_1_l.
  - intros Hb Hx. unfold delay. rewrite Hb, Hx.
    rewrite <- (wait_exponential_default n Hn).
    unfold wait_exponential. by rewrite Z.mul_1_l.
Qed.
End BackoffClaims.

Lemma retry_backoff_delay_witness :
  retry_loop retry_if_exception_type_Exception
      (stop_after_attempt 3) (retry_wait env0) 3 2 (raise (A:=unit) boom) w0
  = retry_loop retry_if_exception_type_Exception
      (stop_after_attempt 3) (retry_wait env0) 2 3 (raise boom) (add_sleep 2 w0)
  ∧ (2 == spec_backoff 1 20 2)%Q.
Proof.
  destruct (retry_backoff_delay env0 (raise (A:=unit) boom) w0 w0 boom 2 2)
    as [H1 H2]; [lia|reflexivity|reflexivity|].
  split; [exact H1|]. apply H2; reflexivity.
Defined.

(** With [retry_base_seconds = 3] the delay after the second failure is 3,
    not [min(20, 3 * 2)]. *)
Lemma backoff_base_counterexample :
  sleeps (snd (retry_configured env_base3 (raise (A:=unit) boom) w0)) = [3%Q; 3%Q]
  ∧ ¬ (3 == spec_backoff 3 20 2)%Q.
Proof. split; [reflexivity|]. by compute. Qed.

(** The default delays: 1, 2, 4, 8, 16 and then 20. *)
Lemma default_delays :
  sleeps (snd (retry_configured
     (with_settings {| max_retries := 8; retry_base_seconds := 1; retry_max_seconds := 20 |} env0)
     (raise (A:=unit) boom) w0))
  = [1; 2; 4; 8; 16; 20; 20]%Q.
Proof. reflexivity. Qed.

(** ** Processing a job *)

Section Store.
Context (env : Env).

Lemma store_request_served {A} op (serve : M A) w a w' :
  store_fault env (length (store_log w)) = None → serve w = (Ok a, w') →
  store_request env op serve w = (Ok a, add_request (mkReq op true) w').
Proof. intros Hf Hs. unfold store_request. by rewrite Hf, Hs. Qed.

Lemma store_request_fault {A} op (serve : M A) w e :
  store_fault env (length (store_log w)) = Some e →
  store_request env op serve w = (Raise e, add_request (mkReq op false) w).
Proof. intros Hf. unfold store_request. by rewrite Hf. Qed.

Lemma store_get_cases j w :
  (∃ e, store_fault env (length (store_log w)) = Some e
        ∧ store_get env j w = (Raise e, add_request (mkReq (Select j) false) w))
  ∨ (store_fault env (length (store_log w)) = None
     ∧ store_get env j w = (Ok (jobs w !! j), add_request (mkReq (Select j) true) w)).
Proof.
  unfold store_get, store_request.
  destruct (store_fault env (length (store_log w))) as [e|]; [left|right]; eauto.
Qed.

Lemma store_update_cases j fields w :
  (∃ e, store_fault env (length (store_log w)) = Some e
        ∧ store_update env j fields w
          = (Raise e, add_request (mkReq (Update j fields) false) w))
  ∨ (store_fault env (length (store_log w)) = None
     ∧ store_update env j fields w
       = (Ok tt, add_request (mkReq (Update j fields) true)
                   (set_jobs (alter (λ row, fields ∪ row) j) w))).
Proof.
  unfold store_update, store_request.
  destruct (store_fault env (length (store_log w))) as [e|]; [left|right]; eauto.
Qed.

(** One attempt on an absent job: a single lookup, then an exception. *)
Lemma process_job_attempt_absent j w :
  jobs w !! j = None →
  ∃ e served,
    process_job_attempt env j w
      = (Raise e, add_request (mkReq (Select j) served) w)
    ∧ (store_fault env (length (store_log w)) = None →
       e = ValueError ("Job not found: " +:+ j) ∧ served = true).
Proof.
  intros Habs. unfold process_job_attempt, bind.
  destruct (store_get_cases j w) as [(e & Hf & ->)|[Hf ->]].
  - exists e, false. split; [done|]. intros ?; congruence.
  - rewrite Habs. simpl. eexists _, true. split; [done|]. done.
Qed.

Lemma process_job_absent_loop j :
  ∀ (k fuel : nat) n w,
    k = Z.to_nat (max_retries (settings env) - n) → (k <= fuel)%nat →
    jobs w !! j = None →
    ∃ e w' reqs,
      retry_loop retry_if_exception_type_Exception
        (stop_after_attempt (max_retries (settings env))) (retry_wait env)
        fuel n (process_job_attempt env j) w = (Raise e, n + Z.of_nat k, w')
      ∧ jobs w' = jobs w
      ∧ store_log w' = store_log w ++ reqs
      ∧ length reqs = S k
      ∧ Forall (λ r, req_op r = Select j) reqs
      ∧ sleeps w' = sleeps w ++ (retry_wait env <$> seqZ n (Z.of_nat k))
      ∧ logs w' = logs w
      ∧ stop_event w' = stop_event w
      ∧ tasks_done w' = tasks_done w
      ∧ ((∀ i, store_fault env i = None) →
         e = ValueError ("Job not found: " +:+ j)
         ∧ Forall (λ r, req_served r = true) reqs).
Proof.
  induction k as [|k IH]; intros fuel n w Hk Hfuel Habs.
  - destruct (process_job_attempt_absent j w Habs) as (e & b & Hrun & Hok).
    assert (stop_after_attempt (max_retries (settings env)) n = true) as Hs
      by (apply Z.leb_le; lia).
    exists e, (add_request (mkReq (Select j) b) w), [mkReq (Select j) b].
    split.
    { destruct fuel; simpl; rewrite Hrun; simpl; rewrite Hs, Z.add_0_r; done. }
    simpl. rewrite app_nil_r. split_and!; auto.
    intros Hnf. split.
    + by apply Hok.
    + destruct (Hok (Hnf _)) as [_ ->]. by repeat constructor.
  - destruct (process_job_attempt_absent j w Habs) as (e & b & Hrun & Hok).
    destruct fuel as [|fuel]; [lia|].
    assert (stop_after_attempt (max_retries (settings env)) n = false) as Hs
      by (apply Z.leb_gt; lia).
    set (w1 := add_sleep (retry_wait env n) (add_request (mkReq (Select j) b) w)).
    destruct (IH fuel (n + 1) w1) as (e' & w' & reqs & Hloop & Hj & Hl & Hlen & Hops
                                       & Hsl & Hlg & Hst & Htd & Hnf); [lia|lia|done|].
    exists e', w', (mkReq (Select j) b :: reqs). split.
    { simpl. rewrite Hrun. simpl. rewrite Hs. fold w1. rewrite Hloop.
      do 2 f_equal. lia. }
    split_and!; auto.
    + rewrite Hl. simpl. by rewrite <- app_assoc.
    + simpl. by rewrite Hlen.
    + rewrite Hsl. simpl. rewrite <- app_assoc. f_equal.
      rewrite (seqZ_cons n) by lia. simpl. do 2 f_equal. f_equal; lia.
    + intros H. split; [by apply Hnf|].
      constructor; [by destruct (Hok (H _)) as [_ ->]|by apply Hnf].
Qed.
End Store.

Section Worker.
Context (env : Env).

Lemma worker_loop_step idx (job : JobCallable) queue w :
  stop_event w = false →
  _worker_loop idx (job :: queue) w
  = match job w with
    | (Ok _, w1) => _worker_loop idx queue (tick_done w1)
    | (Raise e, w1) =>
        _worker_loop idx queue (tick_done (add_log (task_failed_record idx e) w1))
    end.
Proof.
  intros Hs. simpl. rewrite Hs.
  unfold bind, try_finally, try_except, logger_exception, modify.
  destruct (job w) as [[[]|e] w1]; simpl; done.
Qed.



(** C3 (as amended).  Processing a job id that is absent from the store
    fails: every attempt sends one lookup and raises; the retry policy retries
    it like any other error, so [max 1 max_retries] lookups are sent, with the
    back-off sleeps in between and the table untouched; the exception then
    reaches the worker loop, which logs it and goes on with the next task.
    When the store serves the lookups the exception is the not-found
    [ValueError]. *)
Theorem process_job_absent j w :
  jobs w !! j = None →
  let attempts := Z.max 1 (max_retries (settings env)) in
  ∃ e w' reqs,
    retrying env (process_job_attempt env j) w = (Raise e, attempts, w')
    ∧ process_job env j w = (Raise e, w')
    ∧ jobs w' = jobs w
    ∧ store_log w' = store_log w ++ reqs
    ∧ Z.of_nat (length reqs) = attempts
    ∧ Forall (λ r, req_op r = Select j) reqs
    ∧ sleeps w' = sleeps w ++ (retry_wait env <$> seqZ 1 (attempts - 1))
    ∧ ((∀ i, store_fault env i = None) →
       e = ValueError ("Job not found: " +:+ j)
       ∧ Forall (λ r, req_served r = true) reqs)
    ∧ ∀ idx queue,
        stop_event w = false →
        _worker_loop idx (process_job_task env j :: queue) w
        = _worker_loop idx queue
            (tick_done (add_log (task_failed_record idx e) w')).
Proof.
  intros Habs attempts.
  set (k := Z.to_nat (max_retries (settings env) - 1)).
  destruct (process_job_absent_loop env j k (Z.to_nat (max_retries (settings env))) 1 w)
    as (e & w' & reqs & Hloop & Hj & Hl & Hlen & Hops & Hsl & Hlg & Hst & Htd & Hnf);
    [done|lia|done|].
  assert (1 + Z.of_nat k = attempts) as Hk by (unfold attempts, k; lia).
  rewrite Hk in Hloop.
  assert (process_job env j w = (Raise e, w')) as Hrun.
  { unfold process_job, retry_configured, retrying. by rewrite Hloop. }
  exists e, w', reqs. split_and!; auto.
  - rewrite Hlen. lia.
  - rewrite Hsl. do 3 f_equal. lia.
  - intros idx queue Hs. rewrite worker_loop_step by done.
    unfold process_job_task. by rewrite Hrun.
Qed.
End Worker.

Lemma process_job_absent_witness :
  ∃ w', process_job env0 "job_404" w0 = (Raise (ValueError "Job not found: job_404"), w')
        ∧ length (store_log w') = 3%nat.
Proof.
  destruct (process_job_absent env0 "job_404" w0)
    as (e & w' & reqs & _ & Hrun & _ & Hl & Hlen & _ & _ & Hnf & _); [reflexivity|].
  destruct Hnf as [-> _]; [done|].
  exists w'. split; [exact Hrun|]. rewrite Hl. simpl in *. lia.
Defined.

(** With the default settings the lookup of an absent job is sent three
    times. *)
Lemma lookup_retried_counterexample :
  store_log (snd (process_job env0 "job_404" w0))
  = [mkReq (Select "job_404") true; mkReq (Select "job_404") true;
     mkReq (Select "job_404") true]
  ∧ sleeps (snd (process_job env0 "job_404" w0)) = [1%Q; 2%Q].
Proof. split; reflexivity. Qed.


Section Process.
Context (env : Env).

Lemma truthy_row_Some data job :
  truthy_row data = Some job → data = Some job ∧ size job ≠ 0%nat.
Proof.
  unfold truthy_row. destruct data as [row|]; [|done].
  case_bool_decide; [done|]. by intros [= ->].
Qed.

Lemma generate_frame payload w r w' :
  _generate_workflow_payload env payload w = (r, w') →
  jobs w' = jobs w ∧ store_log w' = store_log w ∧ clock_reads w' = clock_reads w
  ∧ rand_calls w' = rand_calls w ∧ sleeps w' = sleeps w
  ∧ stop_event w' = stop_event w ∧ tasks_done w' = tasks_done w.
Proof.
  unfold _generate_workflow_payload, bind, lift_result, try_except, _call_ollama,
    logger_warning, modify, ret, raise.
  destruct (_extract_prompt payload) as [prompt|e]; [|by intros [= <- <-]].
  case_bool_decide; [by intros [= <- <-]|].
  destruct (get_node_reference env) as [guide|e]; [|by intros [= <- <-]].
  destruct (get_prompt_template env _ _) as [tpl|e]; [|by intros [= <- <-]].
  destruct (ollama_chat env _ _ _) as [content|e]; simpl.
  - rewrite lookup_singleton_eq. simpl.
    case_bool_decide; [by intros [= <- <-]|].
    destruct (json_loads env _); by intros [= <- <-].
  - by intros [= <- <-].
Qed.

(** What an attempt does once the job is found and recorded as running. *)
Lemma process_job_attempt_running j w job :
  truthy_row (jobs w !! j) = Some job →
  store_fault env (length (store_log w)) = None →
  store_fault env (S (length (store_log w))) = None →
  process_job_attempt env j w
  = try_except
      (let! result := _generate_workflow_payload env (job_payload job) in
       record_success env j result)
      (record_failure env j) (running_world env j w).
Proof.
  intros Hjob F0 F1. unfold process_job_attempt.
  unfold bind at 1. unfold store_get, store_request. rewrite F0. simpl.
  rewrite Hjob. unfold bind at 1. unfold utc_now_iso, utc_now, bind at 1, ret. simpl.
  unfold bind at 1. unfold store_update at 1, store_request. simpl.
  rewrite length_app. simpl. rewrite Nat.add_1_r, F1. simpl.
  reflexivity.
Qed.
End Process.

Section Process2.
Context (env : Env).

Lemma dict_get_union_l (fields row : gmap string value) k v :
  fields !! k = Some v → dict_get (fields ∪ row) k = v.
Proof. intros H. unfold dict_get. by rewrite lookup_union_l', H by eauto. Qed.

Lemma dict_get_union_r (fields row : gmap string value) k :
  fields !! k = None → dict_get (fields ∪ row) k = dict_get row k.
Proof. intros H. unfold dict_get. by rewrite lookup_union_r. Qed.

Lemma retry_loop_returns {A} (fn : M A) retry_on stop wait fuel n w a w1 :
  fn w = (Ok a, w1) →
  retry_loop retry_on stop wait fuel n fn w = (Ok a, n, w1).
Proof. intros H. destruct fuel; simpl; by rewrite H. Qed.

Lemma process_job_returns j w w' :
  process_job_attempt env j w = (Ok tt, w') →
  retrying env (process_job_attempt env j) w = (Ok tt, 1, w')
  ∧ process_job env j w = (Ok tt, w').
Proof.
  intros H. unfold process_job, retry_configured, retrying.
  by rewrite (retry_loop_returns _ _ _ _ _ _ _ _ _ H).
Qed.

Lemma running_world_frame j w :
  store_log (running_world env j w)
  = store_log w ++ [mkReq (Select j) true;
                    mkReq (Update j (running_fields (timestamp env w))) true]
  ∧ jobs (running_world env j w)
    = alter (λ row, running_fields (timestamp env w) ∪ row) j (jobs w)
  ∧ sleeps (running_world env j w) = sleeps w.
Proof. unfold running_world. simpl. by rewrite <- app_assoc. Qed.

(** The [except] branch when its write is served. *)
Lemma record_failure_served j exc w :
  store_fault env (length (store_log w)) = None →
  record_failure env j exc w
  = (Ok tt,
     add_log (mkLog "ERROR" "Workflow generation job failed"
                    [("job_id", j); ("error", str_exc exc)])
       (add_request (mkReq (Update j (failed_fields exc (timestamp env w))) true)
          (set_jobs (alter (λ row, failed_fields exc (timestamp env w) ∪ row) j)
             (tick_clock w)))).
Proof.
  intros F. unfold record_failure, bind, utc_now_iso, utc_now, bind, ret,
    store_update, store_request, logger_exception, modify. simpl.
  by rewrite F.
Qed.

(** The [except] branch when its write is refused. *)
Lemma record_failure_fault j exc w e :
  store_fault env (length (store_log w)) = Some e →
  record_failure env j exc w
  = (Raise e,
     add_request (mkReq (Update j (failed_fields exc (timestamp env w))) false)
       (tick_clock w)).
Proof.
  intros F. unfold record_failure, bind, utc_now_iso, utc_now, bind, ret,
    store_update, store_request. simpl.
  by rewrite F.
Qed.

(** One failed attempt, when more are permitted, is followed by its back-off
    sleep and the next attempt. *)
Lemma retrying_again {A} (fn : M A) w e w1 :
  fn w = (Raise e, w1) → 1 < max_retries (settings env) →
  retrying env fn w
  = retry_loop retry_if_exception_type_Exception
      (stop_after_attempt (max_retries (settings env))) (retry_wait env)
      (Nat.pred (Z.to_nat (max_retries (settings env)))) 2 fn
      (add_sleep (retry_wait env 1) w1).
Proof.
  intros Hfn Hm. unfold retrying.
  destruct (Z.to_nat (max_retries (settings env))) as [|fuel] eqn:Hfuel; [lia|].
  simpl. rewrite Hfn. simpl.
  assert (stop_after_attempt (max_retries (settings env)) 1 = false) as ->
    by (apply Z.leb_gt; lia).
  reflexivity.
Qed.

(** C10 (as amended).  The write of the completed state lies in the [try] of
    the generation call: when the generation succeeds and that write raises
    [e], the handler sends the write that records the job as failed with the
    message of [e].  When the store serves this write, the job is recorded
    as failed although its generation succeeded, and both the attempt and
    [process_job] return normally, without a retry.  When the store refuses
    this write too, with [e'], nothing is recorded: the job stays running,
    the attempt raises [e'], and when more attempts are permitted the retry
    policy sleeps and runs the job again. *)
Theorem completed_write_failure_records_failed j w job result e :
  truthy_row (jobs w !! j) = Some job →
  store_fault env (length (store_log w)) = None →
  store_fault env (S (length (store_log w))) = None →
  fst (_generate_workflow_payload env (job_payload job) (running_world env j w))
    = Ok result →
  store_fault env (S (S (length (store_log w)))) = Some e →
  let w3 :=
    snd (_generate_workflow_payload env (job_payload job) (running_world env j w)) in
  let sent served :=
    store_log w
    ++ [mkReq (Select j) true;
        mkReq (Update j (running_fields (timestamp env w))) true;
        mkReq (Update j (completed_fields result (timestamp env w3))) false;
        mkReq (Update j (failed_fields e (timestamp env (tick_clock w3)))) served] in
  (store_fault env (S (S (S (length (store_log w))))) = None →
   ∃ w' row,
     process_job_attempt env j w = (Ok tt, w')
     ∧ process_job env j w = (Ok tt, w')
     ∧ retrying env (process_job_attempt env j) w = (Ok tt, 1, w')
     ∧ jobs w' !! j = Some row
     ∧ dict_get row "status" = VStr "failed"
     ∧ dict_get row "error_message" = VStr (str_exc e)
     ∧ dict_get row "workflow_result" = dict_get job "workflow_result"
     ∧ store_log w' = sent true)
  ∧ (∀ e', store_fault env (S (S (S (length (store_log w))))) = Some e' →
     ∃ w' row,
       process_job_attempt env j w = (Raise e', w')
       ∧ jobs w' !! j = Some row
       ∧ dict_get row "status" = VStr "running"
       ∧ dict_get row "error_message" = dict_get job "error_message"
       ∧ store_log w' = sent false
       ∧ (1 < max_retries (settings env) →
          retrying env (process_job_attempt env j) w
          = retry_loop retry_if_exception_type_Exception
              (stop_after_attempt (max_retries (settings env))) (retry_wait env)
              (Nat.pred (Z.to_nat (max_retries (settings env)))) 2
              (process_job_attempt env j) (add_sleep (retry_wait env 1) w'))).
Proof.
  intros Hjob F0 F1 Hres F2 w3 sent.
  assert (_generate_workflow_payload env (job_payload job) (running_world env j w)
          = (Ok result, w3)) as Hgen.
  { unfold w3. rewrite <- Hres. by destruct (_generate_workflow_payload _ _ _). }
  unfold sent. clearbody w3. clear sent.
  destruct (generate_frame env _ _ _ _ Hgen) as (Hj & Hl & _).
  destruct (running_world_frame j w) as (Hrl & Hrj & _).
  assert (length (store_log w3) = S (S (length (store_log w)))) as Hlen.
  { rewrite Hl, Hrl, length_app. simpl. lia. }
  assert (process_job_attempt env j w
          = record_failure env j e
              (add_request
                 (mkReq (Update j (completed_fields result (timestamp env w3))) false)
                 (tick_clock w3))) as Hhandler.
  { rewrite (process_job_attempt_running env j w job Hjob F0 F1).
    unfold try_except, bind at 1. rewrite Hgen.
    unfold record_success, bind, utc_now_iso, utc_now, bind, ret,
      store_update, store_request. simpl.
    by rewrite Hlen, F2. }
  assert (length (store_log
                    (add_request
                       (mkReq (Update j (completed_fields result (timestamp env w3)))
                          false)
                       (tick_clock w3)))
          = S (S (S (length (store_log w))))) as Hlen'.
  { simpl. rewrite length_app, Hlen. simpl. lia. }
  apply truthy_row_Some in Hjob as [Hrow _].
  split.
  - intros F3.
    eassert (process_job_attempt env j w = (Ok tt, _)) as Hrun.
    { rewrite Hhandler. rewrite record_failure_served; [reflexivity|].
      by rewrite Hlen'. }
    destruct (process_job_returns j w _ Hrun) as [Hret Hproc].
    eexists _, _. split; [exact Hrun|]. split; [exact Hproc|]. split; [exact Hret|].
    simpl. rewrite Hj, Hrj, !lookup_alter_eq, Hrow. simpl.
    split_and!; [reflexivity|..].
    + by apply dict_get_union_l.
    + by apply dict_get_union_l.
    + rewrite !dict_get_union_r by done. done.
    + rewrite Hl, Hrl, <- !app_assoc. reflexivity.
  - intros e' F3.
    eassert (process_job_attempt env j w = (Raise e', _)) as Hrun.
    { rewrite Hhandler. rewrite (record_failure_fault _ _ _ e'); [reflexivity|].
      by rewrite Hlen'. }
    eexists _, _. split; [exact Hrun|].
    simpl. rewrite Hj, Hrj, !lookup_alter_eq, Hrow. simpl.
    split_and!; [reflexivity|..].
    + by apply dict_get_union_l.
    + rewrite !dict_get_union_r by done. done.
    + rewrite Hl, Hrl, <- !app_assoc. reflexivity.
    + intros Hm. by apply (retrying_again _ _ _ _ Hrun).
Qed.
End Process2.

Lemma completed_write_failure_records_failed_witness :
  ∃ w' row,
    process_job env_write_fails job1 w_queued = (Ok tt, w')
    ∧ jobs w' !! job1 = Some row
    ∧ dict_get row "status" = VStr "failed"
    ∧ dict_get row "error_message" = VStr "connection reset".
Proof.
  edestruct (completed_write_failure_records_failed env_write_fails job1 w_queued)
    as [Hserved _];
    [reflexivity | reflexivity | reflexivity | vm_compute; reflexivity
    | reflexivity |].
  destruct (Hserved eq_refl) as (w' & row & _ & Hrun & _ & Hrow & Hst & Herr & _).
  exists w', row. split_and!; [exact Hrun | exact Hrow | exact Hst | exact Herr].
Defined.

(** The generation succeeds and the store refuses the completed write and
    then the failed write: the job is never recorded as failed.  The first
    attempt raises, the second one completes the job. *)
Lemma completed_write_failure_counterexample :
  fst (_generate_workflow_payload env_writes_fail
         (job_payload (default ∅ (jobs w_queued !! job1)))
         (running_world env_writes_fail job1 w_queued))
    = Ok (VDict {[ "nodes" := VList []; "edges" := VList [] ]})
  ∧ fst (process_job_attempt env_writes_fail job1 w_queued) = Raise api_error
  ∧ (λ r, (req_served r,
           match req_op r with Update _ fields => fields !! "status" | _ => None end))
      <$> store_log (snd (process_job env_writes_fail job1 w_queued))
    = [(true, None);
       (true, None); (true, Some (VStr "running"));
       (false, Some (VStr "completed")); (false, Some (VStr "failed"));
       (true, None); (true, Some (VStr "running")); (true, Some (VStr "completed"))]
  ∧ status_history job1 (store_log (snd (process_job env_writes_fail job1 w_queued)))
    = [VStr "queued"; VStr "running"; VStr "running"; VStr "completed"]
  ∧ sleeps (snd (process_job env_writes_fail job1 w_queued)) = [1%Q].
Proof. split_and!; vm_compute; reflexivity. Qed.

(** ** Reading a job's status *)

Section Status.
Context (env : Env).

Lemma requester_id_pure request w :
  requester_id env request w = (requester env request, w).
Proof.
  unfold requester_id, requester. destruct (authorization request) as [h|]; [|done].
  case_bool_decide; done.
Qed.

Lemma workflow_status_reserved request jid w :
  method request ≠ "OPTIONS" →
  reserved_job_id (resolved_job_id request jid) = true →
  workflow_status env request jid w = (Ok bad_request_response, w).
Proof.
  intros Hm Hr. unfold workflow_status. rewrite bool_decide_false by done.
  fold (resolved_job_id request jid). unfold reserved_job_id in Hr. by rewrite Hr.
Qed.

Lemma workflow_status_lookup request jid w uid :
  method request ≠ "OPTIONS" →
  reserved_job_id (resolved_job_id request jid) = false →
  requester env request = Ok uid →
  store_fault env (length (store_log w)) = None →
  workflow_status env request jid w
  = (match truthy_row (jobs w !! resolved_job_id request jid) with
     | None => Ok (not_found_response (resolved_job_id request jid))
     | Some job =>
         if owner_mismatch uid job then Ok forbidden_response
         else match job !! "id" with
              | None => Raise (KeyError "'id'")
              | Some id => Ok (_json_response (status_view job id) 200)
              end
     end,
     add_request (mkReq (Select (resolved_job_id request jid)) true) w).
Proof.
  intros Hm Hr Hu F. unfold workflow_status. rewrite bool_decide_false by done.
  fold (resolved_job_id request jid). unfold reserved_job_id in Hr. rewrite Hr.
  unfold bind at 1. rewrite requester_id_pure, Hu.
  unfold bind, store_get, store_request. rewrite F. simpl.
  destruct (truthy_row _) as [job|]; [|done].
  fold (owner_mismatch uid job). destruct (owner_mismatch uid job); [done|].
  destruct (job !! "id"); done.
Qed.

Lemma status_view_fields job id :
  status_view job id !! "job_id" = Some id
  ∧ status_view job id !! "status" = Some (dict_get job "status")
  ∧ status_view job id !! "progress_percentage"
    = Some (py_or (dict_get job "progress_percentage") (VInt 0))
  ∧ status_view job id !! "created_at" = Some (dict_get job "created_at")
  ∧ status_view job id !! "started_at" = Some (dict_get job "started_at")
  ∧ status_view job id !! "finished_at" = Some (dict_get job "finished_at")
  ∧ status_view job id !! "workflow"
    = (if eq_str (dict_get job "status") "completed"
          && truthy (dict_get job "workflow_result")
       then Some (dict_get job "workflow_result") else None)
  ∧ status_view job id !! "error"
    = (if eq_str (dict_get job "status") "failed"
          && truthy (dict_get job "error_message")
       then Some (dict_get job "error_message") else None)
  ∧ status_view job id !! "error_details"
    = (if eq_str (dict_get job "status") "failed"
          && truthy (dict_get job "error_message")
       then Some (dict_get job "error_details") else None).
Proof.
  unfold status_view.
  destruct (eq_str (dict_get job "status") "completed" && _);
    destruct (eq_str (dict_get job "status") "failed" && _);
    destruct (truthy (dict_get job "progress_logs"));
    destruct (truthy (dict_get job "observability"));
    split_and!; reflexivity.
Qed.
End Status.

(** ** A generation that fails *)

Section Failure.
Context (env : Env).

(** C1 (as amended).  When the generation action raises for a job that the
    store holds, and the store serves the three requests of the attempt (the
    lookup, the running write and the failed write), [process_job] invokes
    the generation once: the handler inside the attempt catches the
    exception, records the job as failed with the message of that exception,
    and the call returns normally at attempt number 1, without back-off
    sleep.  A later status read that the store serves and that passes the
    owner check answers 200 with status failed, and with that message as
    [error] when the message is not empty. *)
Theorem generation_failure_recorded j w job :
  truthy_row (jobs w !! j) = Some job →
  job !! "id" = Some (VStr j) →
  store_fault env (length (store_log w)) = None →
  store_fault env (S (length (store_log w))) = None →
  store_fault env (S (S (length (store_log w)))) = None →
  (∀ w2, ∃ e, fst (_generate_workflow_payload env (job_payload job) w2) = Raise e) →
  ∃ e w3 w' row,
    _generate_workflow_payload env (job_payload job) (running_world env j w)
      = (Raise e, w3)
    ∧ process_job env j w = (Ok tt, w')
    ∧ retrying env (process_job_attempt env j) w = (Ok tt, 1, w')
    ∧ sleeps w' = sleeps w
    ∧ store_log w'
      = store_log w
        ++ [mkReq (Select j) true;
            mkReq (Update j (running_fields (timestamp env w))) true;
            mkReq (Update j (failed_fields e (timestamp env w3))) true]
    ∧ jobs w' !! j = Some row
    ∧ dict_get row "status" = VStr "failed"
    ∧ dict_get row "error_message" = VStr (str_exc e)
    ∧ ∀ request jid uid,
        method request ≠ "OPTIONS" →
        resolved_job_id request jid = j → reserved_job_id j = false →
        requester env request = Ok uid → owner_mismatch uid job = false →
        store_fault env (length (store_log w')) = None →
        ∃ body w'',
          workflow_status env request jid w' = (Ok (mkResponse 200 (Some body)), w'')
          ∧ body !! "status" = Some (VStr "failed")
          ∧ body !! "error"
            = (if bool_decide (str_exc e = "") then None
               else Some (VStr (str_exc e))).
Proof.
  intros Hjob Hid F0 F1 F2 Hfail.
  destruct (_generate_workflow_payload env (job_payload job) (running_world env j w))
    as [r w3] eqn:Hgen.
  destruct (Hfail (running_world env j w)) as [e He]. rewrite Hgen in He.
  simpl in He. subst r.
  destruct (generate_frame env _ _ _ _ Hgen) as (Hj & Hl & _ & _ & Hsl & _).
  destruct (running_world_frame env j w) as (Hrl & Hrj & Hrs).
  assert (length (store_log w3) = S (S (length (store_log w)))) as Hlen.
  { rewrite Hl, Hrl, length_app. simpl. lia. }
  eassert (process_job_attempt env j w = (Ok tt, _)) as Hrun.
  { rewrite (process_job_attempt_running env j w job Hjob F0 F1).
    unfold try_except, bind at 1. rewrite Hgen.
    rewrite record_failure_served; [reflexivity|by rewrite Hlen]. }
  destruct (process_job_returns env j w _ Hrun) as [Hret Hproc].
  apply truthy_row_Some in Hjob as [Hrow Hsize].
  set (row := failed_fields e (timestamp env w3)
              ∪ (running_fields (timestamp env w) ∪ job)).
  assert (dict_get row "status" = VStr "failed") as Hst
    by by apply dict_get_union_l.
  assert (dict_get row "error_message" = VStr (str_exc e)) as Hmsg
    by by apply dict_get_union_l.
  assert (row !! "id" = Some (VStr j)) as Hrid.
  { unfold row. rewrite !lookup_union_r by done. done. }
  assert (dict_get row "user_id" = dict_get job "user_id") as Huid.
  { unfold row. by rewrite !dict_get_union_r. }
  eexists e, w3, _, row. split; [done|]. split; [exact Hproc|]. split; [exact Hret|].
  simpl. split_and!.
  - by rewrite Hsl, Hrs.
  - rewrite Hl, Hrl, <- !app_assoc. reflexivity.
  - by rewrite Hj, Hrj, !lookup_alter_eq, Hrow.
  - done.
  - done.
  - intros request jid uid Hm Hres Hnr Hu Hown Fpoll.
    rewrite (workflow_status_lookup env request jid _ uid);
      [|done| by rewrite Hres |done|exact Fpoll].
    rewrite Hres. simpl. rewrite Hj, Hrj, !lookup_alter_eq, Hrow. simpl. fold row.
    rewrite bool_decide_false by (apply (map_size_ne_0_lookup_2 _ "id"); eauto).
    assert (owner_mismatch uid row = false) as ->.
    { unfold owner_mismatch in *. by rewrite Huid. }
    rewrite Hrid. eexists _, _. split; [reflexivity|].
    destruct (status_view_fields row (VStr j)) as (_ & Hs & _ & _ & _ & _ & _ & Herr & _).
    rewrite Hs, Herr, Hst, Hmsg. split; [done|]. simpl.
    by case_bool_decide.
Qed.
End Failure.

Lemma generation_failure_recorded_witness :
  ∃ w' body w'',
    process_job env_no_data job1 w_queued = (Ok tt, w')
    ∧ workflow_status env_no_data poll_request None w'
      = (Ok (mkResponse 200 (Some body)), w'')
    ∧ body !! "status" = Some (VStr "failed")
    ∧ body !! "error" = Some (VStr "Data file not found: node_reference.json").
Proof.
  edestruct (generation_failure_recorded env_no_data job1 w_queued)
    as (e & w3 & w' & row & Hgen & Hrun & _ & _ & _ & _ & _ & _ & Hpoll);
    [reflexivity | reflexivity | reflexivity | reflexivity | reflexivity | |].
  { intros w2. eexists. reflexivity. }
  injection Hgen as <- _.
  destruct (Hpoll poll_request None None) as (body & w'' & Hst & Hb1 & Hb2);
    [done|reflexivity|reflexivity|reflexivity|reflexivity|reflexivity|].
  exists w', body, w''. split_and!; [exact Hrun|exact Hst|exact Hb1|exact Hb2].
Defined.

(** With [max_retries = 3], a job whose generation always raises is failed
    after a single attempt: one lookup, one running write, one failed write,
    no sleep. *)
Lemma generation_not_retried_counterexample :
  max_retries (settings env_no_data) = 3
  ∧ (∀ w, fst (_generate_workflow_payload env_no_data
                 (VDict {[ "prompt" := VStr "build a lead capture form" ]}) w)
          = Raise (mkExn "FileNotFoundError" "Data file not found: node_reference.json"))
  ∧ snd (fst (retrying env_no_data (process_job_attempt env_no_data job1) w_queued)) = 1
  ∧ req_op <$> store_log (snd (process_job env_no_data job1 w_queued))
    = [Insert (default ∅ (jobs w_queued !! job1)); Select job1;
       Update job1 (running_fields "1700000000001");
       Update job1 (failed_fields (mkExn "FileNotFoundError" "Data file not found: node_reference.json") "1700000000002")]
  ∧ sleeps (snd (process_job env_no_data job1 w_queued)) = [].
Proof. (split_and!; try reflexivity). Qed.

(** An error of the language-model call does not fail the job:
    [_generate_workflow_payload] turns it into the fallback workflow and the
    job completes. *)
Lemma llm_error_completes_with_fallback :
  (λ row, (dict_get row "status", dict_get row "workflow_result"))
    <$> jobs (snd (process_job env_llm_down job1 w_queued)) !! job1
  = Some (VStr "completed", _fallback_workflow "build a lead capture form").
Proof. reflexivity. Qed.

(** ** The outcomes of a status read *)

Section StatusClaims.
Context (env : Env).

Lemma eq_str_true v s : eq_str v s = true → v = VStr s.
Proof.
  destruct v; simpl; try done. case_bool_decide; [by subst|done].
Qed.

Lemma owner_mismatch_spec uid job :
  owner_mismatch uid job = true
  ↔ ∃ u, uid = Some u ∧ u ≠ "" ∧ truthy (dict_get job "user_id") = true
         ∧ dict_get job "user_id" ≠ VStr u.
Proof.
  unfold owner_mismatch. split.
  - destruct uid as [u|]; [|done]. intros H.
    apply andb_prop in H as [H H3]. apply andb_prop in H as [H1 H2].
    exists u. split_and!; [done| |done|].
    + intros ->. by rewrite bool_decide_true in H1.
    + intros Heq. rewrite Heq in H3. simpl in H3.
      by rewrite bool_decide_true in H3.
  - intros (u & -> & Hu & Ht & Hne). rewrite Ht, bool_decide_false by done. simpl.
    destruct (eq_str (dict_get job "user_id") u) eqn:He; [|done].
    by apply eq_str_true in He.
Qed.


(** C9.  For a job with an owner recorded, a status read without a
    resolvable identity (no Authorization header, or a token that resolves to
    no user) gets the full 200 view: status code 200 and, as body, the view
    of the job with its id, status, progress and timestamps.  The read is
    answered 403 "Forbidden" exactly when a non-empty requester identity is
    present and differs from the owner. *)
Theorem anonymous_status_read_allowed request jid w job id :
  method request ≠ "OPTIONS" →
  reserved_job_id (resolved_job_id request jid) = false →
  store_fault env (length (store_log w)) = None →
  truthy_row (jobs w !! resolved_job_id request jid) = Some job →
  truthy (dict_get job "user_id") = true →
  job !! "id" = Some id →
  let result := fst (workflow_status env request jid w) in
  (authorization request = None → requester env request = Ok None)
  ∧ (∀ auth_header,
       authorization request = Some auth_header →
       auth_get_user env (replace "bearer " "" (replace "Bearer " "" auth_header))
         = Ok None →
       requester env request = Ok None)
  ∧ (requester env request = Ok None →
     ∃ body,
       result = Ok (mkResponse 200 (Some body))
       ∧ body = status_view job id
       ∧ body !! "job_id" = Some id
       ∧ body !! "status" = Some (dict_get job "status")
       ∧ body !! "progress_percentage"
         = Some (py_or (dict_get job "progress_percentage") (VInt 0))
       ∧ body !! "created_at" = Some (dict_get job "created_at")
       ∧ body !! "started_at" = Some (dict_get job "started_at")
       ∧ body !! "finished_at" = Some (dict_get job "finished_at"))
  ∧ (∀ uid, requester env request = Ok uid →
     (result
      = Ok (mkResponse 403
              (Some {[ "error" := VStr "Forbidden";
                       "message" := VStr "You do not have access to this job" ]}))
      ↔ ∃ u, uid = Some u ∧ u ≠ "" ∧ dict_get job "user_id" ≠ VStr u)).
Proof.
  intros Hm Hr F Hjob Hown Hid result. split_and!.
  - intros Ha. unfold requester. by rewrite Ha.
  - intros h Ha Hnone. unfold requester. rewrite Ha. by case_bool_decide.
  - intros Hu. unfold result.
    rewrite (workflow_status_lookup env request jid w None Hm Hr Hu F). simpl.
    rewrite Hjob, Hid. simpl.
    destruct (status_view_fields job id) as (H1 & H2 & H3 & H4 & H5 & H6 & _).
    exists (status_view job id). by split_and!.
  - intros uid Hu. unfold result.
    rewrite (workflow_status_lookup env request jid w uid Hm Hr Hu F). simpl.
    rewrite Hjob, Hid.
    destruct (owner_mismatch uid job) eqn:Hc.
    + apply owner_mismatch_spec in Hc as (u & -> & Hne & _ & Hd).
      split; [|done]. intros _. by exists u.
    + split; [intros [=]|].
      intros (u & -> & Hne & Hd).
      assert (owner_mismatch (Some u) job = true) as Hc'
        by (apply owner_mismatch_spec; eauto).
      congruence.
Qed.
End StatusClaims.




Lemma anonymous_status_read_allowed_witness :
  (∃ body,
     fst (workflow_status env_users (poll_as None) None w_owned)
       = Ok (mkResponse 200 (Some body))
     ∧ body !! "job_id" = Some (VStr "job_1")
     ∧ body !! "status" = Some (VStr "queued"))
  ∧ fst (workflow_status env_users (poll_as (Some "Bearer token-b")) None w_owned)
    = Ok (mkResponse 403
            (Some {[ "error" := VStr "Forbidden";
                     "message" := VStr "You do not have access to this job" ]})).
Proof.
  destruct (anonymous_status_read_allowed env_users (poll_as None) None w_owned
              row_owned (VStr "job_1"))
    as (_ & _ & Hanon & _); [done|reflexivity..|].
  destruct (anonymous_status_read_allowed env_users (poll_as (Some "Bearer token-b"))
              None w_owned row_owned (VStr "job_1"))
    as (_ & _ & _ & Hother); [done|reflexivity..|].
  split.
  - destruct (Hanon eq_refl) as (body & Hres & _ & Hid & Hst & _).
    exists body. split_and!; [exact Hres|exact Hid|exact Hst].
  - apply (Hother (Some "user-b")); [reflexivity|].
    exists "user-b". split_and!; done.
Defined.

(** Scenarios A and D of the specification. *)
Lemma scenario_A :
  (λ r, (status_code r, (λ c, (c !! "status", c !! "job_id")) <$> content r))
    <$> match fst (generate_workflow_async env0 create_request w0) with
        | Ok r => Some r | Raise _ => None end
  = Some (202, Some (Some (VStr "queued"), Some (VStr job1)))
  ∧ (λ r, (status_code r, (λ c, (c !! "status", c !! "progress_percentage")) <$> content r))
    <$> match fst (workflow_status env0 poll_request None w_queued) with
        | Ok r => Some r | Raise _ => None end
  = Some (200, Some (Some (VStr "queued"), Some (VInt 0))).
Proof. split; vm_compute; reflexivity. Qed.

Lemma scenario_D :
  fst (workflow_status env0 poll_request None w0) = Ok (not_found_response job1).
Proof. vm_compute. reflexivity. Qed.

(** ** Creating a job *)

Section Creation.
Context (env : Env).

Lemma extract_prompt_dict payload prompt :
  _extract_prompt payload = Ok prompt → ∃ d, payload = VDict d.
Proof. destruct payload; simpl; try done. eauto. Qed.

Lemma store_insert_fresh row w id :
  store_fault env (length (store_log w)) = None →
  dict_get row "id" = VStr id → jobs w !! id = None →
  store_insert env row w
  = (Ok tt, add_request (mkReq (Insert row) true) (set_jobs (insert id row) w)).
Proof.
  intros F Hid Hfresh. unfold store_insert, store_request.
  by rewrite F, Hid, Hfresh.
Qed.

(** C6 (as amended).  For a creation request (any request but OPTIONS,
    with a JSON body) whose effective prompt -- [prompt], else [description],
    stripped of surrounding white space -- is empty, the answer is 400 and the
    world is unchanged: no job record is created.  When it is not empty, the
    requester resolves, the store serves the insert and the generated id is
    fresh, a record with that prompt, status "queued" and progress 0 is
    inserted and the answer is 202 with job_id, status "queued", a message
    and an estimated completion time. *)
Theorem generate_workflow_async_outcomes request payload prompt w :
  method request ≠ "OPTIONS" →
  json_body request = Ok payload →
  _extract_prompt payload = Ok prompt →
  (prompt = "" →
     generate_workflow_async env request w
       = (Ok (mkResponse 400 (Some {[ "error" := VStr prompt_required ]})), w))
  ∧ (prompt ≠ "" →
     ∀ uid, requester env request = Ok uid →
     store_fault env (length (store_log w)) = None →
     jobs w !! new_job_id env w = None →
     ∃ row body w',
       generate_workflow_async env request w = (Ok (mkResponse 202 (Some body)), w')
       ∧ jobs w' = <[new_job_id env w := row]> (jobs w)
       ∧ store_log w' = store_log w ++ [mkReq (Insert row) true]
       ∧ row !! "id" = Some (VStr (new_job_id env w))
       ∧ row !! "status" = Some (VStr "queued")
       ∧ row !! "progress_percentage" = Some (VInt 0)
       ∧ row !! "prompt" = Some (VStr prompt)
       ∧ row !! "user_id" = Some (from_option VStr VNone uid)
       ∧ body !! "job_id" = Some (VStr (new_job_id env w))
       ∧ body !! "status" = Some (VStr "queued")
       ∧ is_Some (body !! "message")
       ∧ is_Some (body !! "estimated_completion_time")).
Proof.
  intros Hm Hbody Hprompt.
  destruct (extract_prompt_dict _ _ Hprompt) as [d ->].
  split.
  - intros ->. unfold generate_workflow_async. rewrite bool_decide_false by done.
    rewrite Hbody. unfold bind at 1. unfold lift_result at 1. rewrite Hprompt.
    by rewrite bool_decide_true.
  - intros Hne uid Hu F Hfresh.
    unfold generate_workflow_async. rewrite bool_decide_false by done.
    rewrite Hbody. unfold bind at 1. unfold lift_result at 1. rewrite Hprompt.
    rewrite bool_decide_false by done.
    unfold bind at 1. rewrite requester_id_pure, Hu. cbv beta iota.
    unfold bind at 1, utc_now. cbv beta iota.
    unfold bind at 1, randint. cbv beta iota.
    do 4 (unfold bind at 1; unfold lift_result at 1, py_get; cbv beta iota).
    unfold bind at 1.
    erewrite (store_insert_fresh _ _ (new_job_id env w)); [|exact F|reflexivity|exact Hfresh].
    unfold ret. eexists _, _, _. split; [reflexivity|].
    split_and!; try reflexivity; by eexists.
Qed.
End Creation.


Lemma generate_workflow_async_outcomes_witness :
  new_job_id env0 w0 = job1
  ∧ ∃ row body w',
      generate_workflow_async env0 create_request w0
        = (Ok (mkResponse 202 (Some body)), w')
      ∧ jobs w' = <[new_job_id env0 w0 := row]> (jobs w0)
      ∧ row !! "status" = Some (VStr "queued")
      ∧ row !! "progress_percentage" = Some (VInt 0)
      ∧ body !! "status" = Some (VStr "queued").
Proof.
  split; [vm_compute; reflexivity|].
  destruct (generate_workflow_async_outcomes env0 create_request
              (VDict {[ "prompt" := VStr "build a lead capture form" ]})
              "build a lead capture form" w0) as [_ H];
    [done|reflexivity|vm_compute; reflexivity|].
  destruct (H ltac:(done) None)
    as (row & body & w' & Hrun & Hjobs & _ & _ & Hst & Hpp & _ & _ & _ & Hb & _);
    [reflexivity|reflexivity|vm_compute; reflexivity|].
  exists row, body, w'.
  split_and!; [exact Hrun|exact Hjobs|exact Hst|exact Hpp|exact Hb].
Defined.

(** A request without prompt is accepted on its description, and a request
    whose non-empty prompt is blank is rejected. *)
Lemma prompt_validation_counterexample :
  (let '(r, w') := generate_workflow_async env0 description_request w0 in
   status_code <$> (match r with Ok r => Some r | Raise _ => None end) = Some 202
   ∧ ((λ row, row !! "status") <$> jobs w' !! job1) = Some (Some (VStr "queued")))
  ∧ (let '(r, w') := generate_workflow_async env0 blank_prompt_request w0 in
     status_code <$> (match r with Ok r => Some r | Raise _ => None end) = Some 400
     ∧ w' = w0).
Proof. split; vm_compute; split; reflexivity. Qed.

(** A prompt of white space that is not ASCII, here U+00A0 and U+2003, is
    blank as well: the request is answered 400 and no job is created. *)
Lemma unicode_blank_prompt_rejected :
  generate_workflow_async env0 unicode_blank_prompt_request w0
  = (Ok (mkResponse 400 (Some {[ "error" := VStr prompt_required ]})), w0).
Proof. vm_compute. reflexivity. Qed.


(** ** The status only moves forward *)

Section Forward.
Context (env : Env).

Lemma statuses_written_app l1 l2 :
  statuses_written (l1 ++ l2) = statuses_written l1 ++ statuses_written l2.
Proof. unfold statuses_written. apply omap_app. Qed.

Lemma store_insert_cases row w r w' :
  store_insert env row w = (r, w') →
  (∃ e, r = Raise e ∧ w' = add_request (mkReq (Insert row) false) w)
  ∨ (∃ id, dict_get row "id" = VStr id ∧ jobs w !! id = None ∧ r = Ok tt
           ∧ w' = add_request (mkReq (Insert row) true) (set_jobs (insert id row) w)).
Proof.
  unfold store_insert, store_request.
  destruct (store_fault env _) as [e|]; [intros [= <- <-]; eauto|].
  destruct (dict_get row "id") as [| | |id| |]; try (intros [= <- <-]; eauto).
  destruct (jobs w !! id) eqn:Hid; intros [= <- <-]; [eauto|].
  right. exists id. eauto.
Qed.

(** One attempt: it raises having written nothing or [running], or it
    returns having written [running] and then one terminal status. *)
Lemma process_job_attempt_writes j w r w' :
  process_job_attempt env j w = (r, w') →
  ∃ reqs,
    store_log w' = store_log w ++ reqs
    ∧ dom (jobs w') = dom (jobs w)
    ∧ ((∃ e, r = Raise e
             ∧ (statuses_written reqs = []
                ∨ statuses_written reqs = [running_status j]))
       ∨ (r = Ok tt
          ∧ ∃ t, terminal t ∧ statuses_written reqs = [running_status j; (j, t)])).
Proof.
  unfold process_job_attempt. unfold bind at 1.
  destruct (store_get_cases env j w) as [(e & _ & ->)|[_ ->]].
  { intros [= <- <-]. exists [mkReq (Select j) false]. split_and!; [done..|].
    left. eauto. }
  destruct (truthy_row (jobs w !! j)) as [job|].
  2:{ intros [= <- <-]. exists [mkReq (Select j) true]. split_and!; [done..|].
      left. eauto. }
  unfold bind at 1. unfold utc_now_iso at 1, utc_now, bind at 1, ret. simpl.
  unfold bind at 1.
  match goal with |- context [store_update env j ?f ?w0] =>
    destruct (store_update_cases env j f w0) as [(e & _ & ->)|[_ ->]];
    set (fields1 := f) end.
  { intros [= <- <-]. exists [mkReq (Select j) true; mkReq (Update j fields1) false].
    simpl. rewrite <- app_assoc. split_and!; [done..|]. left. eauto. }
  match goal with |- context [try_except _ _ ?w0] => set (w2 := w0) end.
  assert (store_log w2 = store_log w ++ [mkReq (Select j) true; mkReq (Update j fields1) true])
    as Hl2 by (simpl; by rewrite <- app_assoc).
  assert (dom (jobs w2) = dom (jobs w)) as Hd2 by (simpl; apply dom_alter_L).
  clearbody w2.
  unfold try_except, bind at 1.
  destruct (_generate_workflow_payload env _ w2) as [rg w3] eqn:Hgen.
  destruct (generate_frame env _ _ _ _ Hgen) as (Hj3 & Hl3 & _).
  assert (∀ exc w4 reqs4,
            store_log w4 = store_log w ++ reqs4 → dom (jobs w4) = dom (jobs w) →
            statuses_written reqs4 = [running_status j] →
            ∀ r w', record_failure env j exc w4 = (r, w') →
            ∃ reqs,
              store_log w' = store_log w ++ reqs ∧ dom (jobs w') = dom (jobs w)
              ∧ ((∃ e, r = Raise e
                       ∧ (statuses_written reqs = []
                          ∨ statuses_written reqs = [running_status j]))
                 ∨ (r = Ok tt
                    ∧ ∃ t, terminal t
                           ∧ statuses_written reqs = [running_status j; (j, t)])))
    as Hhandler.
  { intros exc w4 reqs4 Hl4 Hd4 Hs4 r0 w0. unfold record_failure.
    unfold bind at 1. unfold utc_now_iso at 1, utc_now, bind at 1, ret. simpl.
    unfold bind at 1.
    match goal with |- context [store_update env j ?f ?w0] =>
      destruct (store_update_cases env j f w0) as [(e & _ & ->)|[_ ->]];
      set (fields3 := f) end.
    - intros [= <- <-]. exists (reqs4 ++ [mkReq (Update j fields3) false]).
      simpl. rewrite Hl4, <- app_assoc. split_and!; [done..|].
      left. exists e. split; [done|]. right.
      by rewrite statuses_written_app, Hs4.
    - unfold logger_exception, modify. intros [= <- <-].
      exists (reqs4 ++ [mkReq (Update j fields3) true]).
      simpl. rewrite Hl4, <- app_assoc. split_and!; [done| |].
      + by rewrite dom_alter_L.
      + right. split; [done|]. exists (VStr "failed"). split; [by right|].
        by rewrite statuses_written_app, Hs4. }
  destruct rg as [result|exc].
  - unfold bind at 1. unfold utc_now_iso at 1, utc_now, bind at 1, ret. simpl.
    unfold bind at 1.
    match goal with |- context [store_update env j ?f ?w0] =>
      destruct (store_update_cases env j f w0) as [(e & _ & ->)|[_ ->]];
      set (fields2 := f) end.
    + apply (Hhandler e _ ([mkReq (Select j) true; mkReq (Update j fields1) true]
                           ++ [mkReq (Update j fields2) false])).
      * simpl. by rewrite Hl3, Hl2, <- app_assoc.
      * simpl. by rewrite Hj3.
      * done.
    + unfold logger_info, modify. intros [= <- <-].
      exists [mkReq (Select j) true; mkReq (Update j fields1) true;
              mkReq (Update j fields2) true].
      simpl. rewrite Hl3, Hl2, <- app_assoc. split_and!; [done| |].
      * by rewrite dom_alter_L, Hj3.
      * right. split; [done|]. exists (VStr "completed"). split; [by left|done].
  - apply (Hhandler exc w3 [mkReq (Select j) true; mkReq (Update j fields1) true]).
    + by rewrite Hl3.
    + by rewrite Hj3.
    + done.
Qed.
End Forward.

Section Forward2.
Context (env : Env).

Lemma process_job_loop_writes j :
  ∀ fuel n w r a w',
    retry_loop retry_if_exception_type_Exception
      (stop_after_attempt (max_retries (settings env))) (retry_wait env)
      fuel n (process_job_attempt env j) w = (r, a, w') →
    ∃ reqs k tail,
      store_log w' = store_log w ++ reqs
      ∧ dom (jobs w') = dom (jobs w)
      ∧ statuses_written reqs = replicate k (running_status j) ++ tail
      ∧ (tail = [] ∨ (r = Ok tt ∧ ∃ t, terminal t ∧ tail = [(j, t)])).
Proof.
  assert (∀ w r w1,
            process_job_attempt env j w = (r, w1) → (∀ e, r ≠ Raise e) ∨ True →
            ∀ e, r = Raise e →
            ∃ reqs k,
              store_log w1 = store_log w ++ reqs ∧ dom (jobs w1) = dom (jobs w)
              ∧ statuses_written reqs = replicate k (running_status j)) as Hraise.
  { intros w r w1 Hrun _ e ->.
    destruct (process_job_attempt_writes env j w _ _ Hrun)
      as (reqs & Hl & Hd & [(e' & _ & [Hs|Hs])|[[=] _]]).
    - exists reqs, 0%nat. by rewrite Hs.
    - exists reqs, 1%nat. by rewrite Hs. }
  induction fuel as [|fuel IH]; intros n w r a w' Hloop; simpl in Hloop;
    destruct (process_job_attempt env j w) as [r1 w1] eqn:Hrun.
  - destruct r1 as [[]|e].
    + injection Hloop as <- <- <-.
      destruct (process_job_attempt_writes env j w _ _ Hrun)
        as (reqs & Hl & Hd & [(e' & [=] & _)|[_ (t & Ht & Hs)]]).
      exists reqs, 1%nat, [(j, t)]. split_and!; [done..|]. right. eauto.
    + destruct (Hraise w _ _ Hrun (or_intror I) e eq_refl) as (reqs & k & Hl & Hd & Hs).
      simpl in Hloop.
      assert (r = Raise e ∧ w' = w1) as [-> ->]
        by (destruct (stop_after_attempt _ n); by injection Hloop as <- <- <-).
      exists reqs, k, []. rewrite app_nil_r. split_and!; [done..|]. by left.
  - destruct r1 as [[]|e].
    + injection Hloop as <- <- <-.
      destruct (process_job_attempt_writes env j w _ _ Hrun)
        as (reqs & Hl & Hd & [(e' & [=] & _)|[_ (t & Ht & Hs)]]).
      exists reqs, 1%nat, [(j, t)]. split_and!; [done..|]. right. eauto.
    + destruct (Hraise w _ _ Hrun (or_intror I) e eq_refl) as (reqs & k & Hl & Hd & Hs).
      simpl in Hloop.
      destruct (stop_after_attempt _ n).
      * injection Hloop as <- <- <-.
        exists reqs, k, []. rewrite app_nil_r. split_and!; [done..|]. by left.
      * apply IH in Hloop as (reqs' & k' & tail & Hl' & Hd' & Hs' & Ht).
        simpl in Hl', Hd'.
        exists (reqs ++ reqs'), (k + k')%nat, tail. split_and!.
        -- by rewrite Hl', Hl, app_assoc.
        -- by rewrite Hd'.
        -- by rewrite statuses_written_app, Hs, Hs', replicate_add, app_assoc.
        -- done.
Qed.

Lemma new_requests_app w w' reqs :
  store_log w' = store_log w ++ reqs → new_requests w w' = reqs.
Proof. intros H. unfold new_requests. by rewrite H, drop_app_length. Qed.

(** The writes of one [process_job] call, retries included. *)
Lemma process_job_writes j w :
  ∃ reqs k tail,
    store_log (snd (process_job env j w)) = store_log w ++ reqs
    ∧ dom (jobs (snd (process_job env j w))) = dom (jobs w)
    ∧ statuses_written reqs = replicate k (running_status j) ++ tail
    ∧ (tail = []
       ∨ (fst (process_job env j w) = Ok tt ∧ ∃ t, terminal t ∧ tail = [(j, t)])).
Proof.
  unfold process_job, retry_configured, retrying.
  destruct (retry_loop _ _ _ _ _ _ w) as [[r a] w'] eqn:Hloop.
  apply process_job_loop_writes in Hloop. exact Hloop.
Qed.

Lemma create_writes request w r w' :
  generate_workflow_async env request w = (r, w') →
  (store_log w' = store_log w ∧ jobs w' = jobs w)
  ∨ (∃ row, store_log w' = store_log w ++ [mkReq (Insert row) false]
            ∧ jobs w' = jobs w)
  ∨ (∃ row id, dict_get row "id" = VStr id ∧ jobs w !! id = None
               ∧ store_log w' = store_log w ++ [mkReq (Insert row) true]
               ∧ jobs w' = <[id := row]> (jobs w)).
Proof.
  unfold generate_workflow_async.
  case_bool_decide; [intros [= <- <-]; by left|].
  destruct (json_body request) as [payload|e]; [|intros [= <- <-]; by left].
  unfold bind at 1, lift_result at 1.
  destruct (_extract_prompt payload) as [prompt|e] eqn:Hp;
    [|intros [= <- <-]; by left].
  case_bool_decide; [intros [= <- <-]; by left|].
  destruct payload as [| | | | |d]; try done.
  unfold bind at 1. rewrite requester_id_pure.
  destruct (requester env request) as [uid|e]; [|intros [= <- <-]; by left].
  unfold bind at 1, utc_now. unfold bind at 1, randint.
  unfold bind at 1, lift_result, py_get. unfold bind at 1. unfold bind at 1.
  unfold bind at 1. unfold bind at 1.
  match goal with |- context [store_insert env ?row ?w0] =>
    destruct (store_insert env row w0) as [r1 w1] eqn:Hins;
    apply store_insert_cases in Hins
      as [(e & -> & ->)|(id & Hid & Hfresh & -> & ->)] end.
  - intros [= <- <-]. right. left. eexists. simpl. split; reflexivity.
  - intros [= <- <-]. right. right. eexists _, id. simpl.
    split_and!; [exact Hid|exact Hfresh|done..].
Qed.

Lemma status_read_writes request jid w r w' :
  workflow_status env request jid w = (r, w') →
  jobs w' = jobs w
  ∧ ∃ reqs, store_log w' = store_log w ++ reqs ∧ statuses_written reqs = [].
Proof.
  assert (jobs w = jobs w ∧ ∃ reqs, store_log w = store_log w ++ reqs
                                   ∧ statuses_written reqs = []) as Hsame.
  { split; [done|]. exists []. by rewrite app_nil_r. }
  unfold workflow_status. case_bool_decide; [by intros [= <- <-]|].
  fold (resolved_job_id request jid).
  destruct (_ || _); [by intros [= <- <-]|].
  unfold bind at 1. rewrite requester_id_pure.
  destruct (requester env request) as [uid|e]; [|by intros [= <- <-]].
  unfold bind at 1.
  destruct (store_get_cases env (resolved_job_id request jid) w)
    as [(e & _ & ->)|[_ ->]].
  - intros [= <- <-]. simpl. split; [done|]. by eexists [_].
  - destruct (truthy_row _) as [job|];
      [|intros [= <- <-]; simpl; split; [done|]; by eexists [_]].
    destruct (match uid with Some _ => _ | None => _ end);
      [intros [= <- <-]; simpl; split; [done|]; by eexists [_]|].
    destruct (job !! "id"); intros [= <- <-]; simpl;
      (split; [done|]; by eexists [_]).
Qed.

Lemma process_operation_world j w :
  ∃ w1, (w1 = w ∨ w1 = snd (process_job env j w))
        ∧ jobs (run_operation env (Process j) w) = jobs w1
        ∧ store_log (run_operation env (Process j) w) = store_log w1.
Proof.
  unfold run_operation. destruct (stop_event w) eqn:Hs.
  - exists w. simpl. rewrite Hs. auto.
  - rewrite worker_loop_step by done. unfold process_job_task.
    exists (snd (process_job env j w)). split; [by right|].
    destruct (process_job env j w) as [[[]|e] w1]; simpl;
      by destruct (stop_event w1).
Qed.

(** What one operation sends: it never writes [queued] to a job that exists. *)
Lemma operation_writes op w :
  ∃ reqs,
    store_log (run_operation env op w) = store_log w ++ reqs
    ∧ dom (jobs w) ⊆ dom (jobs (run_operation env op w))
    ∧ ∀ j, (j, VStr "queued") ∈ statuses_written reqs → j ∉ dom (jobs w).
Proof.
  destruct op as [request|j|request jid].
  - simpl. destruct (generate_workflow_async env request w) as [r w'] eqn:Hrun.
    destruct (create_writes request w r w' Hrun)
      as [[Hl Hj]|[(row & Hl & Hj)|(row & id & Hid & Hfresh & Hl & Hj)]]; simpl.
    + exists []. rewrite app_nil_r, Hj. split_and!; [done..|]. intros j Hin.
      by apply elem_of_nil in Hin.
    + exists [mkReq (Insert row) false]. rewrite Hj. split_and!; [done..|].
      intros j Hin. by apply elem_of_nil in Hin.
    + exists [mkReq (Insert row) true]. rewrite Hj. split_and!; [done| |].
      * rewrite dom_insert_L. set_solver.
      * intros j. unfold statuses_written, status_written. simpl. rewrite Hid.
        destruct (row !! "status"); simpl; [|by intros ?%elem_of_nil].
        intros Hin%list_elem_of_singleton. injection Hin as -> _.
        by apply not_elem_of_dom.
  - destruct (process_operation_world j w) as (w1 & [->| ->] & Hj & Hl).
    + exists []. rewrite app_nil_r, Hj. split_and!; [done..|]. intros j' Hin.
      by apply elem_of_nil in Hin.
    + destruct (process_job_writes j w) as (reqs & k & tail & Hl' & Hd & Hs & Ht).
      exists reqs. rewrite Hl, Hj, Hd. split_and!; [done..|].
      intros j'. rewrite Hs. intros Hin%elem_of_app. exfalso.
      destruct Hin as [Hin|Hin].
      * apply elem_of_replicate in Hin as [[=] _].
      * destruct Ht as [->|(_ & t & [-> | ->] & ->)].
        -- by apply elem_of_nil in Hin.
        -- by apply list_elem_of_singleton in Hin.
        -- by apply list_elem_of_singleton in Hin.
  - simpl. destruct (workflow_status env request jid w) as [r w'] eqn:Hrun.
    destruct (status_read_writes request jid w r w' Hrun) as (Hj & reqs & Hl & Hs).
    exists reqs. simpl. rewrite Hj, Hs. split_and!; [done..|].
    intros j Hin. by apply elem_of_nil in Hin.
Qed.

Lemma operations_write ops :
  ∀ w, ∃ reqs,
    store_log (run_operations env ops w) = store_log w ++ reqs
    ∧ dom (jobs w) ⊆ dom (jobs (run_operations env ops w))
    ∧ ∀ j, (j, VStr "queued") ∈ statuses_written reqs → j ∉ dom (jobs w).
Proof.
  induction ops as [|op ops IH]; intros w.
  - exists []. simpl. rewrite app_nil_r. split_and!; [done..|].
    intros j Hin. by apply elem_of_nil in Hin.
  - destruct (operation_writes op w) as (reqs1 & Hl1 & Hd1 & Hq1).
    destruct (IH (run_operation env op w)) as (reqs2 & Hl2 & Hd2 & Hq2).
    exists (reqs1 ++ reqs2).
    change (run_operations env (op :: ops) w)
      with (run_operations env ops (run_operation env op w)).
    split_and!.
    + by rewrite Hl2, Hl1, app_assoc.
    + set_solver.
    + intros j. rewrite statuses_written_app. intros [Hin|Hin]%elem_of_app.
      * by apply Hq1.
      * apply Hq2 in Hin. set_solver.
Qed.

(** C2 (as amended).  Whatever the operations (creations, worker-run
    [process_job] calls, status reads), none writes "queued" to a job that
    already exists; a status read leaves the table alone and writes no
    status; and the status writes of one [process_job] call, retries
    included, are "running" any number of times followed by at most one
    terminal status, which ends the call with a normal return. *)
Theorem status_moves_forward :
  (∀ ops w j,
     j ∈ dom (jobs w) →
     (j, VStr "queued")
       ∉ statuses_written (new_requests w (run_operations env ops w)))
  ∧ (∀ request jid w,
       jobs (run_operation env (ReadStatus request jid) w) = jobs w
       ∧ statuses_written
           (new_requests w (run_operation env (ReadStatus request jid) w)) = [])
  ∧ (∀ j w,
       ∃ k tail,
         statuses_written (new_requests w (snd (process_job env j w)))
           = replicate k (j, VStr "running") ++ tail
         ∧ (tail = []
            ∨ (fst (process_job env j w) = Ok tt
               ∧ ∃ t, terminal t ∧ tail = [(j, t)]))).
Proof.
  split_and!.
  - intros ops w j Hj Hin.
    destruct (operations_write ops w) as (reqs & Hl & _ & Hq).
    rewrite (new_requests_app _ _ _ Hl) in Hin. by apply Hq in Hin.
  - intros request jid w. simpl.
    destruct (workflow_status env request jid w) as [r w'] eqn:Hrun.
    destruct (status_read_writes request jid w r w' Hrun) as (Hj & reqs & Hl & Hs).
    split; [exact Hj|]. simpl. by rewrite (new_requests_app _ _ _ Hl).
  - intros j w.
    destruct (process_job_writes j w) as (reqs & k & tail & Hl & _ & Hs & Ht).
    exists k, tail. by rewrite (new_requests_app _ _ _ Hl).
Qed.
End Forward2.


Lemma status_moves_forward_witness :
  (let ops := [Process "job_1"; ReadStatus (poll_as None) None;
               Create create_request; Process "job_1"] in
   ("job_1", VStr "queued")
     ∉ statuses_written (new_requests w_test (run_operations env0 ops w_test)))
  ∧ jobs (run_operation env0 (ReadStatus (poll_as None) None) w_test) = jobs w_test.
Proof.
  destruct (status_moves_forward env0) as (Hq & Hread & _).
  split.
  - apply Hq. apply elem_of_dom. exists row_completed. reflexivity.
  - apply Hread.
Defined.

(** Processing a job a second time takes it from completed back to
    running; when the completed write of the second run fails, the job that
    was completed ends failed. *)
Lemma reprocessing_counterexample :
  status_history job1 (store_log (run_operations env0 reprocess_ops w0))
  = [VStr "queued"; VStr "running"; VStr "completed"; VStr "running"; VStr "completed"]
  ∧ ¬ forward_only
        (status_history job1 (store_log (run_operations env0 reprocess_ops w0)))
  ∧ ((λ row, dict_get row "status")
       <$> jobs (run_operations env_rewrite_fails
                   [Create create_request; Process job1] w0) !! job1)
    = Some (VStr "completed")
  ∧ ((λ row, dict_get row "status")
       <$> jobs (run_operations env_rewrite_fails reprocess_ops w0) !! job1)
    = Some (VStr "failed").
Proof.
  assert (status_history job1 (store_log (run_operations env0 reprocess_ops w0))
          = [VStr "queued"; VStr "running"; VStr "completed"; VStr "running";
             VStr "completed"]) as Hh by (vm_compute; reflexivity).
  split_and!; [exact Hh| |vm_compute; reflexivity|vm_compute; reflexivity].
  rewrite Hh. intros Hfw.
  destruct (Hfw 2%nat 3%nat (VStr "completed") (VStr "running")) as [_ Hterm];
    [lia|reflexivity|reflexivity|].
  discriminate Hterm. by left.
Qed.


(** * The code around the job pipeline: properties *)

(** ** Retrying a database action *)

Section RetryBounds.
Context (env : Env).

Lemma retry_loop_last_invocation {A} (fn : M A) wait m :
  ∀ (fuel : nat) n w,
    (Z.to_nat (m - n) <= fuel)%nat →
    ∃ k : nat,
      (k <= Z.to_nat (m - n))%nat
      ∧ retry_loop retry_if_exception_type_Exception (stop_after_attempt m) wait
          fuel n fn w
        = (fst (fn (attempt_world wait fn n k w)), n + Z.of_nat k,
           snd (fn (attempt_world wait fn n k w)))
      ∧ ∀ i, (i < k)%nat → ∃ e, fst (fn (attempt_world wait fn n i w)) = Raise e.
Proof.
  induction fuel as [|fuel IH]; intros n w Hfuel.
  - exists 0%nat. split; [lia|]. split; [|intros i Hi; lia].
    simpl. destruct (fn w) as [[a|e] w1]; simpl; rewrite ?Z.add_0_r; [done|].
    assert (stop_after_attempt m n = true) as -> by (apply Z.leb_le; lia). done.
  - simpl. destruct (fn w) as [[a|e] w1] eqn:Hfn.
    + exists 0%nat. split; [lia|]. split; [|intros i Hi; lia].
      simpl. by rewrite Hfn, Z.add_0_r.
    + simpl. destruct (stop_after_attempt m n) eqn:Hs.
      * exists 0%nat. split; [lia|]. split; [|intros i Hi; lia].
        simpl. by rewrite Hfn, Z.add_0_r.
      * apply Z.leb_gt in Hs.
        destruct (IH (n + 1) (add_sleep (wait n) w1)) as (k & Hk & Hrun & Hpre); [lia|].
        exists (S k). split; [lia|]. split.
        -- rewrite Hrun.
           replace (n + Z.of_nat (S k)) with (n + 1 + Z.of_nat k) by lia.
           simpl. by rewrite Hfn.
        -- intros [|i] Hi; simpl; rewrite Hfn; [by exists e|].
           apply Hpre. lia.
Qed.

(** X1.  [execute_with_retry(action)] gives exactly what the last invocation
    of [action] gave: for some [k] below [max 1 max_retries] the first [k]
    invocations raised, each followed by its back-off sleep, and the result
    and the final world are those of invocation [k + 1], which is also what
    the attempt counter reads. *)
Theorem execute_with_retry_outcome {A} (action : M A) (w : World) :
  ∃ k : nat,
    Z.of_nat k < Z.max 1 (max_retries (settings env))
    ∧ execute_with_retry env action w = action (invocation_world env action k w)
    ∧ snd (fst (retrying env action w)) = Z.of_nat k + 1
    ∧ ∀ i, (i < k)%nat →
        ∃ e, fst (action (invocation_world env action i w)) = Raise e.
Proof.
  destruct (retry_loop_last_invocation action (retry_wait env)
              (max_retries (settings env))
              (Z.to_nat (max_retries (settings env))) 1 w) as (k & Hk & Hrun & Hpre);
    [lia|].
  exists k. split; [lia|].
  unfold execute_with_retry, retry_configured, retrying. rewrite Hrun.
  unfold invocation_world. split_and!; [|simpl; lia|exact Hpre].
  by destruct (action _).
Qed.

(** X2.  The delay before a retry is never below
    [max 0 retry_base_seconds], never above the larger of that floor and
    [retry_max_seconds], and never shrinks from one attempt to the next. *)
Theorem retry_wait_bounds (n n' : Z) :
  let floor := Qmax 0 (retry_base_seconds (settings env)) in
  (floor <= retry_wait env n)%Q
  ∧ (retry_wait env n <= Qmax floor (retry_max_seconds (settings env)))%Q
  ∧ (n <= n' → (retry_wait env n <= retry_wait env n')%Q).
Proof.
  intros floor. unfold retry_wait, wait_exponential. fold floor. split_and!.
  - apply Q.le_max_l.
  - apply Q.max_le_compat_l. apply Q.le_min_r.
  - intros Hn. apply Q.max_le_compat_l. apply Q.min_le_compat_r.
    rewrite <- Zle_Qle, !Z.mul_1_l.
    destruct (Z.le_gt_cases 0 (n - 1)).
    + apply Z.pow_le_mono_r; lia.
    + rewrite (Z.pow_neg_r 2 (n - 1)) by lia. apply Z.pow_nonneg. lia.
Qed.
End RetryBounds.

Lemma retry_wait_bounds_witness :
  (retry_wait env_base3 2 <= retry_wait env_base3 5)%Q.
Proof.
  destruct (retry_wait_bounds env_base3 2 5) as (_ & _ & H). apply H. lia.
Defined.

(** ** Prompts *)

Section Strings.

Lemma string_app_cons c (s t : string) : String c s +:+ t = String c (s +:+ t).
Proof. reflexivity. Qed.

Lemma string_app_nil_l (t : string) : "" +:+ t = t.
Proof. reflexivity. Qed.

Lemma string_app_assoc (s1 s2 s3 : string) :
  (s1 +:+ s2) +:+ s3 = s1 +:+ (s2 +:+ s3).
Proof.
  induction s1 as [|c s1 IH]; [done|]. by rewrite !string_app_cons, IH.
Qed.

Lemma string_app_nil_r (s : string) : s +:+ "" = s.
Proof. induction s as [|c s IH]; [done|]. by rewrite string_app_cons, IH. Qed.

Lemma rev_app_spec (s t : string) :
  String.rev_app s t = String.rev s +:+ t.
Proof.
  unfold String.rev. revert t. induction s as [|c s IH]; intros t; simpl; [done|].
  rewrite (IH (String c t)), (IH (String c "")), string_app_assoc.
  by rewrite string_app_cons, string_app_nil_l.
Qed.

Lemma rev_cons c (s : string) : String.rev (String c s) = String.rev s +:+ String c "".
Proof. unfold String.rev at 1. simpl. apply rev_app_spec. Qed.

Lemma rev_app_distr (s t : string) :
  String.rev (s +:+ t) = String.rev t +:+ String.rev s.
Proof.
  induction s as [|c s IH].
  - by rewrite string_app_nil_l, string_app_nil_r.
  - by rewrite string_app_cons, !rev_cons, IH, string_app_assoc.
Qed.

Lemma rev_involutive (s : string) : String.rev (String.rev s) = s.
Proof.
  induction s as [|c s IH]; [done|].
  rewrite rev_cons, rev_app_distr, IH. done.
Qed.

(** What [strip_go] drops is a prefix. *)
Lemma strip_go_split width s : ∀ skip, ∃ p, s = p +:+ strip_go width skip s.
Proof.
  induction s as [|c s IH]; intros skip; simpl; [by exists ""|].
  destruct skip as [|k].
  - destruct (width (String c s)) as [|k]; [by exists ""|].
    destruct (IH k) as [p Hp]. exists (String c p). by rewrite string_app_cons, <- Hp.
  - destruct (IH k) as [p Hp]. exists (String c p). by rewrite string_app_cons, <- Hp.
Qed.

(** Where [strip_go] stops there is no white space. *)
Lemma strip_go_clean width s :
  width "" = 0%nat → ∀ skip, width (strip_go width skip s) = 0%nat.
Proof.
  intros Hnil. induction s as [|c s IH]; intros skip; simpl; [done|].
  destruct skip as [|k]; [|apply IH].
  destruct (width (String c s)) as [|k] eqn:Hw; [done|apply IH].
Qed.

Lemma strip_go_fixed width s : width s = 0%nat → strip_go width 0 s = s.
Proof. intros Hw. destruct s as [|c s]; simpl; [done|]. by rewrite Hw. Qed.

Lemma blank_go_strip s :
  ∀ skip, blank_go skip s = true → strip_go space_width skip s = "".
Proof.
  induction s as [|c s IH]; intros skip; simpl; [done|].
  destruct skip as [|k]; [|apply IH].
  destruct (space_width (String c s)) as [|k]; [done|apply IH].
Qed.

(** The first character of a string is the first character of every string
    it starts. *)
Lemma utf8_head_app s t x : utf8_head s = Some x → utf8_head (s +:+ t) = Some x.
Proof.
  destruct s as [|b0 s]; [done|]. rewrite string_app_cons. cbn [utf8_head].
  repeat (destruct (_ <? _)%N; [try done|]); try done.
  - destruct s as [|b1 s]; [done|]. by rewrite string_app_cons.
  - destruct s as [|b1 [|b2 s]]; [done..|]. by rewrite !string_app_cons.
  - destruct s as [|b1 [|b2 [|b3 s]]]; [done..|]. by rewrite !string_app_cons.
Qed.

Lemma starts_clean_app (s t : string) : starts_clean (s +:+ t) → starts_clean s.
Proof.
  unfold starts_clean, space_width. intros Hst.
  destruct (utf8_head s) as [[cp width]|] eqn:Hs; [|done].
  by rewrite (utf8_head_app s t _ Hs) in Hst.
Qed.

Lemma lstrip_clean s : starts_clean (lstrip s).
Proof. by apply strip_go_clean. Qed.

Lemma rstrip_clean s : ends_clean (rstrip s).
Proof.
  unfold ends_clean, rstrip. rewrite rev_involutive. by apply strip_go_clean.
Qed.

(** [rstrip] keeps a beginning of the string. *)
Lemma rstrip_split s : ∃ p, s = rstrip s +:+ p.
Proof.
  unfold rstrip. destruct (strip_go_split space_width_rev (String.rev s) 0) as [p Hp].
  exists (String.rev p). rewrite <- rev_app_distr, <- Hp. by rewrite rev_involutive.
Qed.

Lemma strip_trimmed s : trimmed (strip s).
Proof.
  unfold strip. split; [|apply rstrip_clean].
  destruct (rstrip_split (lstrip s)) as [p Hp].
  apply (starts_clean_app _ p). rewrite <- Hp. apply lstrip_clean.
Qed.

Lemma strip_fixed s : trimmed s → strip s = s.
Proof.
  intros [Hs He]. unfold strip, lstrip, rstrip.
  rewrite (strip_go_fixed _ s Hs), (strip_go_fixed _ _ He). apply rev_involutive.
Qed.

Lemma strip_blank s : blank s = true → strip s = "".
Proof.
  intros H. unfold strip, lstrip. by rewrite (blank_go_strip s 0 H).
Qed.

(** [strip] on a few strings, as Python answers: white space of one, two
    and three bytes goes from both ends and stays inside; U+00E0, whose
    encoding ends with the byte that ends U+00A0's, and U+200B, the zero
    width space, which is not white space, stay. *)
Lemma strip_examples :
  strip (nbsp +:+ " a" +:+ emsp +:+ "b " +:+ emsp) = "a" +:+ emsp +:+ "b"
  ∧ strip (String "009" (String "194" (String "133" ""))) = ""
  ∧ strip (String "195" (String "160" "")) = String "195" (String "160" "")
  ∧ strip (String "226" (String "128" (String "139" "")))
    = String "226" (String "128" (String "139" "")).
Proof. split_and!; vm_compute; reflexivity. Qed.

(** X3.  A prompt that [_extract_prompt] returns has no white space at
    either end, and stripping it again changes nothing. *)
Theorem extract_prompt_trimmed payload prompt :
  _extract_prompt payload = Ok prompt →
  trimmed prompt ∧ strip prompt = prompt.
Proof.
  unfold _extract_prompt. destruct payload as [| | | | |d]; try done.
  destruct (py_or _ _) as [| | |s| |]; try done.
  intros [= <-]. split; [apply strip_trimmed|].
  apply strip_fixed, strip_trimmed.
Qed.

(** X4.  Which field gives the prompt.  A non-empty string [prompt] is
    taken (stripped), and when it is blank the result is empty whatever the
    [description] says; a falsy [prompt] gives way to a string
    [description]; when both are falsy the prompt is empty; a truthy
    [prompt] that is not a string raises [AttributeError]. *)
Theorem extract_prompt_precedence (d : gmap string value) :
  (∀ p, dict_get d "prompt" = VStr p → p ≠ "" →
        _extract_prompt (VDict d) = Ok (strip p)
        ∧ (blank p = true → _extract_prompt (VDict d) = Ok ""))
  ∧ (truthy (dict_get d "prompt") = false →
     ∀ q, dict_get d "description" = VStr q →
          _extract_prompt (VDict d) = Ok (strip q))
  ∧ (truthy (dict_get d "prompt") = false →
     truthy (dict_get d "description") = false →
     _extract_prompt (VDict d) = Ok "")
  ∧ (truthy (dict_get d "prompt") = true →
     (∀ p, dict_get d "prompt" ≠ VStr p) →
     ∃ e, _extract_prompt (VDict d) = Raise e ∧ exc_type e = "AttributeError").
Proof.
  unfold _extract_prompt, py_or. split_and!.
  - intros p Hp Hne. rewrite Hp.
    assert (truthy (VStr p) = true) as Ht.
    { simpl. by case_bool_decide. }
    rewrite Ht. cbv iota. rewrite Ht. cbv iota.
    split; [reflexivity|]. intros Hb. by rewrite (strip_blank p Hb).
  - intros Hf q Hq. rewrite Hf. cbv iota. rewrite Hq.
    destruct (truthy (VStr q)) eqn:Ht; [reflexivity|].
    simpl in Ht. case_bool_decide; [by subst|done].
  - intros Hf Hf'. rewrite Hf. cbv iota. by rewrite Hf'.
  - intros Ht Hns. rewrite Ht. cbv iota. rewrite Ht. cbv iota.
    destruct (dict_get d "prompt") as [| | |p| |] eqn:Hp; eauto.
    by destruct (Hns p).
Qed.
End Strings.

Lemma extract_prompt_trimmed_witness :
  trimmed "build a form" ∧ strip "build a form" = "build a form".
Proof.
  apply (extract_prompt_trimmed
           (VDict {[ "prompt" := VStr (nbsp +:+ " build a form " +:+ emsp) ]})).
  vm_compute. reflexivity.
Defined.

Lemma extract_prompt_precedence_witness :
  _extract_prompt
    (VDict (list_to_map [("prompt", VStr (" " +:+ nbsp +:+ emsp));
                         ("description", VStr "build a form")]))
  = Ok "".
Proof.
  destruct (extract_prompt_precedence
              (list_to_map [("prompt", VStr (" " +:+ nbsp +:+ emsp));
                            ("description", VStr "build a form")]))
    as (H & _).
  destruct (H (" " +:+ nbsp +:+ emsp)) as [_ Hb]; [reflexivity|done|].
  apply Hb. reflexivity.
Defined.

(** ** Generation *)

Section Generation.
Context (env : Env).

Lemma generate_payload_empty payload w :
  _extract_prompt payload = Ok "" →
  _generate_workflow_payload env payload w = (Raise (ValueError prompt_required), w).
Proof.
  intros Hp. unfold _generate_workflow_payload, bind, lift_result. by rewrite Hp.
Qed.

(** With a prompt and the data files at hand, the generation is one call
    to the model and never raises. *)
Lemma generate_payload_call payload prompt guide template w :
  _extract_prompt payload = Ok prompt → prompt ≠ "" →
  get_node_reference env = Ok guide →
  get_prompt_template env "workflow_generation"
    [("reference_guide", guide); ("user_prompt", prompt)] = Ok template →
  _generate_workflow_payload env payload w
  = match ollama_chat env (ollama_calls w) prompt (system_prompt_of template) with
    | Raise e =>
        (Ok (_fallback_workflow prompt), add_log (fallback_warning e) (tick_ollama w))
    | Ok content =>
        (Ok (if bool_decide (strip content = "") then _fallback_workflow prompt
             else default (_fallback_workflow prompt) (json_loads env (strip content))),
         tick_ollama w)
    end.
Proof.
  intros Hp Hne Hg Ht.
  unfold _generate_workflow_payload, bind at 1, lift_result at 1. rewrite Hp.
  rewrite bool_decide_false by done.
  unfold bind at 1, lift_result at 1. rewrite Hg.
  unfold bind at 1, lift_result at 1. rewrite Ht.
  fold (system_prompt_of template).
  unfold try_except, bind, _call_ollama.
  destruct (ollama_chat env (ollama_calls w) prompt (system_prompt_of template))
    as [content|e]; [|done].
  rewrite lookup_singleton_eq. simpl.
  case_bool_decide; [done|]. by destruct (json_loads env (strip content)).
Qed.

(** X5.  When [_generate_workflow_payload] raises it has changed nothing:
    no model call was made and nothing was logged.  An empty prompt is one
    such case, raised as the [ValueError] "Prompt is required and must be a
    non-empty string". *)
Theorem generate_payload_raises_early payload w :
  (∀ e w', _generate_workflow_payload env payload w = (Raise e, w') → w' = w)
  ∧ (_extract_prompt payload = Ok "" →
     _generate_workflow_payload env payload w
       = (Raise (ValueError prompt_required), w)).
Proof.
  split.
  - intros e w'.
    unfold _generate_workflow_payload, bind, lift_result, try_except, _call_ollama,
      logger_warning, modify, ret, raise.
    destruct (_extract_prompt payload) as [prompt|e0]; [|by intros [= _ <-]].
    case_bool_decide; [by intros [= _ <-]|].
    destruct (get_node_reference env) as [guide|e0]; [|by intros [= _ <-]].
    destruct (get_prompt_template env _ _) as [tpl|e0]; [|by intros [= _ <-]].
    destruct (ollama_chat env _ _ _) as [content|e0]; simpl; [|done].
    rewrite lookup_singleton_eq. simpl.
    case_bool_decide; [done|]. by destruct (json_loads env _).
  - intros Hp. unfold _generate_workflow_payload, bind, lift_result. by rewrite Hp.
Qed.

End Generation.

Lemma generate_payload_raises_early_witness :
  _generate_workflow_payload env0 (VDict {[ "prompt" := VStr (nbsp +:+ " ") ]}) w0
  = (Raise (ValueError prompt_required), w0).
Proof.
  apply generate_payload_raises_early. vm_compute. reflexivity.
Defined.


(** ** The synchronous endpoint *)

Section SyncEndpointProperties.
Context (env : Env) (isinstance_ValueError : Exn → bool).

Lemma stream_starts_with_phases payload w r w' :
  stream env payload w = (r, w') →
  ∃ rest failure, r = Ok (Streaming (phases ++ rest) failure).
Proof.
  unfold stream.
  destruct (_generate_workflow_payload env payload w) as [[result|e] w1].
  2:{ intros [= <- _]. exists [], (Some e). by rewrite app_nil_r. }
  destruct (py_in "nodes" result) as [[]|e].
  3:{ intros [= <- _]. exists [], (Some e). by rewrite app_nil_r. }
  - destruct (py_in "edges" result) as [[]|e].
    + destruct (py_setdefault result "status" (VStr "completed")) as [r'|e];
        intros [= <- _]; [by eexists [_], _|].
      exists [], (Some e). by rewrite app_nil_r.
    + intros [= <- _]. by eexists [_], _.
    + intros [= <- _]. exists [], (Some e). by rewrite app_nil_r.
  - intros [= <- _]. by eexists [_], _.
Qed.

(** X7.  [generate_workflow] without streaming, on a request with a JSON
    body: the job table and the store are never touched; an empty prompt is
    answered 400 with the world unchanged; a non-empty prompt with the data
    files at hand is answered 200 after one model call; and an exception of
    the generation is answered 400 when it is a [ValueError] and 500
    otherwise, with [str(exc)] as the error. *)
Theorem generate_workflow_sync request header payload w :
  method request ≠ "OPTIONS" → json_body request = Ok payload →
  header ≠ Some "true" →
  let run := generate_workflow env isinstance_ValueError request header w in
  jobs (snd run) = jobs w ∧ store_log (snd run) = store_log w
  ∧ (_extract_prompt payload = Ok "" →
     isinstance_ValueError (ValueError prompt_required) = true →
     run = (Ok (Json (VDict {[ "error" := VStr prompt_required ]}) 400), w))
  ∧ (∀ prompt guide template,
       _extract_prompt payload = Ok prompt → prompt ≠ "" →
       get_node_reference env = Ok guide →
       get_prompt_template env "workflow_generation"
         [("reference_guide", guide); ("user_prompt", prompt)] = Ok template →
       ∃ result, fst run = Ok (Json result 200)
                 ∧ ollama_calls (snd run) = S (ollama_calls w))
  ∧ (∀ e, fst (_generate_workflow_payload env payload w) = Raise e →
       fst run = Ok (Json (VDict {[ "error" := VStr (str_exc e) ]})
                       (if isinstance_ValueError e then 400 else 500))).
Proof.
  intros Hm Hbody Hh run. unfold run, generate_workflow.
  rewrite bool_decide_false by done. rewrite Hbody.
  rewrite bool_decide_false by done.
  destruct (_generate_workflow_payload env payload w) as [r w1] eqn:Hgen.
  destruct (generate_frame env _ _ _ _ Hgen) as (Hj & Hl & _).
  split_and!.
  - by destruct r as [result|e]; [|destruct (isinstance_ValueError e)].
  - by destruct r as [result|e]; [|destruct (isinstance_ValueError e)].
  - intros Hp Hve.
    rewrite (generate_payload_empty env payload w Hp) in Hgen.
    injection Hgen as <- <-. by rewrite Hve.
  - intros prompt guide template Hp Hne Hg Ht.
    rewrite (generate_payload_call env payload prompt guide template w Hp Hne Hg Ht)
      in Hgen.
    destruct (ollama_chat env _ _ _); injection Hgen as <- <-; by eexists.
  - simpl. intros e ->. by destruct (isinstance_ValueError e).
Qed.

(** X8.  [generate_workflow] with [x-stream-progress: true]: the body
    always starts with the three phase chunks; an empty prompt does not give
    a 400 but a stream that the [ValueError] cuts after the phases; and a
    dict result is sent as the last chunk, with [status: completed] added
    when it has nodes and edges and no status of its own. *)
Theorem generate_workflow_stream request payload w :
  method request ≠ "OPTIONS" → json_body request = Ok payload →
  let run := generate_workflow env isinstance_ValueError request (Some "true") w in
  (∃ rest failure, fst run = Ok (Streaming (phases ++ rest) failure))
  ∧ (_extract_prompt payload = Ok "" →
     run = (Ok (Streaming phases (Some (ValueError prompt_required))), w))
  ∧ (∀ d, fst (_generate_workflow_payload env payload w) = Ok (VDict d) →
       fst run
       = Ok (Streaming
               (phases
                ++ [VDict (if bool_decide (is_Some (d !! "nodes"))
                              && bool_decide (is_Some (d !! "edges"))
                              && bool_decide (d !! "status" = None)
                           then <["status" := VStr "completed"]> d else d)])
               None)).
Proof.
  intros Hm Hbody run. unfold run, generate_workflow.
  rewrite bool_decide_false by done. rewrite Hbody, bool_decide_true by done.
  split_and!.
  - destruct (stream env payload w) as [r w'] eqn:Hs.
    apply stream_starts_with_phases in Hs. exact Hs.
  - intros Hp. unfold stream.
    by rewrite (generate_payload_empty env payload w Hp).
  - intros d Hgen. unfold stream.
    destruct (_generate_workflow_payload env payload w) as [r w1].
    simpl in Hgen. subst r. simpl.
    destruct (bool_decide (is_Some (d !! "nodes"))); simpl; [|done].
    destruct (bool_decide (is_Some (d !! "edges"))); simpl; [|done].
    destruct (d !! "status") as [v|] eqn:Hst.
    + by rewrite bool_decide_false.
    + by rewrite bool_decide_true.
Qed.
End SyncEndpointProperties.

Lemma generate_workflow_sync_witness :
  generate_workflow env0 is_value_error blank_sync_request None w0
  = (Ok (Json (VDict {[ "error" := VStr prompt_required ]}) 400), w0).
Proof.
  destruct (generate_workflow_sync env0 is_value_error blank_sync_request None
              (VDict {[ "prompt" := VStr "" ]}) w0) as (_ & _ & H & _);
    [done|reflexivity|done|].
  apply H; reflexivity.
Defined.

Lemma generate_workflow_stream_witness :
  generate_workflow env0 is_value_error blank_sync_request (Some "true") w0
  = (Ok (Streaming phases (Some (ValueError prompt_required))), w0).
Proof.
  destruct (generate_workflow_stream env0 is_value_error blank_sync_request
              (VDict {[ "prompt" := VStr "" ]}) w0) as (_ & H & _);
    [done|reflexivity|].
  apply H; reflexivity.
Defined.

(** ** Reading a status *)

Section StatusReads.
Context (env : Env).

Lemma workflow_status_cases request jid w r w' :
  workflow_status env request jid w = (r, w') →
  (w' = w ∧ (r = Ok cors_preflight ∨ r = Ok bad_request_response ∨ ∃ e, r = Raise e))
  ∨ (∃ served, w' = add_request (mkReq (Select (resolved_job_id request jid)) served) w
      ∧ ((∃ e, r = Raise e)
         ∨ r = Ok (not_found_response (resolved_job_id request jid))
         ∨ r = Ok forbidden_response
         ∨ ∃ job id, truthy_row (jobs w !! resolved_job_id request jid) = Some job
                     ∧ r = Ok (_json_response (status_view job id) 200))).
Proof.
  unfold workflow_status. case_bool_decide; [intros [= <- <-]; left; eauto|].
  fold (resolved_job_id request jid).
  destruct (_ || _); [intros [= <- <-]; left; eauto|].
  unfold bind at 1. rewrite requester_id_pure.
  destruct (requester env request) as [uid|e]; [|intros [= <- <-]; left; eauto 6].
  unfold bind at 1.
  destruct (store_get_cases env (resolved_job_id request jid) w)
    as [(e & _ & ->)|[_ ->]].
  - intros [= <- <-]. right. eexists. split; [done|]. eauto.
  - destruct (truthy_row _) as [job|] eqn:Hjob;
      [|intros [= <- <-]; right; eexists; split; [done|]; eauto].
    fold (owner_mismatch uid job).
    destruct (owner_mismatch uid job);
      [intros [= <- <-]; right; eexists; split; [done|]; eauto|].
    destruct (job !! "id") as [id|]; intros [= <- <-]; right; eexists;
      (split; [done|]); [|eauto].
    do 3 right. by exists job, id.
Qed.

(** X9.  A 200 answer of [workflow_status] never carries both a
    [workflow] and an [error]; it carries [error_details] exactly when it
    carries [error]; and it always has [job_id], [status] and
    [progress_percentage]. *)
Theorem status_body_exclusive request jid w body w' :
  workflow_status env request jid w = (Ok (mkResponse 200 (Some body)), w') →
  ¬ (is_Some (body !! "workflow") ∧ is_Some (body !! "error"))
  ∧ (is_Some (body !! "error") ↔ is_Some (body !! "error_details"))
  ∧ is_Some (body !! "job_id") ∧ is_Some (body !! "status")
  ∧ is_Some (body !! "progress_percentage").
Proof.
  intros Hrun. apply workflow_status_cases in Hrun
    as [[_ [[=]|[[=]|[e [=]]]]]|(served & _ & [[e [=]]|[[=]|[[=]|Hview]]])].
  destruct Hview as (job & id & _ & [= ->]).
  destruct (status_view_fields job id) as (H1 & H2 & H3 & _ & _ & _ & Hw & He & Hd).
  rewrite H1, H2, H3, Hw, He, Hd.
  split; [|split; [|by eauto]].
  - intros [Hwf Herr].
    destruct (eq_str (dict_get job "status") "completed") eqn:Hc; simpl in Hwf;
      [|by destruct Hwf].
    apply eq_str_true in Hc. rewrite Hc in Herr. simpl in Herr.
    by destruct Herr.
  - destruct (eq_str (dict_get job "status") "failed"
              && truthy (dict_get job "error_message")); split; eauto;
      by intros [? ?].
Qed.

(** X10.  Reading a status twice in a row gives the same answer twice and
    leaves the job table as it was, when the store serves both lookups and
    the identity provider resolves the requester the second time as it did
    the first.  The identity provider and the store are asked anew at each
    read: [env] is how they answer the first read and [env'] how they answer
    the second. *)
Theorem status_read_idempotent (env' : Env) request jid w :
  store_fault env (length (store_log w)) = None →
  store_fault env' (S (length (store_log w))) = None →
  requester env' request = requester env request →
  let first := workflow_status env request jid w in
  fst (workflow_status env' request jid (snd first)) = fst first
  ∧ jobs (snd first) = jobs w.
Proof.
  intros F0 F1 Hsame first. unfold first.
  destruct (bool_decide (method request = "OPTIONS")) eqn:Hm.
  { unfold workflow_status. by rewrite Hm. }
  apply bool_decide_eq_false in Hm.
  destruct (reserved_job_id (resolved_job_id request jid)) eqn:Hr.
  { by rewrite !(workflow_status_reserved _ request jid _ Hm Hr). }
  destruct (requester env request) as [uid|e] eqn:Hu.
  - rewrite (workflow_status_lookup env request jid w uid Hm Hr Hu F0). simpl.
    rewrite (workflow_status_lookup env' request jid _ uid Hm Hr Hsame); [done|].
    simpl. rewrite length_app. simpl. by rewrite Nat.add_1_r.
  - assert (∀ env0 w0, requester env0 request = Raise e →
              workflow_status env0 request jid w0 = (Raise e, w0)) as Hraise.
    { intros env0 w0 Hu0. unfold workflow_status. rewrite bool_decide_false by done.
      fold (resolved_job_id request jid). unfold reserved_job_id in Hr. rewrite Hr.
      unfold bind. by rewrite requester_id_pure, Hu0. }
    rewrite (Hraise env w Hu). simpl. by rewrite (Hraise env' w Hsame).
Qed.

(** X11.  [workflow_status] is read-only whatever the request and whatever
    the store does: the job table, the clock, the random stream, the model,
    the log and the queue are untouched, and it sends at most one request to
    the store, a lookup of the resolved job id; for a reserved id it sends
    none. *)
Theorem workflow_status_read_only request jid w :
  let w' := snd (workflow_status env request jid w) in
  jobs w' = jobs w ∧ clock_reads w' = clock_reads w ∧ rand_calls w' = rand_calls w
  ∧ quiet w w'
  ∧ (store_log w' = store_log w
     ∨ ∃ served,
         store_log w'
         = store_log w ++ [mkReq (Select (resolved_job_id request jid)) served])
  ∧ (reserved_job_id (resolved_job_id request jid) = true → w' = w).
Proof.
  intros w'. subst w'.
  assert (reserved_job_id (resolved_job_id request jid) = true →
          snd (workflow_status env request jid w) = w) as Hres.
  { intros Hr. destruct (decide (method request = "OPTIONS")) as [Hm|Hm].
    - unfold workflow_status. by rewrite bool_decide_true.
    - by rewrite workflow_status_reserved. }
  destruct (workflow_status env request jid w) as [r w'] eqn:Hrun.
  simpl in *. apply workflow_status_cases in Hrun as [[-> _]|(served & -> & _)].
  - split_and!; try done. by left.
  - split_and!; try done. right. by exists served.
Qed.
End StatusReads.

Lemma status_body_exclusive_witness :
  ∃ body : gmap string value, body !! "status" = Some (VStr "completed")
          ∧ ¬ (is_Some (body !! "workflow") ∧ is_Some (body !! "error")).
Proof.
  exists (status_view row_completed (VStr "job_1")).
  split; [reflexivity|].
  apply (status_body_exclusive env0 (poll_as None) None w_test _
           (add_request (mkReq (Select "job_1") true) w_test)).
  vm_compute. reflexivity.
Defined.

Lemma status_read_idempotent_witness :
  fst (workflow_status env_users (poll_as (Some "Bearer token-a")) None
         (snd (workflow_status env_users (poll_as (Some "Bearer token-a")) None w_owned)))
  = fst (workflow_status env_users (poll_as (Some "Bearer token-a")) None w_owned).
Proof.
  apply (status_read_idempotent env_users env_users (poll_as (Some "Bearer token-a"))
           None w_owned); reflexivity.
Defined.

(** ** The success path *)

Section SuccessPath.
Context (env : Env).

(** The [try] branch after the generation call, when its write is served. *)
Lemma record_success_served j result w :
  store_fault env (length (store_log w)) = None →
  record_success env j result w
  = (Ok tt,
     add_log (mkLog "INFO" "Workflow generation job completed" [("job_id", j)])
       (add_request (mkReq (Update j (completed_fields result (timestamp env w))) true)
          (set_jobs (alter (λ row, completed_fields result (timestamp env w) ∪ row) j)
             (tick_clock w)))).
Proof.
  intros F. unfold record_success, bind, utc_now_iso, utc_now, bind, ret,
    store_update, store_request, logger_info, modify. simpl.
  by rewrite F.
Qed.

(** X12.  For a job the store holds under its id, when the store serves
    every request and the generation returns [result], [process_job]
    succeeds at the first attempt without sleeping and leaves the job
    [completed] at 100 percent with [result] as its workflow; a status read
    that passes the owner check then answers 200 with status [completed],
    progress 100, no error, and the workflow when [result] is truthy. *)
Theorem process_job_success j w job result :
  truthy_row (jobs w !! j) = Some job →
  job !! "id" = Some (VStr j) →
  (∀ i, store_fault env i = None) →
  fst (_generate_workflow_payload env (job_payload job) (running_world env j w))
    = Ok result →
  ∃ w' row,
    process_job env j w = (Ok tt, w')
    ∧ snd (fst (retrying env (process_job_attempt env j) w)) = 1
    ∧ sleeps w' = sleeps w
    ∧ jobs w' !! j = Some row
    ∧ dict_get row "status" = VStr "completed"
    ∧ dict_get row "progress_percentage" = VInt 100
    ∧ dict_get row "workflow_result" = result
    ∧ ∀ request jid uid,
        method request ≠ "OPTIONS" →
        resolved_job_id request jid = j → reserved_job_id j = false →
        requester env request = Ok uid → owner_mismatch uid job = false →
        ∃ body w'',
          workflow_status env request jid w' = (Ok (mkResponse 200 (Some body)), w'')
          ∧ body !! "status" = Some (VStr "completed")
          ∧ body !! "progress_percentage" = Some (VInt 100)
          ∧ body !! "workflow" = (if truthy result then Some result else None)
          ∧ body !! "error" = None.
Proof.
  intros Hjob Hid F Hres.
  destruct (_generate_workflow_payload env (job_payload job) (running_world env j w))
    as [r w3] eqn:Hgen. simpl in Hres. subst r.
  destruct (generate_frame env _ _ _ _ Hgen) as (Hj & Hl & _ & _ & Hsl & _).
  destruct (running_world_frame env j w) as (Hrl & Hrj & Hrs).
  eassert (process_job_attempt env j w = (Ok tt, _)) as Hrun.
  { rewrite (process_job_attempt_running env j w job Hjob (F _) (F _)).
    unfold try_except, bind at 1. rewrite Hgen.
    fold (record_success env j result).
    by rewrite record_success_served. }
  destruct (process_job_returns env j w _ Hrun) as [Hret Hproc].
  apply truthy_row_Some in Hjob as [Hrow Hsize].
  set (row := completed_fields result (timestamp env w3)
              ∪ (running_fields (timestamp env w) ∪ job)).
  assert (dict_get row "status" = VStr "completed") as Hst
    by by apply dict_get_union_l.
  assert (dict_get row "progress_percentage" = VInt 100) as Hpp
    by by apply dict_get_union_l.
  assert (dict_get row "workflow_result" = result) as Hwr
    by by apply dict_get_union_l.
  assert (row !! "id" = Some (VStr j)) as Hrid.
  { unfold row. rewrite !lookup_union_r by done. done. }
  assert (dict_get row "user_id" = dict_get job "user_id") as Huid.
  { unfold row. by rewrite !dict_get_union_r. }
  eexists _, row. split; [exact Hproc|]. split; [by rewrite Hret|].
  simpl. split_and!.
  - by rewrite Hsl, Hrs.
  - by rewrite Hj, Hrj, !lookup_alter_eq, Hrow.
  - done.
  - done.
  - done.
  - intros request jid uid Hm Hr Hnr Hu Hown.
    rewrite (workflow_status_lookup env request jid _ uid);
      [|done|by rewrite Hr|done|by apply F].
    rewrite Hr. simpl. rewrite Hj, Hrj, !lookup_alter_eq, Hrow. simpl. fold row.
    rewrite bool_decide_false by (apply (map_size_ne_0_lookup_2 _ "id"); eauto).
    assert (owner_mismatch uid row = false) as ->.
    { unfold owner_mismatch in *. by rewrite Huid. }
    rewrite Hrid. eexists _, _. split; [reflexivity|].
    destruct (status_view_fields row (VStr j))
      as (_ & Hs & Hp & _ & _ & _ & Hw & Herr & _).
    rewrite Hs, Hp, Hw, Herr, Hst, Hpp, Hwr. simpl. done.
Qed.
End SuccessPath.

Lemma process_job_success_witness :
  ∃ w' row,
    process_job env0 job1 w_queued = (Ok tt, w')
    ∧ jobs w' !! job1 = Some row
    ∧ dict_get row "status" = VStr "completed".
Proof.
  edestruct (process_job_success env0 job1 w_queued)
    as (w' & row & Hrun & _ & _ & Hrow & Hst & _);
    [reflexivity|reflexivity|done|vm_compute; reflexivity|].
  exists w', row. split_and!; [exact Hrun|exact Hrow|exact Hst].
Defined.

(** ** What processing leaves alone *)

Section Frames.
Context (env : Env) (R : relation World) `{!PreOrder R}.

Lemma keeps_ret {A} (a : A) : keeps R (ret a).
Proof. intros w. simpl. reflexivity. Qed.

Lemma keeps_raise {A} e : keeps R (raise (A := A) e).
Proof. intros w. simpl. reflexivity. Qed.

Lemma keeps_lift_result {A} (r : Result A) : keeps R (lift_result r).
Proof. intros w. simpl. reflexivity. Qed.

Lemma keeps_modify f : (∀ w, R w (f w)) → keeps R (modify f).
Proof. intros Hf w. apply Hf. Qed.

Lemma keeps_bind {A B} (m : M A) (k : A → M B) :
  keeps R m → (∀ a, keeps R (k a)) → keeps R (bind m k).
Proof.
  intros Hm Hk w. unfold bind. specialize (Hm w).
  destruct (m w) as [[a|e] w1]; simpl in *; [|done].
  etrans; [exact Hm|apply Hk].
Qed.

Lemma keeps_try_except {A} (body : M A) handler :
  keeps R body → (∀ e, keeps R (handler e)) → keeps R (try_except body handler).
Proof.
  intros Hm Hk w. unfold try_except. specialize (Hm w).
  destruct (body w) as [[a|e] w1]; simpl in *; [done|].
  etrans; [exact Hm|apply Hk].
Qed.

Lemma keeps_try_finally {A} (body : M A) fin :
  keeps R body → keeps R fin → keeps R (try_finally body fin).
Proof.
  intros Hm Hk w. unfold try_finally. specialize (Hm w).
  destruct (body w) as [r w1]. specialize (Hk w1).
  destruct (fin w1) as [[[]|e] w2]; simpl in *; by etrans.
Qed.

Lemma keeps_store_request {A} op (serve : M A) :
  (∀ r w, R w (add_request r w)) → keeps R serve →
  keeps R (store_request env op serve).
Proof.
  intros Hreq Hs w. unfold store_request.
  destruct (store_fault env _); [apply Hreq|].
  specialize (Hs w). destruct (serve w) as [[a|e] w1]; simpl in *;
    (etrans; [exact Hs|apply Hreq]).
Qed.

Lemma keeps_retry_loop {A} (fn : M A) retry_on stop wait :
  keeps R fn → (∀ d w, R w (add_sleep d w)) →
  ∀ fuel n w, R w (snd (retry_loop retry_on stop wait fuel n fn w)).
Proof.
  intros Hfn Hsl. induction fuel as [|fuel IH]; intros n w; simpl;
    specialize (Hfn w); destruct (fn w) as [[a|e] w1]; simpl in *; try done.
  - by destruct (negb _), (stop n).
  - destruct (negb _); [done|]. destruct (stop n); [done|].
    etrans; [exact Hfn|]. etrans; [apply Hsl|apply IH].
Qed.

Lemma keeps_retry_configured {A} (fn : M A) :
  keeps R fn → (∀ d w, R w (add_sleep d w)) → keeps R (retry_configured env fn).
Proof.
  intros Hfn Hsl w. unfold retry_configured, retrying.
  pose proof (keeps_retry_loop fn retry_if_exception_type_Exception
                (stop_after_attempt (max_retries (settings env))) (retry_wait env)
                Hfn Hsl (Z.to_nat (max_retries (settings env))) 1 w) as H.
  by destruct (retry_loop _ _ _ _ _ _ _) as [[r a] w'].
Qed.
End Frames.

Section JobFrame.
Context (env : Env) (j : string).

#[local] Instance job_frame_preorder : PreOrder (job_frame j).
Proof.
  split.
  - intros w. by repeat split.
  - intros w1 w2 w3 (Hd & Ho & Hk & Hs & Ht & Hr) (Hd' & Ho' & Hk' & Hs' & Ht' & Hr').
    split_and!; try congruence.
    + intros j' Hj'. by rewrite Ho', Ho.
    + intros k Hm. by rewrite Hk', Hk.
Qed.

(** A step that leaves the table, the control state and the random stream
    as they are. *)
Lemma job_frame_same w w' :
  jobs w' = jobs w → stop_event w' = stop_event w → tasks_done w' = tasks_done w →
  rand_calls w' = rand_calls w → job_frame j w w'.
Proof. intros Hj Hs Ht Hr. unfold job_frame. rewrite Hj. by repeat split. Qed.

Lemma job_frame_update fields :
  (∀ k, k ∉ managed_fields → fields !! k = None) →
  keeps (job_frame j) (store_update env j fields).
Proof.
  intros Hf. apply keeps_store_request; [apply _|by intros; apply job_frame_same|].
  intros w. unfold modify, job_frame. simpl. split_and!; try done.
  - apply dom_alter_L.
  - intros j' Hj'. by rewrite lookup_alter_ne.
  - intros k Hk. rewrite lookup_alter_eq. destruct (jobs w !! j) as [row|]; [|done].
    simpl. by rewrite lookup_union_r by by apply Hf.
Qed.

Lemma job_frame_clock : keeps (job_frame j) (utc_now_iso env).
Proof. intros w. by apply job_frame_same. Qed.

Lemma job_frame_generate payload :
  keeps (job_frame j) (_generate_workflow_payload env payload).
Proof.
  intros w.
  destruct (_generate_workflow_payload env payload w) as [r w'] eqn:Hgen.
  destruct (generate_frame env _ _ _ _ Hgen) as (? & _ & _ & ? & _ & ? & ?).
  by apply job_frame_same.
Qed.

Lemma managed_only (fields : list (string * value)) :
  Forall (λ kv, kv.1 ∈ managed_fields) fields →
  ∀ k, k ∉ managed_fields → (list_to_map fields : gmap string value) !! k = None.
Proof.
  intros Hall k Hk. apply not_elem_of_list_to_map_1. intros Hin.
  apply list_elem_of_fmap in Hin as (kv & -> & Hkv).
  by eapply Hk, (proj1 (Forall_forall _ _) Hall).
Qed.

Lemma process_job_attempt_frame : keeps (job_frame j) (process_job_attempt env j).
Proof.
  unfold process_job_attempt.
  apply keeps_bind; [apply _| |].
  { apply keeps_store_request; [apply _|by intros; apply job_frame_same|].
    intros w. simpl. reflexivity. }
  intros data. destruct (truthy_row data) as [job|]; [|by apply keeps_raise, _].
  apply keeps_bind; [apply _|apply job_frame_clock|]. intros started_at.
  apply keeps_bind; [apply _| |].
  { apply job_frame_update, managed_only. repeat constructor; set_solver. }
  intros _. apply keeps_try_except; [apply _| |].
  - apply keeps_bind; [apply _|apply job_frame_generate|]. intros result.
    apply keeps_bind; [apply _|apply job_frame_clock|]. intros finished_at.
    apply keeps_bind; [apply _| |].
    { apply job_frame_update, managed_only. repeat constructor; set_solver. }
    intros _. apply keeps_modify. by intros; apply job_frame_same.
  - intros exc.
    apply keeps_bind; [apply _|apply job_frame_clock|]. intros finished_at.
    apply keeps_bind; [apply _| |].
    { apply job_frame_update, managed_only. repeat constructor; set_solver. }
    intros _. apply keeps_modify. by intros; apply job_frame_same.
Qed.

Lemma process_job_keeps : keeps (job_frame j) (process_job env j).
Proof.
  apply keeps_retry_configured; [apply _|apply process_job_attempt_frame|].
  by intros; apply job_frame_same.
Qed.

(** X13.  Whatever happens while job [j] is processed, retries and faults
    included, no row is added or removed, every other row is unchanged, the
    row of [j] changes only in the columns [process_job] manages (status,
    progress_percentage, started_at, workflow_result, finished_at,
    error_message), and the queue's stop flag and task count are
    untouched. *)
Theorem process_job_frame (w : World) :
  let w' := snd (process_job env j w) in
  dom (jobs w') = dom (jobs w)
  ∧ (∀ j', j' ≠ j → jobs w' !! j' = jobs w !! j')
  ∧ (∀ row', jobs w' !! j = Some row' →
       ∃ row, jobs w !! j = Some row
              ∧ ∀ k, k ∉ managed_fields → row' !! k = row !! k)
  ∧ stop_event w' = stop_event w ∧ tasks_done w' = tasks_done w.
Proof.
  intros w'. destruct (process_job_keeps w) as (Hd & Ho & Hk & Hs & Ht & _).
  fold w' in Hd, Ho, Hk, Hs, Ht. split_and!; try done.
  intros row' Hrow'.
  assert (is_Some (jobs w !! j)) as [row Hrow].
  { apply elem_of_dom. rewrite <- Hd. apply elem_of_dom. eauto. }
  exists row. split; [done|]. intros k Hm. specialize (Hk k Hm).
  by rewrite Hrow', Hrow in Hk.
Qed.
End JobFrame.

(** ** The queue *)

Section WorkerQueue.
Context (env : Env).




#[local] Instance sends_about_preorder j : PreOrder (sends_about j).
Proof.
  split.
  - intros w. exists []. by rewrite app_nil_r.
  - intros w1 w2 w3 (r1 & H1 & F1) (r2 & H2 & F2). exists (r1 ++ r2).
    split; [by rewrite H2, H1, app_assoc|by apply Forall_app].
Qed.









End WorkerQueue.



(** ** Creating a job *)

Section CreationEffects.
Context (env : Env).

(** The ways a creation request ends. *)
Lemma create_cases request w r w' :
  generate_workflow_async env request w = (r, w') →
  (w' = w ∧ ∀ body, r ≠ Ok (mkResponse 202 body))
  ∨ (∃ row e, r = Raise e
              ∧ w' = add_request (mkReq (Insert row) false) (tick_rand (tick_clock w)))
  ∨ (∃ row body uid,
       r = Ok (mkResponse 202 (Some body))
       ∧ requester env request = Ok uid
       ∧ jobs w !! new_job_id env w = None
       ∧ row !! "id" = Some (VStr (new_job_id env w))
       ∧ row !! "user_id" = Some (from_option VStr VNone uid)
       ∧ row !! "status" = Some (VStr "queued")
       ∧ row !! "progress_percentage" = Some (VInt 0)
       ∧ row !! "workflow_result" = None ∧ row !! "error_message" = None
       ∧ row !! "progress_logs" = None ∧ row !! "observability" = None
       ∧ body !! "job_id" = Some (VStr (new_job_id env w))
       ∧ w' = add_request (mkReq (Insert row) true)
                (set_jobs (insert (new_job_id env w) row) (tick_rand (tick_clock w)))).
Proof.
  unfold generate_workflow_async.
  case_bool_decide; [intros [= <- <-]; by left|].
  destruct (json_body request) as [payload|e]; [|intros [= <- <-]; by left].
  unfold bind at 1, lift_result at 1.
  destruct (_extract_prompt payload) as [prompt|e] eqn:Hp;
    [|intros [= <- <-]; by left].
  case_bool_decide; [intros [= <- <-]; by left|].
  destruct payload as [| | | | |d]; try done.
  unfold bind at 1. rewrite requester_id_pure.
  destruct (requester env request) as [uid|e] eqn:Hu; [|intros [= <- <-]; by left].
  unfold bind at 1, utc_now. unfold bind at 1, randint.
  unfold bind at 1, lift_result, py_get. unfold bind at 1. unfold bind at 1.
  unfold bind at 1. unfold bind at 1. fold (new_job_id env w).
  match goal with |- context [store_insert env ?r0 ?w0] => set (row := r0) end.
  assert (row !! "id" = Some (VStr (new_job_id env w))) as Hrid by reflexivity.
  assert (row !! "user_id" = Some (from_option VStr VNone uid)) as Hruid by reflexivity.
  assert (row !! "status" = Some (VStr "queued")) as Hrst by reflexivity.
  assert (row !! "progress_percentage" = Some (VInt 0)) as Hrpp by reflexivity.
  assert (row !! "workflow_result" = None ∧ row !! "error_message" = None
          ∧ row !! "progress_logs" = None ∧ row !! "observability" = None)
    as (Hr1 & Hr2 & Hr3 & Hr4) by (split_and!; reflexivity).
  clearbody row.
  match goal with |- context [store_insert env row ?w0] =>
    destruct (store_insert env row w0) as [r1 w1] eqn:Hins;
    apply store_insert_cases in Hins
      as [(e & -> & ->)|(id & Hid & Hfresh & -> & ->)] end.
  - intros [= <- <-]. right. left. by eexists _, _.
  - intros [= <- <-]. right. right.
    unfold dict_get in Hid. rewrite Hrid in Hid. injection Hid as <-.
    eexists row, _, uid. split_and!; try done.
Qed.

Lemma new_job_id_not_reserved w : reserved_job_id (new_job_id env w) = false.
Proof. unfold reserved_job_id, new_job_id. by rewrite !bool_decide_false. Qed.

(** X16.  [generate_workflow_async] never calls the model, logs, sleeps or
    touches the queue; it never changes or removes a row that exists; it
    sends at most one request to the store, an insert; and the job table
    changes only when the answer is 202: not when the handler raises and not
    when nothing was sent. *)
Theorem generate_workflow_async_effects request w :
  let r := fst (generate_workflow_async env request w) in
  let w' := snd (generate_workflow_async env request w) in
  quiet w w'
  ∧ (∀ j row, jobs w !! j = Some row → jobs w' !! j = Some row)
  ∧ (store_log w' = store_log w
     ∨ ∃ row served, store_log w' = store_log w ++ [mkReq (Insert row) served])
  ∧ ((∀ body, r ≠ Ok (mkResponse 202 body)) → jobs w' = jobs w)
  ∧ ((∃ e, r = Raise e) ∨ store_log w' = store_log w → jobs w' = jobs w).
Proof.
  intros r w'. subst r w'.
  destruct (generate_workflow_async env request w) as [r w'] eqn:Hrun. simpl.
  apply create_cases in Hrun
    as [[-> Hr]|[(row & e & -> & ->)|(row & body & uid & -> & _ & Hfresh & _ & _ & _ & _
                                      & _ & _ & _ & _ & _ & ->)]].
  - split_and!; [done|done|by left|done|done].
  - split_and!; [done|done|right; by eexists _, _|done|done].
  - split_and!; [done| |right; by eexists _, _| |].
    + intros j row0 Hj. simpl. rewrite lookup_insert_ne; [done|]. by intros <-; simplify_eq.
    + intros Hr. by destruct (Hr (Some body)).
    + intros [[e [=]]|Hl]. simpl in Hl.
      apply (f_equal length) in Hl. rewrite length_app in Hl. simpl in Hl. lia.
Qed.

(** X17.  After a 202, and when the store serves the lookup, the job named
    in the answer can be read, as [queued] at 0 percent, by an anonymous
    requester, by the requester who created it, and by anyone when it was
    created anonymously; a requester identified as somebody else is
    answered 403. *)
Theorem created_job_visibility request w body :
  fst (generate_workflow_async env request w) = Ok (mkResponse 202 (Some body)) →
  let w1 := snd (generate_workflow_async env request w) in
  store_fault env (length (store_log w1)) = None →
  ∃ j creator,
    body !! "job_id" = Some (VStr j) ∧ requester env request = Ok creator
    ∧ ∀ poll jid reader,
        method poll ≠ "OPTIONS" → resolved_job_id poll jid = j →
        requester env poll = Ok reader →
        (reader = None ∨ reader = Some "" ∨ creator = None ∨ creator = Some ""
         ∨ reader = creator →
           queued_view j (fst (workflow_status env poll jid w1)))
        ∧ (∀ r c, reader = Some r → creator = Some c → r ≠ "" → c ≠ "" → r ≠ c →
             fst (workflow_status env poll jid w1) = Ok forbidden_response).
Proof.
  destruct (generate_workflow_async env request w) as [r w1'] eqn:Hrun.
  simpl. intros -> F. apply create_cases in Hrun
    as [[_ Hr]|[(row & e & [=] & _)|(row & body' & uid & [= <-] & Hu & Hfresh & Hid & Huid
                                     & Hst & Hpp & Hwr & Hem & _ & _ & Hbj & ->)]];
    [by destruct (Hr (Some body))|].
  exists (new_job_id env w), uid. split; [done|]. split; [done|].
  intros poll jid reader Hm Hres Hreader.
  rewrite (workflow_status_lookup env poll jid _ reader);
    [|done|rewrite Hres; apply new_job_id_not_reserved|done|done].
  rewrite Hres. simpl. rewrite lookup_insert_eq. simpl.
  rewrite bool_decide_false by (apply (map_size_ne_0_lookup_2 _ "id"); eauto).
  assert (dict_get row "user_id" = from_option VStr VNone uid) as Hdu
    by (unfold dict_get; by rewrite Huid).
  split.
  - intros Hcase.
    assert (owner_mismatch reader row = false) as ->.
    { unfold owner_mismatch. rewrite Hdu.
      destruct reader as [r|]; [|done].
      destruct (decide (r = "")) as [->|Hr]; [done|].
      rewrite bool_decide_false by done.
      destruct uid as [c|]; [|done]. simpl.
      destruct (decide (c = "")) as [->|Hc]; [done|].
      destruct Hcase as [[=]|[[=]|[[=]|[[=]|[= ->]]]]]; try done.
      rewrite bool_decide_false by done. simpl.
      by rewrite bool_decide_true. }
    rewrite Hid. eexists. split; [reflexivity|].
    destruct (status_view_fields row (VStr (new_job_id env w)))
      as (H1 & H2 & H3 & _ & _ & _ & H4 & H5 & _).
    rewrite H1, H2, H3, H4, H5. unfold dict_get. rewrite Hst, Hpp. done.
  - intros r c -> -> Hr Hc Hrc.
    assert (owner_mismatch (Some r) row = true) as ->; [|done].
    unfold owner_mismatch. rewrite Hdu. simpl.
    rewrite !bool_decide_false by congruence. done.
Qed.
End CreationEffects.

Lemma created_job_visibility_witness :
  let w1 := snd (generate_workflow_async env_users (create_as (Some "Bearer token-a")) w0) in
  queued_view job1 (fst (workflow_status env_users (poll_as (Some "Bearer token-a"))
                           (Some job1) w1))
  ∧ queued_view job1 (fst (workflow_status env_users (poll_as None) (Some job1) w1))
  ∧ fst (workflow_status env_users (poll_as (Some "Bearer token-b")) (Some job1) w1)
    = Ok forbidden_response.
Proof.
  intros w1.
  destruct (created_job_visibility env_users (create_as (Some "Bearer token-a")) w0
              (list_to_map [
                 ("job_id", VStr job1); ("status", VStr "queued");
                 ("message", VStr "Workflow generation job created. Poll /workflow-status/{job_id} for results.");
                 ("estimated_completion_time", VStr "30-120 seconds")]))
    as (j & creator & Hj & Hc & Hread); [vm_compute; reflexivity|reflexivity|].
  vm_compute in Hj. injection Hj as <-.
  vm_compute in Hc. injection Hc as <-.
  split_and!.
  - eapply (Hread _ _ (Some "user-a")); [done|reflexivity|reflexivity|]. by do 4 right.
  - eapply (Hread _ _ None); [done|reflexivity|reflexivity|]. by left.
  - eapply (Hread _ _ (Some "user-b")); [done|reflexivity|reflexivity|reflexivity|reflexivity|done..].
Defined.

(** ** Paths and tokens *)

Section Paths.
Context (env : Env).

Lemma contains_cons k c s : contains k (String c s) = false →
  String.prefix k (String c s) = false ∧ contains k s = false.
Proof. simpl. intros H. by apply orb_false_iff in H. Qed.

Lemma no_slash_cons c s :
  contains "/" (String c s) = false → Ascii.eqb c "/" = false ∧ contains "/" s = false.
Proof.
  intros H. apply contains_cons in H as [Hp Hs]. split; [|done].
  simpl in Hp. destruct (ascii_dec "/" c) as [<-|Hne].
  - by destruct s.
  - apply Ascii.eqb_neq. congruence.
Qed.

Lemma last_segment_go_plain s :
  ∀ cur, contains "/" s = false → last_segment_go cur s = cur +:+ s.
Proof.
  induction s as [|c s IH]; intros cur Hs; simpl.
  - by rewrite string_app_nil_r.
  - apply no_slash_cons in Hs as [-> Hs]. rewrite IH by done.
    by rewrite string_app_assoc.
Qed.

Lemma last_segment_go_slash pre s :
  ∀ cur, last_segment_go cur (pre +:+ String "/" s) = last_segment s.
Proof.
  induction pre as [|c pre IH]; intros cur.
  - done.
  - rewrite string_app_cons. simpl. destruct (Ascii.eqb c "/"); apply IH.
Qed.

(** X18.  Which job a status request names: an explicit non-empty
    [job_id] is used as it is; otherwise it is what follows the last slash
    of the path; and when the path ends in a slash the request is answered
    400 "Job ID is required" without a lookup. *)
Theorem status_path_resolution request jid pre j :
  url_path request = pre +:+ "/" +:+ j → contains "/" j = false →
  (∀ explicit, explicit ≠ "" → resolved_job_id request (Some explicit) = explicit)
  ∧ (jid = None ∨ jid = Some "" → resolved_job_id request jid = j)
  ∧ (jid = None ∨ jid = Some "" → method request ≠ "OPTIONS" → j = "" →
       ∀ w, workflow_status env request jid w = (Ok bad_request_response, w)).
Proof.
  intros Hpath Hj.
  assert (last_segment (url_path request) = j) as Hlast.
  { rewrite Hpath. unfold last_segment at 1.
    change ("/" +:+ j) with (String "/" j).
    rewrite last_segment_go_slash. unfold last_segment.
    by rewrite last_segment_go_plain. }
  assert (jid = None ∨ jid = Some "" → resolved_job_id request jid = j) as Hres.
  { by intros [->| ->]. }
  split_and!; [|done|].
  - intros explicit Hne. simpl. by rewrite bool_decide_false.
  - intros Hjid Hm -> w. apply workflow_status_reserved; [done|].
    by rewrite Hres.
Qed.

Lemma replace_absent old new s :
  old ≠ "" → contains old s = false → replace old new s = s.
Proof.
  intros Hold. unfold replace. induction s as [|c s IH]; intros Hs; [done|].
  apply contains_cons in Hs as [Hp Hs]. cbn [replace_go]. rewrite Hp.
  by rewrite IH.
Qed.

Lemma replace_bearer_upper t :
  contains "Bearer " t = false → replace "Bearer " "" ("Bearer " +:+ t) = t.
Proof.
  intros Ht. unfold replace.
  change ("Bearer " +:+ t)
    with (String "B" (String "e" (String "a" (String "r" (String "e" (String "r"
            (String " " t))))))).
  cbn [replace_go].
  assert (String.prefix "Bearer " (String "B" (String "e" (String "a" (String "r"
            (String "e" (String "r" (String " " t))))))) = true) as ->.
  { simpl. by destruct t. }
  rewrite string_app_nil_l. simpl String.length. cbn [Nat.sub replace_go].
  by apply (replace_absent "Bearer " "" t).
Qed.

Lemma replace_bearer_lower t :
  contains "bearer " t = false → replace "bearer " "" ("bearer " +:+ t) = t.
Proof.
  intros Ht. unfold replace.
  change ("bearer " +:+ t)
    with (String "b" (String "e" (String "a" (String "r" (String "e" (String "r"
            (String " " t))))))).
  cbn [replace_go].
  assert (String.prefix "bearer " (String "b" (String "e" (String "a" (String "r"
            (String "e" (String "r" (String " " t))))))) = true) as ->.
  { simpl. by destruct t. }
  rewrite string_app_nil_l. simpl String.length. cbn [Nat.sub replace_go].
  by apply (replace_absent "bearer " "" t).
Qed.

Lemma contains_bearer_mixed t :
  contains "Bearer " t = false → contains "Bearer " ("bearer " +:+ t) = false.
Proof.
  intros Ht.
  change ("bearer " +:+ t)
    with (String "b" (String "e" (String "a" (String "r" (String "e" (String "r"
            (String " " t))))))).
  cbn [contains]. rewrite Ht.
  repeat (match goal with
          | |- context [String.prefix ?k (String ?c ?s)] =>
              let H := fresh in
              assert (String.prefix k (String c s) = false) as H by reflexivity;
              rewrite H; clear H
          end).
  done.
Qed.

(** X19.  The handlers identify the requester by the token of the
    Authorization header with or without the scheme: for a token that
    contains neither "Bearer " nor "bearer ", the headers "Bearer <token>",
    "bearer <token>" and the bare non-empty token all resolve to the user of
    that token. *)
Theorem requester_token request token :
  contains "Bearer " token = false → contains "bearer " token = false →
  (authorization request = Some ("Bearer " +:+ token)
   ∨ authorization request = Some ("bearer " +:+ token)
   ∨ (authorization request = Some token ∧ token ≠ "")) →
  requester env request = auth_get_user env token
  ∧ ∀ w, requester_id env request w = (auth_get_user env token, w).
Proof.
  intros Hu Hl Hauth.
  assert (requester env request = auth_get_user env token) as Hreq.
  { unfold requester. destruct Hauth as [->|[->|[-> Hne]]].
    - rewrite bool_decide_false by (by destruct token).
      rewrite replace_bearer_upper by done.
      by rewrite (replace_absent "bearer " "" token).
    - rewrite bool_decide_false by (by destruct token).
      rewrite (replace_absent "Bearer " "" ("bearer " +:+ token)).
      + by rewrite replace_bearer_lower.
      + done.
      + by apply contains_bearer_mixed.
    - rewrite bool_decide_false by done.
      rewrite (replace_absent "Bearer " "" token) by done.
      by rewrite (replace_absent "bearer " "" token). }
  split; [done|]. intros w. by rewrite requester_id_pure, Hreq.
Qed.
End Paths.

Lemma status_path_resolution_witness :
  resolved_job_id poll_request None = job1
  ∧ resolved_job_id reserved_request (Some "") = "status".
Proof.
  split.
  - eapply (status_path_resolution env0 poll_request None "/workflow-status" job1);
      [reflexivity|reflexivity|by left].
  - eapply (status_path_resolution env0 reserved_request (Some "") "/workflow-status"
              "status"); [reflexivity|reflexivity|by right].
Defined.

Lemma requester_token_witness :
  requester env_users (poll_as (Some "Bearer token-a")) = Ok (Some "user-a")
  ∧ requester env_users (poll_as (Some "token-a")) = Ok (Some "user-a").
Proof.
  split.
  - apply (requester_token env_users (poll_as (Some "Bearer token-a")) "token-a");
      [reflexivity|reflexivity|by left].
  - apply (requester_token env_users (poll_as (Some "token-a")) "token-a");
      [reflexivity|reflexivity|right; right; done].
Defined.

(** ** Authentication *)

Section AuthenticationProperties.
Context (env : Env) (aenv : AuthEnv).

Lemma strip_spec s : strip s = "" ∨ (strip s ≠ "" ∧ trimmed (strip s)).
Proof.
  destruct (decide (strip s = "")) as [?|Hne]; [by left|right].
  split; [done|]. apply strip_trimmed.
Qed.

Lemma extract_token_cases authorization :
  (_extract_token authorization = HTTPError (http_error 401 "Unauthorized" None)
   ∧ (not_str authorization = true
      ∨ bearer_token (default "" authorization) = ""))
  ∨ (∃ a, authorization = Some a ∧ a ≠ "" ∧ bearer_token a ≠ ""
          ∧ _extract_token authorization = Return (bearer_token a)).
Proof.
  unfold _extract_token. destruct authorization as [a|]; simpl; [|left; auto].
  destruct (decide (a = "")) as [->|Ha]; [left; auto|].
  rewrite (bool_decide_false (a = "")) by done.
  fold (bearer_token a). destruct (decide (bearer_token a = "")) as [Ht|Ht].
  - rewrite bool_decide_true by done. left. auto.
  - rewrite bool_decide_false by done. right. by exists a.
Qed.

(** [get_user_from_token] raises before it asks the store anything. *)
Lemma get_user_from_token_raises token w exc w' :
  get_user_from_token aenv token w = (Raise exc, w') → w' = w.
Proof.
  unfold get_user_from_token, bind, lift_result, try_except, raise, ret,
    logger_warning, modify.
  destruct (decode_jwt aenv token) as [payload|e]; [|by intros [= _ <-]].
  destruct (negb _); [by intros [= _ <-]|].
  destruct (profiles_single aenv _) as [p|e]; simpl;
    destruct (user_roles_select aenv _) as [r|e']; simpl; done.
Qed.

Lemma get_optional_user_anonymous authorization w :
  not_str authorization = true ∨ bearer_token (default "" authorization) = "" →
  get_optional_user aenv authorization w = (Return None, w).
Proof.
  intros Hwhy. unfold get_optional_user. destruct Hwhy as [->|Hb]; [done|].
  destruct (not_str authorization); [done|].
  fold (bearer_token (default "" authorization)). by rewrite Hb.
Qed.

Lemma get_optional_user_token a w :
  a ≠ "" → bearer_token a ≠ "" →
  get_optional_user aenv (Some a) w
  = match get_user_from_token aenv (bearer_token a) w with
    | (Ok user, w') => (Return (Some user), w')
    | (Raise exc, w') =>
        (HTTPError (http_error 401 "Unauthorized" (Some (VStr (str_exc exc)))), w')
    end.
Proof.
  intros Ha Ht. unfold get_optional_user. simpl. rewrite bool_decide_false by done.
  fold (bearer_token a). by rewrite bool_decide_false.
Qed.

Lemma get_current_user_token authorization token w :
  _extract_token authorization = Return token →
  get_current_user aenv authorization w
  = match get_user_from_token aenv token w with
    | (Ok user, w') => (Return user, w')
    | (Raise exc, w') =>
        (HTTPError (http_error 401 "Unauthorized" (Some (VStr (str_exc exc)))), w')
    end.
Proof. intros Hex. unfold get_current_user. by rewrite Hex. Qed.

(** X20.  [get_optional_user] and [get_current_user] differ only when the
    header carries no token: the first then returns no user where the
    second raises 401 "Unauthorized".  When there is a token, which is then
    non-empty and stripped, both do the same, so a token that does not
    verify is a 401 with the verifier's message on optional routes too. *)
Theorem optional_user_vs_current authorization w :
  match _extract_token authorization with
  | Return token =>
      token ≠ "" ∧ trimmed token
      ∧ get_optional_user aenv authorization w
        = (as_optional (get_current_user aenv authorization w).1,
           (get_current_user aenv authorization w).2)
      ∧ ∀ exc w', get_user_from_token aenv token w = (Raise exc, w') →
          get_optional_user aenv authorization w
          = (HTTPError (http_error 401 "Unauthorized" (Some (VStr (str_exc exc)))), w')
  | HTTPError e =>
      e = http_error 401 "Unauthorized" None
      ∧ get_current_user aenv authorization w = (HTTPError e, w)
      ∧ get_optional_user aenv authorization w = (Return None, w)
  | Unhandled _ => False
  end.
Proof.
  destruct (extract_token_cases authorization)
    as [[Hex Hwhy]|(a & -> & Ha & Ht & Hex)].
  - rewrite Hex. split; [done|]. split.
    + unfold get_current_user. by rewrite Hex.
    + by apply get_optional_user_anonymous.
  - rewrite Hex. split_and!.
    + done.
    + unfold bearer_token. apply strip_trimmed.
    + rewrite get_optional_user_token by done.
      rewrite (get_current_user_token _ _ _ Hex).
      by destruct (get_user_from_token aenv (bearer_token a) w) as [[user|exc] w'].
    + intros exc w' Hraise. by rewrite get_optional_user_token, Hraise.
Qed.

(** X21.  [require_service_role] either passes or raises 403 "Service role
    required".  It passes exactly when the configured key is non-empty and
    is the [x-service-role-key] header, or, with that header absent or
    empty, the token of the Authorization header; a non-empty wrong
    [x-service-role-key] is refused whatever the Authorization header
    says. *)
Theorem require_service_role_spec x_service_role_key authorization :
  let key := supabase_service_role_key (auth_settings aenv) in
  let denied := HTTPError (http_error 403 "Service role required" None) in
  (require_service_role aenv x_service_role_key authorization = Return tt
   ∨ require_service_role aenv x_service_role_key authorization = denied)
  ∧ (require_service_role aenv x_service_role_key authorization = Return tt ↔
     key ≠ ""
     ∧ (x_service_role_key = Some key
        ∨ (not_str x_service_role_key = true
           ∧ ∃ a, authorization = Some a ∧ bearer_token a = key)))
  ∧ (∀ x, x_service_role_key = Some x → x ≠ "" → x ≠ key →
       require_service_role aenv x_service_role_key authorization = denied).
Proof.
  intros key denied.
  set (check := λ c : option string,
         if not_str c || negb (bool_decide (c = Some key)) then denied else Return tt).
  set (candidate :=
         if not_str x_service_role_key && negb (not_str authorization)
         then Some (bearer_token (default "" authorization))
         else x_service_role_key).
  change (require_service_role aenv x_service_role_key authorization)
    with (check candidate).
  assert (∀ c, check c = Return tt ↔ key ≠ "" ∧ c = Some key) as Hcheck.
  { intros c. unfold check. destruct (decide (c = Some key)) as [->|Hc].
    - rewrite bool_decide_true by done. simpl.
      destruct (decide (key = "")) as [Hk|Hk].
      + rewrite bool_decide_true by done. simpl. split; [done|]. by intros [? _].
      + rewrite bool_decide_false by done. simpl. done.
    - rewrite bool_decide_false by done. rewrite orb_true_r.
      split; [done|]. by intros [_ ?]. }
  assert (∀ c, check c = Return tt ∨ check c = denied) as Htwo.
  { intros c. unfold check. destruct (_ || _); auto. }
  split; [apply Htwo|]. split.
  - rewrite Hcheck. split.
    + intros [Hk Hc]. split; [done|]. unfold candidate in Hc.
      destruct (not_str x_service_role_key) eqn:Hx; simpl in Hc; [|by left].
      destruct authorization as [a|]; simpl in Hc.
      * destruct (bool_decide (a = "")); simpl in Hc.
        -- by left.
        -- injection Hc as Hc. right. split; [done|]. by exists a.
      * by left.
    + intros [Hk Hcase]. split; [done|]. unfold candidate.
      destruct Hcase as [->|[Hx (a & -> & Hb)]].
      * simpl. by rewrite bool_decide_false.
      * rewrite Hx. simpl.
        assert (a ≠ "") as Ha by (intros ->; by rewrite <- Hb in Hk).
        rewrite bool_decide_false by done. simpl. by rewrite Hb.
  - intros x -> Hx Hne.
    destruct (Htwo candidate) as [Hok|Hd]; [|done].
    apply Hcheck in Hok as [_ Hc]. unfold candidate in Hc. simpl in Hc.
    rewrite bool_decide_false in Hc by done. simpl in Hc. congruence.
Qed.

(** X22.  [get_user_from_token] raises only when the token does not decode
    or has no truthy [sub], and then the world is unchanged.  Otherwise it
    returns a user with that [sub] and [email], and failures of the profile
    and role queries are logged as warnings and swallowed: a failed profile
    query gives no profile, a failed role query gives no roles, so that
    [require_admin] refuses the user with 403. *)
Theorem get_user_from_token_outcome token w :
  match decode_jwt aenv token with
  | Raise e => get_user_from_token aenv token w = (Raise e, w)
  | Ok payload =>
      if truthy (dict_get payload "sub") then
        ∃ user w',
          get_user_from_token aenv token w = (Ok user, w')
          ∧ user_id user = dict_get payload "sub"
          ∧ email user = dict_get payload "email"
          ∧ jobs w' = jobs w ∧ store_log w' = store_log w
          ∧ (∀ e, profiles_single aenv (dict_get payload "sub") = Raise e →
               profile user = None
               ∧ log_msg <$> take 1 (drop (length (logs w)) (logs w'))
                 = ["Failed to load profile"])
          ∧ (∀ e, user_roles_select aenv (dict_get payload "sub") = Raise e →
               roles user = []
               ∧ last (log_msg <$> logs w') = Some "Failed to load roles"
               ∧ require_admin user
                 = HTTPError (http_error 403 "Admin access required" None))
          ∧ (∀ p rows, profiles_single aenv (dict_get payload "sub") = Ok p →
               user_roles_select aenv (dict_get payload "sub") = Ok rows →
               w' = w ∧ profile user = p)
      else get_user_from_token aenv token w
           = (Raise (ValueError "Invalid token payload"), w)
  end.
Proof.
  unfold get_user_from_token, bind, lift_result.
  destruct (decode_jwt aenv token) as [payload|e]; [|done].
  destruct (truthy (dict_get payload "sub")); simpl; [|done].
  unfold try_except, bind, lift_result, logger_warning, modify, ret.
  destruct (profiles_single aenv _) as [p|e1]; simpl;
    destruct (user_roles_select aenv _) as [rows|e2]; simpl;
    eexists _, _; (split; [reflexivity|]); simpl;
    split_and!; try done.
  - by intros p0 rows0 [= <-] _.
  - intros e _. split_and!; try done. rewrite fmap_app. apply last_snoc.
  - intros e _. split; [done|]. by rewrite drop_app_length.
  - intros e _. split; [done|]. by rewrite <- app_assoc, drop_app_length.
  - intros e _. split_and!; try done. rewrite fmap_app. apply last_snoc.
Qed.

(** X23.  For a user that [get_user_from_token] returned, [require_admin]
    either returns the user or raises 403 "Admin access required", and it
    returns the user exactly when the role query succeeded with a row whose
    [role] is "admin". *)
Theorem require_admin_by_role_rows token w user w' :
  get_user_from_token aenv token w = (Ok user, w') →
  (require_admin user = Return user
   ∨ require_admin user = HTTPError (http_error 403 "Admin access required" None))
  ∧ (require_admin user = Return user ↔
     ∃ rows row, user_roles_select aenv (user_id user) = Ok (Some rows)
                 ∧ row ∈ rows ∧ row !! "role" = Some (VStr "admin")).
Proof.
  intros Hrun.
  assert (roles user
          = match user_roles_select aenv (user_id user) with
            | Ok data => omap (λ row : gmap string value, row !! "role") (default [] data)
            | Raise _ => []
            end) as Hroles.
  { revert Hrun. unfold get_user_from_token, bind, lift_result.
    destruct (decode_jwt aenv token) as [payload|e]; [|done].
    destruct (negb _); [done|].
    unfold try_except, bind, lift_result, logger_warning, modify, ret.
    destruct (profiles_single aenv _) as [p|e1]; simpl;
      destruct (user_roles_select aenv _) as [rows|e2] eqn:Hrows; simpl;
      intros [= <- <-]; simpl; by rewrite Hrows. }
  assert (is_admin (roles user) = true ↔
          ∃ rows row, user_roles_select aenv (user_id user) = Ok (Some rows)
                      ∧ row ∈ rows ∧ row !! "role" = Some (VStr "admin")) as Hadmin.
  { rewrite Hroles. unfold is_admin. rewrite existsb_exists. split.
    - intros (role & Hin & Heq). apply eq_str_true in Heq as ->.
      destruct (user_roles_select aenv (user_id user)) as [[rows|]|e]; simpl in Hin;
        [|done..].
      apply list_elem_of_In, list_elem_of_omap in Hin as (row & Hin & Hrole).
      by exists rows, row.
    - intros (rows & row & -> & Hin & Hrole). exists (VStr "admin"). simpl.
      split; [|done].
      apply list_elem_of_In, list_elem_of_omap. by exists row. }
  unfold require_admin. destruct (is_admin (roles user)); simpl.
  - split; [by left|]. split; [intros _; by apply Hadmin|done].
  - split; [by right|]. split; [done|]. intros H. by apply Hadmin in H.
Qed.
End AuthenticationProperties.

(** ** Keys and routes *)

Section KeysAndRoutes.
Context (env : Env) (aenv : AuthEnv).

Lemma contains_app_r k pre s : contains k s = true → contains k (pre +:+ s) = true.
Proof.
  intros Hs. induction pre as [|c pre IH]; [done|].
  rewrite string_app_cons. cbn [contains]. rewrite IH. apply orb_true_r.
Qed.

Lemma prefix_app k s : String.prefix k (k +:+ s) = true.
Proof.
  induction k as [|c k IH]; [by destruct s|].
  rewrite string_app_cons. cbn [String.prefix].
  destruct (ascii_dec c c); [done|congruence].
Qed.

Lemma contains_prefix k s : String.prefix k s = true → contains k s = true.
Proof. intros H. destruct s; simpl in *; by rewrite H. Qed.

Lemma pem_has_header key :
  contains "BEGIN PUBLIC KEY"
    ("-----BEGIN PUBLIC KEY-----" +:+ newline +:+ key +:+ newline
     +:+ "-----END PUBLIC KEY-----") = true.
Proof.
  change ("-----BEGIN PUBLIC KEY-----" +:+ newline +:+ key +:+ newline
          +:+ "-----END PUBLIC KEY-----")
    with ("-----" +:+ ("BEGIN PUBLIC KEY" +:+ ("-----" +:+ newline +:+ key +:+ newline
          +:+ "-----END PUBLIC KEY-----"))).
  apply contains_app_r, contains_prefix, prefix_app.
Qed.

(** X24.  [_normalize_public_key] is idempotent; it gives [None] exactly
    for a missing or empty key; and a key it gives is non-empty, contains
    "BEGIN PUBLIC KEY", and is the key [decode_jwt] verifies the token with,
    under RS256, whatever secret is configured. *)
Theorem normalize_public_key_idempotent public_key token :
  _normalize_public_key (_normalize_public_key public_key)
    = _normalize_public_key public_key
  ∧ (_normalize_public_key public_key = None ↔ not_str public_key = true)
  ∧ (∀ pem, _normalize_public_key public_key = Some pem →
       pem ≠ "" ∧ contains "BEGIN PUBLIC KEY" pem = true
       ∧ (supabase_jwt_public_key (auth_settings aenv) = public_key →
          decode_jwt aenv token = jwt_decode aenv token pem "RS256")).
Proof.
  assert (∀ pem, _normalize_public_key public_key = Some pem →
            pem ≠ "" ∧ contains "BEGIN PUBLIC KEY" pem = true) as Hpem.
  { unfold _normalize_public_key. intros pem.
    destruct public_key as [key|]; [|done].
    case_bool_decide as Hk; [done|].
    destruct (contains "BEGIN PUBLIC KEY" key) eqn:Hc; intros [= <-].
    - done.
    - split; [done|]. apply pem_has_header. }
  split_and!.
  - destruct (_normalize_public_key public_key) as [pem|] eqn:Hn; [|done].
    destruct (Hpem pem eq_refl) as [Hne Hc]. simpl.
    by rewrite bool_decide_false, Hc.
  - unfold _normalize_public_key. destruct public_key as [key|]; simpl; [|done].
    case_bool_decide; [done|]. by destruct (contains _ key).
  - intros pem Hn. destruct (Hpem pem Hn) as [Hne Hc]. split_and!; [done..|].
    intros Hset. unfold decode_jwt. rewrite Hset, Hn. simpl.
    by rewrite bool_decide_false.
Qed.

Lemma route_rejected {U} (dependency : World → Outcome U * World) handler w e w' :
  dependency w = (HTTPError e, w') → route dependency handler w = (HTTPError e, w').
Proof. intros H. unfold route. by rewrite H. Qed.

Lemma route_passed {U} (dependency : World → Outcome U * World) handler w u :
  dependency w = (Return u, w) → route dependency handler w = handled (handler w).
Proof. intros H. unfold route, handled. by rewrite H. Qed.

(** X25.  The routes authenticate before the handler runs.  A token that
    does not verify is rejected with 401 by all four routes of job creation
    and status, with the world unchanged.  Without a token the routes of
    [app/routers] run the handler as if called directly, and the routes of
    [app/api/v1] reject the request with 401 and leave the world
    unchanged. *)
Theorem routes_authenticate_first request job_id w :
  match _extract_token (authorization request) with
  | Return token =>
      ∀ exc w', get_user_from_token aenv token w = (Raise exc, w') →
        let rejected :=
          (HTTPError (http_error 401 "Unauthorized" (Some (VStr (str_exc exc)))), w') in
        w' = w
        ∧ routers.generate_workflow_async_route env aenv request w = rejected
        ∧ routers.workflow_status_route env aenv request w = rejected
        ∧ api_v1.generate_workflow_async_route env aenv request w = rejected
        ∧ api_v1.workflow_status_route env aenv request job_id w = rejected
  | _ =>
      let rejected := (HTTPError (http_error 401 "Unauthorized" None), w) in
      routers.generate_workflow_async_route env aenv request w
        = handled (generate_workflow_async env request w)
      ∧ routers.workflow_status_route env aenv request w
        = handled (workflow_status env request None w)
      ∧ api_v1.generate_workflow_async_route env aenv request w = rejected
      ∧ api_v1.workflow_status_route env aenv request job_id w = rejected
  end.
Proof.
  unfold routers.generate_workflow_async_route, routers.workflow_status_route,
    api_v1.generate_workflow_async_route, api_v1.workflow_status_route.
  destruct (extract_token_cases (authorization request))
    as [[Hex Hwhy]|(a & Hauth & Ha & Ht & Hex)].
  - rewrite Hex. simpl.
    pose proof (get_optional_user_anonymous aenv _ w Hwhy) as Hopt.
    assert (get_current_user aenv (authorization request) w
            = (HTTPError (http_error 401 "Unauthorized" None), w)) as Hcur
      by (unfold get_current_user; by rewrite Hex).
    split_and!.
    + by apply (route_passed _ _ _ None).
    + by apply (route_passed _ _ _ None).
    + by apply route_rejected.
    + by apply route_rejected.
  - rewrite Hex. cbv beta iota zeta. intros exc w' Hraise.
    pose proof (get_user_from_token_raises aenv _ _ _ _ Hraise) as Hw.
    assert (get_optional_user aenv (authorization request) w
            = (HTTPError (http_error 401 "Unauthorized" (Some (VStr (str_exc exc)))), w'))
      as Hopt by (by rewrite Hauth, get_optional_user_token, Hraise).
    assert (get_current_user aenv (authorization request) w
            = (HTTPError (http_error 401 "Unauthorized" (Some (VStr (str_exc exc)))), w'))
      as Hcur by (by rewrite (get_current_user_token _ _ _ _ Hex), Hraise).
    split_and!; [done|by apply route_rejected..].
Qed.
End KeysAndRoutes.

Lemma optional_user_vs_current_witness :
  get_optional_user aenv0 (Some "Bearer forged") w0
  = (HTTPError (http_error 401 "Unauthorized"
                  (Some (VStr "Signature verification failed"))), w0)
  ∧ get_optional_user aenv0 (Some "Bearer ") w0 = (Return None, w0)
  ∧ get_optional_user aenv0 (Some ("Bearer " +:+ nbsp)) w0 = (Return None, w0).
Proof.
  split; [|split].
  - pose proof (optional_user_vs_current aenv0 (Some "Bearer forged") w0) as H.
    change (_extract_token (Some "Bearer forged")) with (Return (A := string) "forged") in H.
    destruct H as (_ & _ & _ & H).
    apply (H (mkExn "InvalidSignatureError" "Signature verification failed") w0).
    vm_compute. reflexivity.
  - pose proof (optional_user_vs_current aenv0 (Some "Bearer ") w0) as H.
    change (_extract_token (Some "Bearer "))
      with (HTTPError (A := string) (http_error 401 "Unauthorized" None)) in H.
    by destruct H as (_ & _ & H).
  - pose proof (optional_user_vs_current aenv0 (Some ("Bearer " +:+ nbsp)) w0) as H.
    change (_extract_token (Some ("Bearer " +:+ nbsp)))
      with (HTTPError (A := string) (http_error 401 "Unauthorized" None)) in H.
    by destruct H as (_ & _ & H).
Defined.

Lemma require_service_role_spec_witness :
  require_service_role aenv0 None (Some ("Bearer service-key" +:+ nbsp)) = Return tt
  ∧ require_service_role aenv0 (Some "wrong") (Some "Bearer service-key")
    = HTTPError (http_error 403 "Service role required" None).
Proof.
  destruct (require_service_role_spec aenv0 None (Some ("Bearer service-key" +:+ nbsp)))
    as (_ & Hiff & _).
  destruct (require_service_role_spec aenv0 (Some "wrong") (Some "Bearer service-key"))
    as (_ & _ & Hwrong).
  split.
  - apply Hiff. split; [done|]. right. split; [done|].
    exists ("Bearer service-key" +:+ nbsp). split; [done|]. vm_compute. reflexivity.
  - by apply (Hwrong "wrong").
Defined.

Lemma get_user_from_token_outcome_witness :
  ∃ user w', get_user_from_token aenv0 "alice" w0 = (Ok user, w')
             ∧ roles user = [] ∧ profile user = None
             ∧ log_msg <$> logs w' = ["Failed to load profile"].
Proof.
  pose proof (get_user_from_token_outcome aenv0 "alice" w0) as H.
  change (decode_jwt aenv0 "alice") with (Ok (A := gmap string value) {[ "sub" := VStr "alice" ]}) in H.
  change (truthy (dict_get {[ "sub" := VStr "alice" ]} "sub")) with true in H.
  cbv iota in H.
  destruct H as (user & w' & Hrun & _ & _ & _ & _ & Hp & _).
  destruct (Hp (mkExn "APIError" "no rows") eq_refl) as [Hprofile Hlog].
  exists user, w'. split; [exact Hrun|].
  destruct (get_user_from_token aenv0 "alice" w0) as [r w1] eqn:Hcall.
  vm_compute in Hcall. injection Hcall as <- <-. injection Hrun as <- <-.
  split_and!; reflexivity.
Defined.

Lemma require_admin_by_role_rows_witness :
  require_admin (mkUserContext (VStr "root") VNone [VStr "admin"] None)
  = Return (mkUserContext (VStr "root") VNone [VStr "admin"] None).
Proof.
  eapply (require_admin_by_role_rows aenv0 "root" w0); [vm_compute; reflexivity|].
  exists [{[ "role" := VStr "admin" ]}], {[ "role" := VStr "admin" ]}.
  split_and!; [reflexivity|by apply list_elem_of_singleton|reflexivity].
Defined.

Lemma normalize_public_key_idempotent_witness :
  _normalize_public_key (Some "MIIB") =
    Some ("-----BEGIN PUBLIC KEY-----" +:+ newline +:+ "MIIB" +:+ newline
          +:+ "-----END PUBLIC KEY-----")
  ∧ decode_jwt (mkAuthEnv (mkAuthSettings "k" (Some "MIIB") (Some "secret"))
                  (λ _ key alg, Ok {[ "alg" := VStr alg; "key" := VStr key ]})
                  (λ _, Ok None) (λ _, Ok None) (λ _, "")) "t"
    = Ok {[ "alg" := VStr "RS256";
            "key" := VStr ("-----BEGIN PUBLIC KEY-----" +:+ newline +:+ "MIIB" +:+ newline
                           +:+ "-----END PUBLIC KEY-----") ]}.
Proof.
  split; [reflexivity|].
  destruct (normalize_public_key_idempotent
              (mkAuthEnv (mkAuthSettings "k" (Some "MIIB") (Some "secret"))
                 (λ _ key alg, Ok {[ "alg" := VStr alg; "key" := VStr key ]})
                 (λ _, Ok None) (λ _, Ok None) (λ _, "")) (Some "MIIB") "t")
    as (_ & _ & H).
  destruct (H _ eq_refl) as (_ & _ & ->); reflexivity.
Defined.

Lemma routes_authenticate_first_witness :
  routers.generate_workflow_async_route env0 aenv0 (create_as (Some "Bearer forged")) w0
  = (HTTPError (http_error 401 "Unauthorized"
                  (Some (VStr "Signature verification failed"))), w0)
  ∧ api_v1.generate_workflow_async_route env0 aenv0 create_request w0
    = (HTTPError (http_error 401 "Unauthorized" None), w0).
Proof.
  split.
  - pose proof (routes_authenticate_first env0 aenv0 (create_as (Some "Bearer forged"))
                  "" w0) as H.
    change (_extract_token (authorization (create_as (Some "Bearer forged"))))
      with (Return (A := string) "forged") in H.
    destruct (H (mkExn "InvalidSignatureError" "Signature verification failed") w0)
      as (_ & Hr & _); [vm_compute; reflexivity|exact Hr].
  - pose proof (routes_authenticate_first env0 aenv0 create_request "" w0) as H.
    change (_extract_token (authorization create_request))
      with (HTTPError (A := string) (http_error 401 "Unauthorized" None)) in H.
    by destruct H as (_ & _ & Hr & _).
Defined.
